(** * Sweepstakes entry pipeline: rate limiter, ledger and orchestration

    A shallow embedding of [src/utils.js], [src/hgtv-entry.js] and
    [src/food-network-entry.js], and of what surrounds them: the command
    line of [index.js], the scheduler and the configuration module.

    The JavaScript is asynchronous, exception-throwing code that drives a
    browser.  It is embedded in a small state-and-exception monad [M]:
    - the store holds the submissions file, the trace of Page Driver
      actions performed so far, the log, and the two mutable locals of the
      entry functions ([success] and [browser]);
    - everything the outside world decides (what each Puppeteer call
      answers or throws, what the clock reads, whether the disk accepts a
      write) is read from an environment [Env];
    - a computation ends normally, by a JavaScript [return] that leaves the
      enclosing function, or by a thrown error, and the store survives all
      three. *)

From Stdlib Require Import ZArith List String Ascii Bool Lia.
From Stdlib Require Import DecimalString DecimalPos DecimalZ.
From Stdlib Require Import Sorted.
Import ListNotations.
Open Scope string_scope.

(* ================================================================== *)
(** ** String primitives of the JavaScript runtime *)
(* ================================================================== *)

(** Strings are byte strings: page text, markup, selectors and messages
    in UTF-8.  The needles that the code looks for are ASCII, and a byte of
    an ASCII character never occurs inside the encoding of another
    character, so searching bytes finds what searching characters finds. *)

(** [s.startsWith(p)]. *)
Definition startsWith (s p : string) : bool := String.prefix p s.

(** [s.includes(needle)]: [needle] occurs somewhere in [s]. *)
Fixpoint includes (s needle : string) : bool :=
  if String.prefix needle s then true
  else match s with
       | EmptyString => false
       | String _ s' => includes s' needle
       end.

(** Letter case on the ASCII letters; every other byte is left as it
    is.  [toUpperCase] is applied to the two site names only, which are
    ASCII. *)
Definition lower_ascii (c : ascii) : ascii :=
  let n := nat_of_ascii c in
  if (65 <=? n)%nat && (n <=? 90)%nat then ascii_of_nat (n + 32) else c.

Definition upper_ascii (c : ascii) : ascii :=
  let n := nat_of_ascii c in
  if (97 <=? n)%nat && (n <=? 122)%nat then ascii_of_nat (n - 32) else c.

Fixpoint map_string (f : ascii -> ascii) (s : string) : string :=
  match s with
  | EmptyString => EmptyString
  | String c s' => String (f c) (map_string f s')
  end.

Definition toUpperCase : string -> string := map_string upper_ascii.

(** JavaScript truthiness of a string and of a string-or-null. *)
Definition truthy (s : string) : bool := negb (s =? "").
Definition truthy_opt (o : option string) : bool :=
  match o with Some s => truthy s | None => false end.

(** The negated character class of the fallback regular expression:
    any character but the double quote. *)
Definition dquote : ascii := ascii_of_nat 34.
Definition not_dquote (c : ascii) : bool := negb (Ascii.eqb c dquote).

(** The greedy run of non-quote characters followed by the closing quote:
    the longest run of non-quote characters at the head of [s], provided a
    quote follows it.  Backtracking cannot help: a shorter run is followed
    by a non-quote character. *)
Fixpoint take_until_quote (s : string) : option string :=
  match s with
  | EmptyString => None
  | String c s' =>
      if not_dquote c then
        match take_until_quote s' with
        | Some r => Some (String c r)
        | None => None
        end
      else Some EmptyString
  end.

Definition strip_prefix (p s : string) : option string :=
  if String.prefix p s
  then Some (substring (String.length p) (String.length s - String.length p) s)
  else None.

(** One attempt of the fallback expression anchored at the head of [s]:
    the literal data-src= and an opening quote, then capture group 1, made
    of the literal //xd.wayin.com/ and one or more non-quote characters,
    then the closing quote.  The result is capture group 1. *)
Definition match_data_src_here (s : string) : option string :=
  match strip_prefix (String.append "data-src=" (String dquote "//xd.wayin.com/")) s with
  | Some rest =>
      match take_until_quote rest with
      | Some EmptyString => None
      | Some tail => Some ("//xd.wayin.com/" ++ tail)
      | None => None
      end
  | None => None
  end.

(** [html.match(...)] with that expression, then [match[1]]: the leftmost
    position at which the expression matches. *)
Fixpoint match_data_src (html : string) : option string :=
  match match_data_src_here html with
  | Some url => Some url
  | None =>
      match html with
      | EmptyString => None
      | String _ html' => match_data_src html'
      end
  end.

(* ================================================================== *)
(** ** The submission ledger: data model *)
(* ================================================================== *)

(** An instant is a number of milliseconds since the epoch.  The file
    stores instants as the ISO-8601 strings of [toISOString], which
    [new Date(string)] reads back to the same instant, so the model keeps
    the instant itself. *)
Definition Instant := Z.

(** [{ site, success, error, timestamp }], the object pushed by
    [saveSubmissionRecord]. *)
Module Submission.
Record t := mk {
  site : string;
  success : bool;
  error : option string;
  timestamp : Instant
}.
End Submission.
Abbreviation SubmissionRecord := Submission.t.

(** The text of the submissions file, seen through [JSON.parse]: either
    the parser rejects it, or it is an array of records.  Nothing but
    [saveSubmissionRecord] writes the file, and what it writes is
    [JSON.stringify] of such an array, which [JSON.parse] reads back. *)
Inductive Text :=
| Garbage (syntaxError : string)
| Json (submissions : list SubmissionRecord).

(** The file at [config.paths.submissions]. *)
Inductive File :=
| Absent
| Unreadable (ioError : string)
| Holds (data : Text).

Definition existsSync (f : File) : bool :=
  match f with Absent => false | _ => true end.

(** The comparator handed to [sort]:
    [(a, b) => new Date(b.timestamp) - new Date(a.timestamp)]. *)
Definition byNewest (a b : SubmissionRecord) : Z :=
  (Submission.timestamp b - Submission.timestamp a)%Z.

(** [Array.prototype.sort] is stable: [a] stays in front of an equal [b]
    that followed it, and moves behind [b] only when the comparator is
    positive.  Insertion from the right computes that permutation. *)
Fixpoint sort_insert (cmp : SubmissionRecord -> SubmissionRecord -> Z)
    (a : SubmissionRecord) (l : list SubmissionRecord) : list SubmissionRecord :=
  match l with
  | [] => [a]
  | b :: l' => if (cmp a b <=? 0)%Z then a :: l else b :: sort_insert cmp a l'
  end.

Definition sort (cmp : SubmissionRecord -> SubmissionRecord -> Z)
    (l : list SubmissionRecord) : list SubmissionRecord :=
  fold_right (sort_insert cmp) [] l.

(** [submissions.slice(-100)]: from index [max (length - 100) 0] on. *)
Definition slice_last (n : nat) (l : list SubmissionRecord) : list SubmissionRecord :=
  skipn (List.length l - n) l.

(* ================================================================== *)
(** ** Configuration ([src/config.js]) *)
(* ================================================================== *)

Record PersonalInfo := {
  firstName : string;
  lastName : string;
  email : string;
  addressLine1 : string;
  addressLine2 : string;
  city : string;
  state : string;
  zipCode : string;
  phone : string;
  dobMonth : string;
  dobDay : string;
  dobYear : string;
  gender : string
}.

(** The part of [config] that depends on the process environment.  The
    object [config.browser] has no [executablePath] key, so the test
    [if (config.browser.executablePath)] of the entry functions never
    holds and is left out of the launch. *)
Record Config := {
  personalInfo : PersonalInfo;
  captcha_solverApiKey : option string;
  browser_headless : bool;
  browser_slowMo : Z;
  paths_screenshots : string
}.

Definition hgtv_url : string :=
  "https://www.hgtv.com/sweepstakes/hgtv-dream-home/sweepstakes".
Definition foodNetwork_url : string :=
  "https://www.foodnetwork.com/sweepstakes".

(* ================================================================== *)
(** ** The Page Driver and the trace of a run *)
(* ================================================================== *)

(** The form session: a frame found among [page.frames()] (known by its
    URL), or [page.mainFrame()] after the fallback navigation. *)
Inductive Frame :=
| EmbeddedFrame (url : string)
| MainFrame.

(** Which page a screenshot is taken of: the page of the run, or
    [pages[0]] of [browser.pages()] in the error handler. *)
Inductive PageRef := ThePage | FirstOpenPage.

(** Where a selector wait is issued. *)
Inductive Target := OnPage | OnFrame (frame : Frame).

(** The external calls of a run, indexed by the type of their answer.
    [ClickEntryButton], [DataSrcAttribute] and [BodyInnerText] are the
    three closures that [page.evaluate] runs inside the browser;
    [QuerySelector] and [BoundingBox] answer whether the handle, or the
    box, is non-null; [Pages] answers [pages.length]; [Screenshot] answers
    the name of the file written, which carries the time of the shot. *)
Inductive Call : Type -> Type :=
| Launch (headless : bool) (slowMo : option Z) : Call unit
| NewPage : Call unit
| SetViewport (width height : Z) : Call unit
| Goto (url : string) (timeout : option Z) : Call unit
| ClickEntryButton : Call bool
| WaitForSelector (on : Target) (selector : string) (timeout : Z) : Call unit
| Frames : Call (list string)
| DataSrcAttribute : Call (option string)
| Content : Call string
| WritePageDump (html : string) : Call unit
| TypeInto (frame : Frame) (selector value : string) (delay : Z) : Call unit
| SelectOption (frame : Frame) (selector value : string) : Call unit
| Click (frame : Frame) (selector : string) : Call unit
| EvaluateClick (frame : Frame) (selector : string) : Call unit
| QuerySelector (frame : Frame) (selector : string) : Call bool
| BoundingBox (frame : Frame) (selector : string) : Call bool
| BodyInnerText : Call string
| Pages : Call nat
| Close : Call unit
| ScreenshotsDirExists : Call bool
| MkdirScreenshots : Call unit
| Screenshot (page : PageRef) (name : string) : Call string.

Inductive Outcome (T : Type) :=
| Ok (v : T)
| Throws (message : string).
Arguments Ok {T} v.
Arguments Throws {T} message.

(** What a run did to the browser, in order: the Page Driver calls and
    the pauses between them. *)
Inductive Action :=
| Did {T : Type} (c : Call T)
| Slept (ms : Z).

(** What a run did to the submissions file, in order: [existsSync],
    [readFileSync], and a [writeFileSync] that went through. *)
Inductive DiskOp :=
| ProbedSubmissions
| ReadSubmissions
| WroteSubmissions (data : Text).

Inductive Level := Info | Warn | Error.

(** A log entry: a line of text, or the stack trace of a caught error
    (known here by the message of the error). *)
Inductive LogEntry :=
| Line (level : Level) (text : string)
| Stack (level : Level) (message : string).

(** Everything the outside world decides during one run of an entry
    function.  [page] answers a Page Driver call given the actions that
    preceded it; [poll_budget] is the number of times the loop condition
    [Date.now() - startTime < timeout] of [waitForIframe] holds;
    [now_check] and [now_record] are the two readings of [new Date()], in
    [checkRateLimit] and in [saveSubmissionRecord]; [write_error] is the
    error of [writeFileSync] on the submissions file, if it throws. *)
Record Env := {
  page : forall T : Type, list Action -> Call T -> Outcome T;
  poll_budget : nat;
  now_check : Instant;
  now_record : Instant;
  write_error : option string
}.

(** The store: the submissions file and what was done to it, the browser
    actions so far, the log, and the locals [success] and [browser] of the
    entry function that is running. *)
Record Store := mkStore {
  file : File;
  disk : list DiskOp;
  trace : list Action;
  logs : list LogEntry;
  var_success : bool;
  var_browser : bool
}.

Definition with_file (f : File) (s : Store) : Store :=
  mkStore f (disk s) (trace s) (logs s) (var_success s) (var_browser s).
Definition with_disk (op : DiskOp) (s : Store) : Store :=
  mkStore (file s) (disk s ++ [op]) (trace s) (logs s) (var_success s) (var_browser s).
Definition with_action (a : Action) (s : Store) : Store :=
  mkStore (file s) (disk s) (trace s ++ [a]) (logs s) (var_success s) (var_browser s).
Definition with_log (l : LogEntry) (s : Store) : Store :=
  mkStore (file s) (disk s) (trace s) (logs s ++ [l]) (var_success s) (var_browser s).
Definition with_success (b : bool) (s : Store) : Store :=
  mkStore (file s) (disk s) (trace s) (logs s) b (var_browser s).
Definition with_browser (b : bool) (s : Store) : Store :=
  mkStore (file s) (disk s) (trace s) (logs s) (var_success s) b.

(* ================================================================== *)
(** ** The monad *)
(* ================================================================== *)

(** How a block of statements ends: normally with a value, by a [return]
    statement that leaves the enclosing entry function, or by a throw. *)
Inductive Completion (A : Type) :=
| Normal (a : A)
| Return (result : bool)
| Throw (message : string).
Arguments Normal {A} a.
Arguments Return {A} result.
Arguments Throw {A} message.

Definition M (A : Type) : Type := Env -> Store -> Completion A * Store.

Definition ret {A} (a : A) : M A := fun _ s => (Normal a, s).

Definition bind {A B} (m : M A) (k : A -> M B) : M B :=
  fun env s =>
    match m env s with
    | (Normal a, s') => k a env s'
    | (Return b, s') => (Return b, s')
    | (Throw e, s') => (Throw e, s')
    end.

Declare Scope js_scope.
Delimit Scope js_scope with js.
Notation "x <- m ;; k" := (bind m (fun x => k))
  (at level 61, m at next level, right associativity) : js_scope.
Notation "m ;; k" := (bind m (fun _ => k))
  (at level 61, right associativity) : js_scope.
Open Scope js_scope.

Definition throw {A} (message : string) : M A := fun _ s => (Throw message, s).
Definition return_ {A} (result : bool) : M A := fun _ s => (Return result, s).

(** [try { m } catch (error) { handler }]: a [return] inside [m] is not
    caught. *)
Definition try_catch {A} (m : M A) (handler : string -> M A) : M A :=
  fun env s =>
    match m env s with
    | (Throw e, s') => handler e env s'
    | r => r
    end.

(** [try { m } finally { f }]: [f] always runs; when [f] itself returns or
    throws, that replaces the completion of [m]. *)
Definition try_finally {A} (m : M A) (f : M unit) : M A :=
  fun env s =>
    let (c, s1) := m env s in
    match f env s1 with
    | (Normal _, s2) => (c, s2)
    | (Return b, s2) => (Return b, s2)
    | (Throw e, s2) => (Throw e, s2)
    end.

(** A Page Driver call: ask the environment, record the action. *)
Definition call {T} (c : Call T) : M T :=
  fun env s =>
    match page env T (trace s) c with
    | Ok v => (Normal v, with_action (Did c) s)
    | Throws e => (Throw e, with_action (Did c) s)
    end.

(** [await new Promise(resolve => setTimeout(resolve, ms))]. *)
Definition sleep (ms : Z) : M unit :=
  fun _ s => (Normal tt, with_action (Slept ms) s).

Definition log (level : Level) (text : string) : M unit :=
  fun _ s => (Normal tt, with_log (Line level text) s).
Definition log_stack (level : Level) (message : string) : M unit :=
  fun _ s => (Normal tt, with_log (Stack level message) s).

(** The helper methods that [src/logger.js] adds to the logger. *)
Definition log_sweepstakes (site text : string) : M unit :=
  log Info ("[" ++ toUpperCase site ++ "] " ++ text).
Definition log_success (text : string) : M unit := log Info ("✅ " ++ text).
Definition log_failure (text : string) : M unit := log Error ("❌ " ++ text).

Definition get_success : M bool := fun _ s => (Normal (var_success s), s).
Definition set_success (b : bool) : M unit := fun _ s => (Normal tt, with_success b s).
Definition get_browser : M bool := fun _ s => (Normal (var_browser s), s).
Definition set_browser (b : bool) : M unit := fun _ s => (Normal tt, with_browser b s).

(** The submissions file and the clock. *)
Definition existsSync_submissions : M bool :=
  fun _ s => (Normal (existsSync (file s)), with_disk ProbedSubmissions s).

Definition readFileSync_submissions : M Text :=
  fun _ s =>
    match file s with
    | Absent => (Throw "ENOENT: no such file or directory", with_disk ReadSubmissions s)
    | Unreadable e => (Throw e, with_disk ReadSubmissions s)
    | Holds data => (Normal data, with_disk ReadSubmissions s)
    end.

Definition JSON_parse (data : Text) : M (list SubmissionRecord) :=
  match data with
  | Garbage e => throw e
  | Json submissions => ret submissions
  end.

Definition JSON_stringify (submissions : list SubmissionRecord) : Text :=
  Json submissions.

Definition writeFileSync_submissions (data : Text) : M unit :=
  fun env s =>
    match write_error env with
    | Some e => (Throw e, s)
    | None => (Normal tt, with_disk (WroteSubmissions data) (with_file (Holds data) s))
    end.

Definition new_Date_in_check : M Instant := fun env s => (Normal (now_check env), s).
Definition new_Date_in_record : M Instant := fun env s => (Normal (now_record env), s).

(** The outcome of an [async] function, as its caller sees it. *)
Inductive Settled :=
| Resolved (result : bool)
| Rejected (message : string).

Definition settle (c : Completion bool) : Settled :=
  match c with
  | Normal b => Resolved b
  | Return b => Resolved b
  | Throw e => Rejected e
  end.

Definition initial_store (f : File) : Store := mkStore f [] [] [] false false.

(** One call of an entry function on a given submissions file. *)
Definition run (m : M bool) (env : Env) (f : File) : Settled * Store :=
  let (c, s) := m env (initial_store f) in (settle c, s).

Definition string_of_nat (n : nat) : string :=
  DecimalString.NilZero.string_of_uint (Nat.to_uint n).

Definition quoted (s : string) : string :=
  String dquote s ++ String dquote "".

(** The selectors that contain a quote. *)
Definition sel_ngxFrame : string := "iframe[id^=" ++ quoted "ngxFrame" ++ "]".
Definition sel_recaptcha : string :=
  ".g-recaptcha, iframe[src*=" ++ quoted "recaptcha" ++ "]".

(* ================================================================== *)
(** ** Observations on a run *)
(* ================================================================== *)

(** The sequence that [saveSubmissionRecord] starts from: a missing file
    reads as the empty sequence. *)
Definition ledger_of (f : File) : option (list SubmissionRecord) :=
  match f with
  | Absent => Some []
  | Holds (Json submissions) => Some submissions
  | _ => None
  end.

(** The real submit action: a click, native or programmatic, on the
    [.xSubmit] control. *)
Definition is_submit_click (a : Action) : bool :=
  match a with
  | Did c =>
      match c with
      | Click _ selector => selector =? ".xSubmit"
      | EvaluateClick _ selector => selector =? ".xSubmit"
      | _ => false
      end
  | Slept _ => false
  end.

(** An attempt to find or reach the form: the wait for the embedding
    iframe element, a look at the frames, or a navigation. *)
Definition is_locate_action (a : Action) : bool :=
  match a with
  | Did c =>
      match c with
      | WaitForSelector OnPage _ _ => true
      | Frames => true
      | DataSrcAttribute => true
      | Goto _ _ => true
      | _ => false
      end
  | Slept _ => false
  end.

Definition any_action (a : Action) : bool := true.
Definition not_submit_click (a : Action) : bool := negb (is_submit_click a).
Definition not_locate_action (a : Action) : bool := negb (is_locate_action a).

(** Actions that neither submit nor look for the form. *)
Definition quiet (a : Action) : bool := not_submit_click a && not_locate_action a.

(** The [catch] block of an entry function logged the error [e]. *)
Definition stage_error_logged (label e : string) (s : Store) : Prop :=
  In (Line Error ("❌ " ++ label ++ " entry failed: " ++ e)) (logs s).

(** The rate check was executed: [checkRateLimit] begins by probing the
    submissions file. *)
Definition rate_check_executed (s : Store) : Prop := In ProbedSubmissions (disk s).

(** The successful records of a site, as [checkRateLimit] filters them. *)
Definition successes_of (site : string) (l : list SubmissionRecord) : list SubmissionRecord :=
  filter (fun s => (Submission.site s =? site) && Submission.success s) l.

(** [r] is a record of [l] that no record of [l] is more recent than. *)
Definition most_recent (r : SubmissionRecord) (l : list SubmissionRecord) : Prop :=
  In r l /\ forall r', In r' l -> (Submission.timestamp r' <= Submission.timestamp r)%Z.

(** Code that only talks to the browser and the log: it is made of the
    monad's control structure, of Page Driver calls and pauses that [ok]
    accepts, of log lines and of accesses to the two locals, where
    [success] is assigned only if [sets] allows it and the only [return]
    statement is [return false].  It does not touch the submissions file,
    the clock readings or the disk. *)
Inductive browser_code (ok : Action -> bool) (sets : bool) : forall A : Type, M A -> Prop :=
| bc_ret A (a : A) : browser_code ok sets A (ret a)
| bc_throw A e : browser_code ok sets A (throw e)
| bc_return A : browser_code ok sets A (return_ false)
| bc_bind A B (m : M A) (k : A -> M B) :
    browser_code ok sets A m -> (forall a, browser_code ok sets B (k a)) ->
    browser_code ok sets B (bind m k)
| bc_try_catch A (m : M A) (h : string -> M A) :
    browser_code ok sets A m -> (forall e, browser_code ok sets A (h e)) ->
    browser_code ok sets A (try_catch m h)
| bc_try_finally A (m : M A) (f : M unit) :
    browser_code ok sets A m -> browser_code ok sets unit f ->
    browser_code ok sets A (try_finally m f)
| bc_call T (c : Call T) : ok (Did c) = true -> browser_code ok sets T (call c)
| bc_sleep ms : ok (Slept ms) = true -> browser_code ok sets unit (sleep ms)
| bc_log level text : browser_code ok sets unit (log level text)
| bc_log_stack level e : browser_code ok sets unit (log_stack level e)
| bc_get_success : browser_code ok sets bool get_success
| bc_set_success b : sets = true -> browser_code ok sets unit (set_success b)
| bc_get_browser : browser_code ok sets bool get_browser
| bc_set_browser b : browser_code ok sets unit (set_browser b)
| bc_budget A (f : nat -> M A) :
    (forall n, browser_code ok sets A (f n)) ->
    browser_code ok sets A (fun env => f (poll_budget env) env).

(** A block that assigns [success] only when it ends normally. *)
Definition assigns_late {A} (m : M A) : Prop :=
  forall env s,
    match fst (m env s) with
    | Normal _ => True
    | _ => var_success (snd (m env s)) = var_success s
    end.

(** The record that a run leaves, by the value of [success]. *)
Definition outcome_record (site : string) (success : bool) (env : Env) : SubmissionRecord :=
  Submission.mk site success (if success then None else Some "See logs for details")
                (now_record env).

(** Two environments that the browser cannot tell apart, and two stores
    that browser code cannot tell apart. *)
Definition same_world (env env' : Env) : Prop :=
  page env = page env' /\ poll_budget env = poll_budget env'.

Definition same_view (s s' : Store) : Prop :=
  trace s = trace s' /\ var_success s = var_success s' /\ var_browser s = var_browser s'.

(** An environment with another disk and another clock at record time. *)
Definition with_recording (w : option string) (t : Instant) (env : Env) : Env :=
  {| page := page env; poll_budget := poll_budget env; now_check := now_check env;
     now_record := t; write_error := w |}.

(** Three things a block may be known never to do: end by a [return]
    statement, end otherwise than normally, assign the local [browser]. *)
Definition never_returns {A} (m : M A) : Prop :=
  forall env s b, fst (m env s) <> Return b.

Definition always_completes {A} (m : M A) : Prop :=
  forall env s, exists a, fst (m env s) = Normal a.

Definition keeps_browser {A} (m : M A) : Prop :=
  forall env s, var_browser (snd (m env s)) = var_browser s.

(** Every action but [browser.close()]. *)
Definition not_close (a : Action) : bool :=
  match a with
  | Did c => match c with Close => false | _ => true end
  | Slept _ => true
  end.

(** What the environment makes of a [clickButton] that starts after the
    history [h]: the error that leaves the function, if one does, and the
    actions performed. *)
Definition clickButton_error (env : Env) (h : list Action) (frame : Frame)
    (selector : string) : option string :=
  let wait := WaitForSelector (OnFrame frame) selector 5000 in
  match page env unit h wait with
  | Throws e => Some e
  | Ok _ =>
      match page env unit (h ++ [Did wait]) (Click frame selector) with
      | Ok _ => None
      | Throws _ =>
          match page env unit (h ++ [Did wait; Did (Click frame selector)])
                  (EvaluateClick frame selector) with
          | Ok _ => None
          | Throws e => Some e
          end
      end
  end.

Definition clickButton_trace (env : Env) (h : list Action) (frame : Frame)
    (selector : string) (waitTime : Z) : list Action :=
  let wait := Did (WaitForSelector (OnFrame frame) selector 5000) in
  let click := Did (Click frame selector) in
  let jsClick := Did (EvaluateClick frame selector) in
  match page env unit h (WaitForSelector (OnFrame frame) selector 5000) with
  | Throws _ => [wait]
  | Ok _ =>
      match page env unit (h ++ [wait]) (Click frame selector) with
      | Ok _ => [wait; click; Slept waitTime]
      | Throws _ =>
          match page env unit (h ++ [wait; click]) (EvaluateClick frame selector) with
          | Ok _ => [wait; click; jsClick; Slept waitTime]
          | Throws _ => [wait; click; jsClick]
          end
      end
  end.

(** The actions of a [takeScreenshot] that starts after the history [h]. *)
Definition takeScreenshot_trace (env : Env) (h : list Action) (p : PageRef)
    (name : string) : list Action :=
  match page env bool h ScreenshotsDirExists with
  | Throws _ => [Did ScreenshotsDirExists]
  | Ok true => [Did ScreenshotsDirExists; Did (Screenshot p name)]
  | Ok false =>
      match page env unit (h ++ [Did ScreenshotsDirExists]) MkdirScreenshots with
      | Throws _ => [Did ScreenshotsDirExists; Did MkdirScreenshots]
      | Ok _ => [Did ScreenshotsDirExists; Did MkdirScreenshots; Did (Screenshot p name)]
      end
  end.

(** The history at which step 6 reads the page text, when the click on
    the submit control of the form session [iframe] went through after
    the history [h]: the click, the settle wait of three seconds and the
    screenshot [name]. *)
Definition settled_history (env : Env) (h : list Action) (iframe : Frame)
    (name : string) : list Action :=
  let settled := (h ++ clickButton_trace env h iframe ".xSubmit" 5000 ++ [Slept 3000])%list in
  (settled ++ takeScreenshot_trace env settled ThePage name)%list.

Definition line_submit_failed (e : string) : LogEntry :=
  Line Error ("❌ Submission failed: " ++ e).
Definition line_captcha_unsolved : LogEntry :=
  Line Error "❌ CAPTCHA not solved, cannot submit".

(* ================================================================== *)
(** ** A concrete platform, for running the model *)
(* ================================================================== *)

(** The civil calendar: days since 1970-01-01 of a proleptic Gregorian
    date and back. *)
Definition days_from_civil (y m d : Z) : Z :=
  let y' := if (m <=? 2)%Z then (y - 1)%Z else y in
  let era := (y' / 400)%Z in
  let yoe := (y' - era * 400)%Z in
  let doy := ((153 * (m + (if (2 <? m)%Z then -3 else 9)) + 2) / 5 + d - 1)%Z in
  let doe := (yoe * 365 + yoe / 4 - yoe / 100 + doy)%Z in
  (era * 146097 + doe - 719468)%Z.

Definition civil_from_days (days : Z) : Z * Z * Z :=
  let z := (days + 719468)%Z in
  let era := (z / 146097)%Z in
  let doe := (z - era * 146097)%Z in
  let yoe := ((doe - doe / 1460 + doe / 36524 - doe / 146096) / 365)%Z in
  let doy := (doe - (365 * yoe + yoe / 4 - yoe / 100))%Z in
  let mp := ((5 * doy + 2) / 153)%Z in
  let d := (doy - (153 * mp + 2) / 5 + 1)%Z in
  let m := if (mp <? 10)%Z then (mp + 3)%Z else (mp - 9)%Z in
  let y := (yoe + era * 400 + (if (m <=? 2)%Z then 1 else 0))%Z in
  (y, m, d).

(** The first Sunday on or after a day (1970-01-01 was a Thursday). *)
Definition sunday_on_or_after (days : Z) : Z :=
  (days + (7 - (days + 4) mod 7) mod 7)%Z.

(** The offset of America/New_York from UTC, in seconds, under the rules
    in force since 2007: daylight time from the second Sunday of March,
    07:00 UTC, to the first Sunday of November, 06:00 UTC. *)
Definition newYork_offset (seconds : Z) : Z :=
  let '(y, _, _) := civil_from_days (seconds / 86400) in
  let dst_start := ((sunday_on_or_after (days_from_civil y 3 1) + 7) * 86400 + 7 * 3600)%Z in
  let dst_end := (sunday_on_or_after (days_from_civil y 11 1) * 86400 + 6 * 3600)%Z in
  if (dst_start <=? seconds)%Z && (seconds <? dst_end)%Z then (-4 * 3600)%Z else (-5 * 3600)%Z.

Definition string_of_Z (z : Z) : string :=
  DecimalString.NilZero.string_of_int (Z.to_int z).

(** The en-US rendering of the New York calendar date of an instant,
    month/day/year without padding. *)
Definition newYork_date (date : Instant) : string :=
  let seconds := (date / 1000)%Z in
  let '(y, m, d) := civil_from_days ((seconds + newYork_offset seconds) / 86400) in
  string_of_Z m ++ "/" ++ string_of_Z d ++ "/" ++ string_of_Z y.


(** A stand-in for the runtime's [toLowerCase]: it lowers the ASCII
    letters and nothing else, which is what the runtime does on ASCII
    text. *)
Definition toLowerCase_ascii : string -> string := map_string lower_ascii.

(** Milliseconds since the epoch of a UTC date and time. *)
Definition utc (y m d hh mm : Z) : Instant :=
  (((days_from_civil y m d * 24 + hh) * 60 + mm) * 60000)%Z.

Definition sample_info : PersonalInfo :=
  {| firstName := "Ada"; lastName := "Lovelace"; email := "ada@example.com";
     addressLine1 := "12 Analytical Way"; addressLine2 := ""; city := "Albany";
     state := "NY"; zipCode := "12207"; phone := "5185550100";
     dobMonth := "12"; dobDay := "10"; dobYear := "1985"; gender := "" |}.

Definition sample_config : Config :=
  {| personalInfo := sample_info; captcha_solverApiKey := None;
     browser_headless := true; browser_slowMo := 100;
     paths_screenshots := "/app/screenshots" |}.

(** A scripted Page Driver: every call succeeds with the given answers,
    except the calls for which [fails] gives an error message. *)
Definition scripted (frames : list string) (dataSrc : option string)
    (html text : string) (captcha : bool)
    (fails : forall T : Type, Call T -> option string)
    (T : Type) (history : list Action) (c : Call T) : Outcome T :=
  match fails T c with
  | Some e => Throws e
  | None =>
      match c in Call T return Outcome T with
      | Launch _ _ => Ok tt
      | NewPage => Ok tt
      | SetViewport _ _ => Ok tt
      | Goto _ _ => Ok tt
      | ClickEntryButton => Ok false
      | WaitForSelector _ _ _ => Ok tt
      | Frames => Ok frames
      | DataSrcAttribute => Ok dataSrc
      | Content => Ok html
      | WritePageDump _ => Ok tt
      | TypeInto _ _ _ _ => Ok tt
      | SelectOption _ _ _ => Ok tt
      | Click _ _ => Ok tt
      | EvaluateClick _ _ => Ok tt
      | QuerySelector _ selector => Ok (if selector =? sel_recaptcha then captcha else true)
      | BoundingBox _ _ => Ok true
      | BodyInnerText => Ok text
      | Pages => Ok 2%nat
      | Close => Ok tt
      | ScreenshotsDirExists => Ok true
      | MkdirScreenshots => Ok tt
      | Screenshot _ name => Ok ("/app/screenshots/" ++ name ++ ".png")
      end
  end.

Definition never_fails (T : Type) (c : Call T) : option string := None.

Definition wayin_frame : string := "https://xd.wayin.com/display/container/dc/5e1b".

(** The embedded form loads and the site confirms the entry. *)
Definition happy_page : forall T : Type, list Action -> Call T -> Outcome T :=
  scripted ["https://www.hgtv.com/sweepstakes"; wayin_frame] None ""
           "Thank you for entering! Come back tomorrow." false never_fails.

(** A day of runs, in January 2024: the operator's clock at the rate check
    and at the record, and a disk that accepts the write. *)
Definition env_morning : Env :=
  {| page := happy_page; poll_budget := 60;
     now_check := utc 2024 1 15 14 0; now_record := utc 2024 1 15 14 2;
     write_error := None |}.

Definition env_evening : Env :=
  {| page := happy_page; poll_budget := 60;
     now_check := utc 2024 1 16 3 30; now_record := utc 2024 1 16 3 32;
     write_error := None |}.

(** A ledger whose last HGTV success is from 03:00 UTC on January 15,
    which is 22:00 on January 14 in New York. *)
Definition success_last_night : SubmissionRecord :=
  Submission.mk "hgtv" true None (utc 2024 1 15 3 0).

Definition records_last_night : list SubmissionRecord :=
  [ Submission.mk "hgtv" true None (utc 2024 1 14 14 1);
    Submission.mk "foodnetwork" true None (utc 2024 1 14 14 31);
    success_last_night;
    Submission.mk "hgtv" false (Some "See logs for details") (utc 2024 1 15 13 0) ].

Definition ledger_last_night : File := Holds (Json records_last_night).

(** A full ledger of one hundred failures. *)
Definition old_failure (n : nat) : SubmissionRecord :=
  Submission.mk "hgtv" false (Some "See logs for details") (Z.of_nat n).

Definition ledger_full : File := Holds (Json (map old_failure (seq 0 100))).

(** The check-user control never appears. *)
Definition check_user_timeout : string :=
  "Waiting for selector `#xCheckUser` failed: Waiting failed: 5000ms exceeded".

Definition fails_check_user (T : Type) (c : Call T) : option string :=
  match c with
  | WaitForSelector (OnFrame _) selector _ =>
      if selector =? "#xCheckUser" then Some check_user_timeout else None
  | _ => None
  end.

Definition env_check_user_fails : Env :=
  {| page := scripted ["https://www.hgtv.com/sweepstakes"; wayin_frame] None ""
                      "" false fails_check_user;
     poll_budget := 60;
     now_check := utc 2024 1 15 14 0; now_record := utc 2024 1 15 14 2;
     write_error := None |}.


(** The iframe element never appears, and the markup carries the deferred
    source of the form. *)
Definition fails_iframe_element (T : Type) (c : Call T) : option string :=
  match c with
  | WaitForSelector OnPage _ _ => Some "Waiting failed: 10000ms exceeded"
  | _ => None
  end.

Definition deferred_markup : string :=
  "<div class=" ++ quoted "sweeps" ++ "><iframe id=" ++ quoted "ngxFrame204091"
  ++ " data-src=" ++ quoted "//xd.wayin.com/display/container/dc/5e1b?mode=responsive"
  ++ "></iframe></div>".

Definition env_deferred : Env :=
  {| page := scripted ["https://www.hgtv.com/sweepstakes"] None deferred_markup
                      "Thank you for entering!" false fails_iframe_element;
     poll_budget := 60;
     now_check := utc 2024 1 15 14 0; now_record := utc 2024 1 15 14 2;
     write_error := None |}.

(* ================================================================== *)
(** ** The command line ([index.js]) *)
(* ================================================================== *)

(** A line feed. *)
Definition nl : string := String (ascii_of_nat 10) EmptyString.

(** [s.split(sep)] for a separator of one character: the pieces of [s]
    between the occurrences of [sep], at least one piece. *)
Fixpoint split (sep : ascii) (s : string) : list string :=
  match s with
  | EmptyString => [EmptyString]
  | String c s' =>
      if Ascii.eqb c sep then EmptyString :: split sep s'
      else match split sep s' with
           | piece :: pieces => String c piece :: pieces
           | [] => [String c EmptyString]
           end
  end.

(** [args.includes(flag)]. *)
Definition args_include (args : list string) (flag : string) : bool :=
  existsb (String.eqb flag) args.

(** The object [flags]. *)
Module Flags.
Record t := mk {
  manual : bool;
  dryRun : bool;
  testSchedule : bool;
  site : string
}.
End Flags.

(** The parsing of [process.argv.slice(2)].  For the site, optional
    chaining gives undefined when no argument begins with --site=;
    otherwise the argument is split at every equals sign and the second
    piece is taken; undefined and the empty string give way to both. *)
Definition flags (args : list string) : Flags.t :=
  Flags.mk
    (args_include args "--manual")
    (args_include args "--dry-run")
    (args_include args "--test-schedule")
    (match find (fun arg => startsWith arg "--site=") args with
     | Some arg =>
         match nth_error (split "=" arg) 1 with
         | Some value => if truthy value then value else "both"
         | None => "both"
         end
     | None => "both"
     end).

(* ================================================================== *)
(** ** The configuration module ([src/config.js]) *)
(* ================================================================== *)

(** [config.sweepstakes]: for each site whether it is enabled and its
    cron expression (the URLs are the constants above). *)
Module Sweepstakes.
Record site := mkSite {
  enabled : bool;
  schedule : string
}.
Record t := mk {
  hgtv : site;
  foodNetwork : site
}.
End Sweepstakes.

(** [config.paths]. *)
Module Paths.
Record t := mk {
  root : string;
  logs : string;
  screenshots : string;
  data : string;
  submissions : string
}.
End Paths.

(** The exported object [config]: the part that the entry functions
    read, and the rest. *)
Record Exported := {
  exported_config : Config;
  exported_sweepstakes : Sweepstakes.t;
  exported_logging_level : string;
  exported_paths : Paths.t
}.

(** How the evaluation of the module ends: [process.exit] with what was
    written to the standard error, or the export. *)
Inductive ModuleLoad :=
| ProcessExit (code : Z) (stderr : list string)
| Exports (config : Exported).

(** [process.env], after [dotenv] has filled it. *)
Definition ProcessEnv := string -> option string.

Definition requiredFields : list string :=
  [ "FIRST_NAME"; "LAST_NAME"; "EMAIL"; "ADDRESS_LINE1"; "CITY"; "STATE";
    "ZIP_CODE"; "PHONE"; "DOB_MONTH"; "DOB_DAY"; "DOB_YEAR" ].

(** [process.env[field]] for a field that the validation has found set. *)
Definition set_value (o : option string) : string :=
  match o with Some s => s | None => "" end.

(** [value || fallback] on a string or undefined. *)
Definition or_else (o : option string) (fallback : string) : string :=
  match o with
  | Some s => if truthy s then s else fallback
  | None => fallback
  end.

(** [value || null]. *)
Definition or_null (o : option string) : option string :=
  match o with
  | Some s => if truthy s then Some s else None
  | None => None
  end.

(** [value === text] and [value !== text]. *)
Definition is_text (o : option string) (text : string) : bool :=
  match o with Some s => s =? text | None => false end.

Section ConfigModule.

(** [parseInt] of the runtime, on a string; [None] is NaN. *)
Variable parseInt : string -> option Z.

(** [join(__dirname, '..', ...segments)]. *)
Variable join_root : list string -> string.

(** [parseInt(process.env.NAME)]: undefined parses to NaN. *)
Definition parseInt_env (o : option string) : option Z :=
  match o with Some s => parseInt s | None => None end.

Definition missingFields (env : ProcessEnv) : list string :=
  filter (fun field => negb (truthy_opt (env field))) requiredFields.

(** [age < 21], where [age] is [currentYear - birthYear]: a comparison
    with NaN is false. *)
Definition underage (env : ProcessEnv) (currentYear : Z) : bool :=
  match parseInt_env (env "DOB_YEAR") with
  | Some birthYear => (currentYear - birthYear <? 21)%Z
  | None => false
  end.

(** [parseInt(process.env.SLOW_MO) || 100]: NaN and zero give way. *)
Definition slowMo_of (env : ProcessEnv) : Z :=
  match parseInt_env (env "SLOW_MO") with
  | Some n => if (n =? 0)%Z then 100%Z else n
  | None => 100%Z
  end.

(** The evaluation of the module, given [process.env] and the year that
    [new Date().getFullYear()] reads. *)
Definition load_config (env : ProcessEnv) (currentYear : Z) : ModuleLoad :=
  let missing := missingFields env in
  if (0 <? List.length missing)%nat then
    ProcessExit 1
      ("❌ Missing required environment variables:"
       :: map (fun field => ("   - " ++ field)%string) missing
       ++ [(nl ++ "Please copy .env.example to .env and fill in your information.")%string])%list
  else if underage env currentYear then
    ProcessExit 1 ["❌ You must be at least 21 years old to enter these sweepstakes."]
  else
    Exports
      {| exported_config :=
           {| personalInfo :=
                {| firstName := set_value (env "FIRST_NAME");
                   lastName := set_value (env "LAST_NAME");
                   email := set_value (env "EMAIL");
                   addressLine1 := set_value (env "ADDRESS_LINE1");
                   addressLine2 := or_else (env "ADDRESS_LINE2") "";
                   city := set_value (env "CITY");
                   state := set_value (env "STATE");
                   zipCode := set_value (env "ZIP_CODE");
                   phone := set_value (env "PHONE");
                   dobMonth := set_value (env "DOB_MONTH");
                   dobDay := set_value (env "DOB_DAY");
                   dobYear := set_value (env "DOB_YEAR");
                   gender := or_else (env "GENDER") "" |};
              captcha_solverApiKey := or_null (env "CAPTCHA_SOLVER_API_KEY");
              browser_headless := is_text (env "HEADLESS") "true";
              browser_slowMo := slowMo_of env;
              paths_screenshots := join_root ["screenshots"] |};
         exported_sweepstakes :=
           Sweepstakes.mk
             (Sweepstakes.mkSite (negb (is_text (env "HGTV_ENABLED") "false"))
                                 (or_else (env "HGTV_SCHEDULE") "0 9 * * *"))
             (Sweepstakes.mkSite (negb (is_text (env "FOODNETWORK_ENABLED") "false"))
                                 (or_else (env "FOODNETWORK_SCHEDULE") "30 9 * * *"));
         exported_logging_level := or_else (env "LOG_LEVEL") "info";
         exported_paths :=
           Paths.mk (join_root []) (join_root ["logs"]) (join_root ["screenshots"])
                    (join_root ["data"]) (join_root ["data"; "submissions.json"]) |}.

End ConfigModule.

(* ================================================================== *)
(** ** The scheduler ([src/scheduler.js]) *)
(* ================================================================== *)

(** The two functions of [node-cron] that the scheduler calls:
    [cron.validate(expression)], and whether [cron.schedule] accepts the
    expression or throws. *)
Record Cron := {
  cron_validate : string -> bool;
  cron_schedule_error : string -> option string
}.

(** A task registered with [cron.schedule]: its expression, the timezone
    option, and which entry function its callback awaits, always with
    [dryRun = false]. *)
Inductive Entry := HGTVEntry | FoodNetworkEntry.

Record Job := {
  job_expression : string;
  job_timezone : string;
  job_entry : Entry
}.

(** One of the two [if] statements of [startScheduler]: the log lines,
    the task registered, and the error of [cron.schedule] if it throws. *)
Definition schedule_site (label : string) (entry : Entry) (site : Sweepstakes.site)
    (cron : Cron) : list LogEntry * list Job * option string :=
  if Sweepstakes.enabled site then
    let expression := Sweepstakes.schedule site in
    match cron_schedule_error cron expression with
    | Some e => ([Line Info ("📅 " ++ label ++ " scheduled: " ++ expression)], [], Some e)
    | None =>
        ([Line Info ("📅 " ++ label ++ " scheduled: " ++ expression)],
         [ {| job_expression := expression; job_timezone := "America/New_York";
              job_entry := entry |} ],
         None)
    end
  else ([Line Info ("⏭️  " ++ label ++ " entries disabled")], [], None).

Definition startScheduler (sweepstakes : Sweepstakes.t) (cron : Cron)
    : list LogEntry * list Job * option string :=
  let '(log1, jobs1, thrown1) :=
    schedule_site "HGTV" HGTVEntry (Sweepstakes.hgtv sweepstakes) cron in
  match thrown1 with
  | Some e => (Line Info "🚀 Starting sweepstakes scheduler..." :: log1, jobs1, Some e)
  | None =>
      let '(log2, jobs2, thrown2) :=
        schedule_site "Food Network" FoodNetworkEntry (Sweepstakes.foodNetwork sweepstakes) cron in
      match thrown2 with
      | Some e =>
          (Line Info "🚀 Starting sweepstakes scheduler..." :: log1 ++ log2, jobs1 ++ jobs2,
           Some e)%list
      | None =>
          (Line Info "🚀 Starting sweepstakes scheduler..." :: log1 ++ log2
             ++ [Line Info "✅ Scheduler started successfully!";
                 Line Info "Press Ctrl+C to stop the scheduler"],
           jobs1 ++ jobs2, None)%list
      end
  end.

(** One of the two [if] statements of [testScheduler]. *)
Definition test_site (label : string) (site : Sweepstakes.site) (cron : Cron) : list LogEntry :=
  if Sweepstakes.enabled site then
    [ Line Info ("✅ " ++ label ++ " enabled - Schedule: " ++ Sweepstakes.schedule site);
      if cron_validate cron (Sweepstakes.schedule site)
      then Line Info ("✅ " ++ label ++ " schedule is valid")
      else Line Error ("❌ " ++ label ++ " schedule is INVALID") ]
  else [].

Definition testScheduler (sweepstakes : Sweepstakes.t) (cron : Cron) : list LogEntry :=
  (Line Info "🧪 Testing scheduler configuration..."
   :: test_site "HGTV" (Sweepstakes.hgtv sweepstakes) cron
   ++ test_site "Food Network" (Sweepstakes.foodNetwork sweepstakes) cron
   ++ [ Line Info (nl ++ "📋 Next scheduled runs:")%string;
        Line Info "HGTV: Check your cron schedule";
        Line Info "Food Network: Check your cron schedule";
        Line Info (nl ++ "Scheduler test complete!")%string ])%list.

(** How the process of [index.js] ends: [process.exit(code)], or the
    scheduler stays up with its tasks. *)
Inductive ProcessEnd :=
| Exit (code : Z)
| KeepsRunning (jobs : list Job).

(** What a run of [index.js] leaves: how it ended, the submissions file,
    the log, and the browser actions of the entry functions it awaited. *)
Record MainRun := mkMainRun {
  main_ended : ProcessEnd;
  main_file : File;
  main_logs : list LogEntry;
  main_trace : list Action
}.

(** A concrete process environment, a decimal [parseInt] that agrees with
    the runtime on plain numerals, a path join and a [node-cron] that
    accepts five-field expressions, for running the model. *)
Definition sample_env (name : string) : option string :=
  if name =? "FIRST_NAME" then Some "Ada"
  else if name =? "LAST_NAME" then Some "Lovelace"
  else if name =? "EMAIL" then Some "ada@example.com"
  else if name =? "ADDRESS_LINE1" then Some "12 Analytical Way"
  else if name =? "CITY" then Some "Albany"
  else if name =? "STATE" then Some "NY"
  else if name =? "ZIP_CODE" then Some "12207"
  else if name =? "PHONE" then Some "5185550100"
  else if name =? "DOB_MONTH" then Some "12"
  else if name =? "DOB_DAY" then Some "10"
  else if name =? "DOB_YEAR" then Some "1985"
  else if name =? "FOODNETWORK_ENABLED" then Some "false"
  else if name =? "SLOW_MO" then Some "0"
  else None.

Definition parseInt_decimal (s : string) : option Z :=
  if s =? "" then None
  else option_map Z.of_int (DecimalString.NilZero.int_of_string s).

Definition join_app (segments : list string) : string :=
  fold_left (fun path segment => path ++ "/" ++ segment) segments "/app".

Definition five_fields : Cron :=
  {| cron_validate := fun e => (List.length (split " " e) =? 5)%nat;
     cron_schedule_error := fun e =>
       if (List.length (split " " e) =? 5)%nat then None
       else Some ("Invalid cron expression: " ++ e) |}.

Definition sample_sweepstakes : Sweepstakes.t :=
  Sweepstakes.mk (Sweepstakes.mkSite true "0 9 * * *") (Sweepstakes.mkSite false "30 9 * * *").

(** More platforms: a page on which the form frame never shows, one on
    which it shows at the third look, one that shows a CAPTCHA, and a
    browser that cannot be closed. *)
Definition env_blank : Env :=
  {| page := scripted ["https://www.hgtv.com/sweepstakes"; "about:blank"] None "" "" false
                      never_fails;
     poll_budget := 3;
     now_check := utc 2024 1 15 14 0; now_record := utc 2024 1 15 14 2;
     write_error := None |}.

Definition loads_late (T : Type) (history : list Action) (c : Call T) : Outcome T :=
  match c in Call T return Outcome T with
  | Frames =>
      if (List.length history <? 5)%nat
      then Ok ["https://www.hgtv.com/sweepstakes"; "about:blank"]
      else Ok ["https://www.hgtv.com/sweepstakes"; wayin_frame]
  | c' => happy_page _ history c'
  end.

Definition env_late : Env :=
  {| page := loads_late; poll_budget := 60;
     now_check := utc 2024 1 15 14 0; now_record := utc 2024 1 15 14 2;
     write_error := None |}.

Definition env_captcha : Env :=
  {| page := scripted ["https://www.hgtv.com/sweepstakes"; wayin_frame] None ""
                      "Thank you for entering!" true never_fails;
     poll_budget := 60;
     now_check := utc 2024 1 15 14 0; now_record := utc 2024 1 15 14 2;
     write_error := None |}.

Definition config_with_solver : Config :=
  {| personalInfo := sample_info; captcha_solverApiKey := Some "0123456789abcdef";
     browser_headless := true; browser_slowMo := 100;
     paths_screenshots := "/app/screenshots" |}.

Definition target_closed : string := "Protocol error: Target closed".

Definition fails_close (T : Type) (c : Call T) : option string :=
  match c with
  | Close => Some target_closed
  | _ => None
  end.

Definition env_close_fails : Env :=
  {| page := scripted ["https://www.hgtv.com/sweepstakes"; wayin_frame] None ""
                      "Thank you for entering!" false fails_close;
     poll_budget := 60;
     now_check := utc 2024 1 15 14 0; now_record := utc 2024 1 15 14 2;
     write_error := None |}.

(** A ledger with a success of this morning, and a full ledger that
    begins with it and goes on with ninety-nine failures of the other
    site. *)
Definition success_this_morning : SubmissionRecord :=
  Submission.mk "hgtv" true None (utc 2024 1 15 13 0).

Definition ledger_this_morning : File := Holds (Json [success_this_morning]).

Definition later_failure (n : nat) : SubmissionRecord :=
  Submission.mk "foodnetwork" false (Some "See logs for details")
                (utc 2024 1 15 13 1 + Z.of_nat n)%Z.

Definition ledger_crowded : File :=
  Holds (Json (success_this_morning :: map later_failure (seq 0 99))).



(* ================================================================== *)
(** ** [src/utils.js] *)
(* ================================================================== *)

Section Pipeline.

(** [config], fixed when the module is loaded. *)
Variable config : Config.

(** [new Date(date).toLocaleString('en-US', { timeZone:
    'America/New_York', year: 'numeric', month: 'numeric', day:
    'numeric' })]: the calendar date of an instant in the reference
    timezone, as the runtime's timezone database renders it. *)
Variable toLocaleString_NewYork : Instant -> string.

(** [String.prototype.toLowerCase] of the runtime, which follows the
    Unicode case mappings: it lowers the Kelvin sign to the letter k, for
    one, so it is not a map over the ASCII letters. *)
Variable toLowerCase : string -> string.

Definition getETDate (date : Instant) : string := toLocaleString_NewYork date.

(** The [while] loop of [waitForIframe]; [budget] counts the iterations
    that the deadline still allows. *)
Fixpoint poll_frames (budget : nat) : M (option string) :=
  match budget with
  | O => ret None
  | S budget' =>
      frames <- call Frames ;;
      match find (fun url => includes url "xd.wayin.com" || includes url "wayin.com") frames with
      | Some url => log Info ("Iframe loaded with URL: " ++ url) ;; ret (Some url)
      | None => sleep 500 ;; poll_frames budget'
      end
  end.

(** [frames.forEach((frame, idx) => logger.error(...))]. *)
Fixpoint log_frames (idx : nat) (frames : list string) : M unit :=
  match frames with
  | [] => ret tt
  | url :: rest =>
      log Error ("  Frame " ++ string_of_nat idx ++ ": " ++ url) ;;
      log_frames (S idx) rest
  end.

Definition waitForIframe : M Frame :=
  log Info "Waiting for Wayin iframe to load..." ;;
  try_catch
    (call (WaitForSelector OnPage sel_ngxFrame 10000) ;;
     log Info "Found ngxFrame iframe element" ;;
     log Info "Waiting for iframe content to load..." ;;
     iframe <- (fun env => poll_frames (poll_budget env) env) ;;
     match iframe with
     | None =>
         frames <- call Frames ;;
         log Error ("Timeout waiting for Wayin iframe. Found "
                    ++ string_of_nat (List.length frames) ++ " frames:") ;;
         log_frames 0 frames ;;
         throw "Wayin iframe content did not load"
     | Some url =>
         log Info "Iframe loaded successfully" ;;
         ret (EmbeddedFrame url)
     end)
    (fun error =>
       log Error ("Failed to load iframe: " ++ error) ;;
       throw error).

Definition fillFormField (frame : Frame) (selector value : string) (isSelect : bool) : M unit :=
  try_catch
    (let finalSelector := if startsWith selector "#" then selector else "#" ++ selector in
     call (WaitForSelector (OnFrame frame) finalSelector 5000) ;;
     (if isSelect then
        call (SelectOption frame finalSelector value) ;;
        log Info ("Selected " ++ quoted value ++ " in " ++ selector)
      else
        call (TypeInto frame finalSelector value 50) ;;
        log Info ("Filled " ++ selector ++ " with value")) ;;
     sleep 300)
    (fun error => log Warn ("Could not fill " ++ selector ++ ": " ++ error)).

Definition handleCaptcha (frame : Frame) : M bool :=
  log Info "Checking for CAPTCHA..." ;;
  try_catch
    (captchaExists <- call (QuerySelector frame sel_recaptcha) ;;
     if negb captchaExists then
       log Info "No CAPTCHA detected" ;;
       ret true
     else if truthy_opt (captcha_solverApiKey config) then
       log Info "CAPTCHA detected - using solver API (not implemented yet)" ;;
       ret false
     else
       log Warn "⚠️  CAPTCHA detected - Please solve manually" ;;
       log Warn "⚠️  Waiting 60 seconds for manual CAPTCHA solving..." ;;
       sleep 60000 ;;
       log Info "Continuing after CAPTCHA wait period" ;;
       ret true)
    (fun error =>
       log Error ("CAPTCHA handling error: " ++ error) ;;
       ret false).

Definition takeScreenshot (p : PageRef) (name : string) : M unit :=
  try_catch
    (dirExists <- call ScreenshotsDirExists ;;
     (if negb dirExists then call MkdirScreenshots else ret tt) ;;
     filename <- call (Screenshot p name) ;;
     log Info ("Screenshot saved: " ++ filename))
    (fun error => log Warn ("Failed to take screenshot: " ++ error)).

Definition checkRateLimit (site : string) : M bool :=
  try_catch
    (fileExists <- existsSync_submissions ;;
     if negb fileExists then ret true
     else
       data <- readFileSync_submissions ;;
       submissions <- JSON_parse data ;;
       let lastSubmission :=
         nth_error
           (sort byNewest
              (filter (fun s => (Submission.site s =? site) && Submission.success s)
                      submissions)) 0 in
       match lastSubmission with
       | None => ret true
       | Some lastSubmission =>
           let lastDate := getETDate (Submission.timestamp lastSubmission) in
           now <- new_Date_in_check ;;
           let todayDate := getETDate now in
           if lastDate =? todayDate then
             log Warn ("Rate limit: Already entered " ++ site ++ " today ("
                       ++ todayDate ++ " ET)") ;;
             ret false
           else ret true
       end)
    (fun error =>
       log Error ("Error checking rate limit: " ++ error) ;;
       ret true).

Definition saveSubmissionRecord (site : string) (success : bool) (error : option string) : M unit :=
  try_catch
    (fileExists <- existsSync_submissions ;;
     submissions <- (if fileExists then
                       data <- readFileSync_submissions ;;
                       JSON_parse data
                     else ret []) ;;
     now <- new_Date_in_record ;;
     let submissions := (submissions ++ [Submission.mk site success error now])%list in
     let submissions :=
       if (100 <? List.length submissions)%nat
       then slice_last 100 submissions
       else submissions in
     writeFileSync_submissions (JSON_stringify submissions) ;;
     log Info ("Submission record saved for " ++ site))
    (fun error => log Error ("Failed to save submission record: " ++ error)).

Definition clickButton (frame : Frame) (selector : string) (waitTime : Z) : M unit :=
  try_catch
    (call (WaitForSelector (OnFrame frame) selector 5000) ;;
     try_catch
       (call (Click frame selector) ;;
        log Info ("Clicked button: " ++ selector))
       (fun clickError =>
          log Warn ("Standard click failed for " ++ selector ++ ", trying JS click...") ;;
          call (EvaluateClick frame selector) ;;
          log Info ("JS Clicked button: " ++ selector)) ;;
     sleep waitTime)
    (fun error =>
       log Warn ("Could not click " ++ selector ++ ": " ++ error) ;;
       throw error).


(* ================================================================== *)
(** ** The entry functions *)
(* ================================================================== *)

(** The first [try] of both entry functions: the click on an Enter, Start
    Entry or Agree button, decided inside the browser. *)
Definition initialInteraction : M unit :=
  try_catch
    (buttonClicked <- call ClickEntryButton ;;
     if buttonClicked then
       log Info "Clicked entry/agree button" ;;
       sleep 2000
     else ret tt)
    (fun e => log Info "No initial interaction button found or needed").

(** The test on the confirmation text in step 6 of both functions. *)
Definition has_success_keyword (confirmationText : string) : bool :=
  includes (toLowerCase confirmationText) "thank"
  || includes (toLowerCase confirmationText) "entered"
  || includes (toLowerCase confirmationText) "success".

(** The first statement of both [finally] blocks: [if (browser)], close
    it. *)
Definition closeBrowser : M unit :=
  browser <- get_browser ;;
  if browser then
    call Close ;;
    log Info "Browser closed"
  else ret tt.

(** The [else] branch of the fallback, when no URL was found.  The HGTV
    function first saves the page markup for debugging. *)
Definition hgtv_no_url : M Frame :=
  html <- call Content ;;
  call (WritePageDump html) ;;
  log Info ("Saved page content to " ++ paths_screenshots config ++ "/page_dump.html") ;;
  throw "Could not find Wayin URL (data-src) for direct navigation".

Definition foodnetwork_no_url : M Frame :=
  throw "Could not find Wayin URL (data-src) for direct navigation".

(* ------------------------------------------------------------------ *)
(** *** [submitHGTVEntry]: the blocks of the [try] statement, in order *)
(* ------------------------------------------------------------------ *)

(** Launch the browser, open the page and load the entry page. *)
Definition hgtv_navigate : M unit :=
  log Info "Launching browser..." ;;
  log Info "Browser launch options configured" ;;
  call (Launch (browser_headless config) None) ;;
  set_browser true ;;
  log Info "Browser launched successfully" ;;
  call NewPage ;;
  log Info "New page created" ;;
  call (SetViewport 1280 800) ;;
  log_sweepstakes "hgtv" ("Navigating to " ++ hgtv_url) ;;
  call (Goto hgtv_url (Some 60000%Z)) ;;
  log Info "Page loaded successfully" ;;
  takeScreenshot ThePage "hgtv-01-landing".

(** Find the form: [waitForIframe], and in its [catch] the direct
    navigation to the form's own URL. *)
Definition hgtv_locate : M Frame :=
  try_catch waitForIframe
    (fun error =>
       log Warn "Standard iframe loading failed, attempting direct navigation fallback..." ;;
       wayinUrl <- call DataSrcAttribute ;;
       wayinUrl <- (if negb (truthy_opt wayinUrl) then
                      html <- call Content ;;
                      match match_data_src html with
                      | Some group1 => ret (Some group1)
                      | None => ret wayinUrl
                      end
                    else ret wayinUrl) ;;
       match wayinUrl with
       | Some wayinUrl =>
           if truthy wayinUrl then
             let wayinUrl :=
               if startsWith wayinUrl "//" then "https:" ++ wayinUrl else wayinUrl in
             log Info ("Found direct Wayin URL: " ++ wayinUrl) ;;
             log Info "Navigating directly to sweepstakes form..." ;;
             call (Goto wayinUrl None) ;;
             ret MainFrame
           else hgtv_no_url
       | None => hgtv_no_url
       end).

(** Steps 1 to 4: email, registration, next, trivia, address. *)
Definition hgtv_fill (iframe : Frame) : M unit :=
  let info := personalInfo config in
  log_sweepstakes "hgtv" "Entering email address..." ;;
  fillFormField iframe "xReturningUserEmail" (email info) false ;;
  clickButton iframe "#xCheckUser" 3000 ;;
  takeScreenshot ThePage "hgtv-02-after-email" ;;
  log_sweepstakes "hgtv" "Filling registration form..." ;;
  try_catch
    (call (WaitForSelector (OnFrame iframe) "#name_Firstname" 3000) ;;
     fillFormField iframe "name_Firstname" (firstName info) false ;;
     fillFormField iframe "name_Lastname" (lastName info) false ;;
     log Info "New user registration detected")
    (fun error => log Info "Returning user detected, skipping name entry") ;;
  try_catch
    (nextButton <- call (QuerySelector iframe ".xActionNext") ;;
     if nextButton then
       isVisible <- call (BoundingBox iframe ".xActionNext") ;;
       if isVisible then
         clickButton iframe ".xActionNext" 2000 ;;
         takeScreenshot ThePage "hgtv-03-after-registration"
       else ret tt
     else log Info "No Next button found, checking for Submit button directly")
    (fun error => log Info "Skipping Next button step") ;;
  log_sweepstakes "hgtv" "Handling trivia question..." ;;
  try_catch
    (call (WaitForSelector (OnFrame iframe) ".xActionNext" 3000) ;;
     clickButton iframe ".xActionNext" 2000 ;;
     log Info "Skipped trivia question")
    (fun error => log Info "No trivia question found") ;;
  takeScreenshot ThePage "hgtv-04-after-trivia" ;;
  log_sweepstakes "hgtv" "Filling address and contact information..." ;;
  try_catch
    (call (WaitForSelector (OnFrame iframe) "#address_AddressLine1" 5000) ;;
     fillFormField iframe "address_AddressLine1" (addressLine1 info) false ;;
     (if truthy (addressLine2 info)
      then fillFormField iframe "address_AddressLine2" (addressLine2 info) false
      else ret tt) ;;
     fillFormField iframe "address_City" (city info) false ;;
     fillFormField iframe "address_State" (state info) true ;;
     fillFormField iframe "address_ZipCode" (zipCode info) false ;;
     fillFormField iframe "phone_Phone" (phone info) false ;;
     fillFormField iframe "dob_Month" (dobMonth info) true ;;
     fillFormField iframe "dob_Day" (dobDay info) true ;;
     fillFormField iframe "dob_Year" (dobYear info) true ;;
     (if truthy (gender info)
      then fillFormField iframe "gender" (gender info) true
      else ret tt) ;;
     log_success "Address and contact information filled")
    (fun error => log Warn "Address fields not required for this sweepstakes") ;;
  takeScreenshot ThePage "hgtv-05-before-submit".

(** Step 5: the CAPTCHA, and the [return false] that leaves the function
    when it is not solved outside a dry run. *)
Definition hgtv_challenge (dryRun : bool) (iframe : Frame) : M unit :=
  captchaSolved <- handleCaptcha iframe ;;
  if negb captchaSolved && negb dryRun then
    log_failure "CAPTCHA not solved, cannot submit" ;;
    takeScreenshot ThePage "hgtv-06-captcha-failed" ;;
    return_ false
  else ret tt.

(** The click on the submit control, the settle wait and the reading of
    the page text: the statements of the inner [try] up to the test. *)
Definition hgtv_click_and_read (iframe : Frame) : M string :=
  clickButton iframe ".xSubmit" 5000 ;;
  sleep 3000 ;;
  takeScreenshot ThePage "hgtv-07-submitted" ;;
  call BodyInnerText.

(** Step 6: the submit click and the reading of the confirmation. *)
Definition hgtv_submit (dryRun : bool) (iframe : Frame) : M unit :=
  if dryRun then
    log Warn "🧪 DRY RUN MODE - Not submitting entry" ;;
    takeScreenshot ThePage "hgtv-06-dry-run-complete" ;;
    set_success true
  else
    log_sweepstakes "hgtv" "Submitting entry..." ;;
    try_catch
      (confirmationText <- hgtv_click_and_read iframe ;;
       if has_success_keyword confirmationText
       then
         log_success "Entry submitted successfully!" ;;
         set_success true
       else
         log Warn "Submission status unclear, check screenshot" ;;
         set_success true)
      (fun error =>
         log_failure ("Submission failed: " ++ error) ;;
         takeScreenshot ThePage "hgtv-07-submit-error").

(** The [try] block from the launch to the last form step. *)
Definition hgtv_through_fill : M Frame :=
  hgtv_navigate ;;
  initialInteraction ;;
  iframe <- hgtv_locate ;;
  hgtv_fill iframe ;;
  ret iframe.

(** The whole [try] block. *)
Definition hgtv_try (dryRun : bool) : M unit :=
  iframe <- hgtv_through_fill ;;
  hgtv_challenge dryRun iframe ;;
  hgtv_submit dryRun iframe.

(** The [catch] block of the function. *)
Definition hgtv_catch (error : string) : M unit :=
  log_failure ("HGTV entry failed: " ++ error) ;;
  log_stack Error error ;;
  browser <- get_browser ;;
  if browser then
    pages <- call Pages ;;
    if (0 <? pages)%nat then takeScreenshot FirstOpenPage "hgtv-error" else ret tt
  else ret tt.

(** The [finally] block: release the browser, then record the outcome. *)
Definition hgtv_finally (dryRun : bool) : M unit :=
  closeBrowser ;;
  if negb dryRun then
    success <- get_success ;;
    saveSubmissionRecord "hgtv" success
      (if success then None else Some "See logs for details")
  else ret tt.

(** The statements before the [try]: the rate check, which a dry run
    skips and which leaves the function with [false] when it denies the
    run, and the declarations of the two locals. *)
Definition hgtv_prologue (dryRun : bool) : M unit :=
  let site := "hgtv" in
  log_sweepstakes site "Starting entry process..." ;;
  denied <- (if negb dryRun then
               allowed <- checkRateLimit site ;;
               ret (negb allowed)
             else ret false) ;;
  if denied then return_ false
  else
    set_browser false ;;
    set_success false.

Definition submitHGTVEntry (dryRun : bool) : M bool :=
  hgtv_prologue dryRun ;;
  try_finally (try_catch (hgtv_try dryRun) hgtv_catch) (hgtv_finally dryRun) ;;
  success <- get_success ;;
  return_ success.

(* ------------------------------------------------------------------ *)
(** *** [submitFoodNetworkEntry]: the blocks of the [try] statement, in order *)
(* ------------------------------------------------------------------ *)

(** Launch the browser, open the page and load the entry page. *)
Definition foodnetwork_navigate : M unit :=
  log Info "Launching browser..." ;;
  log Info "Browser launch options configured" ;;
  call (Launch (browser_headless config) (Some (browser_slowMo config))) ;;
  set_browser true ;;
  call NewPage ;;
  log_sweepstakes "foodnetwork" ("Navigating to " ++ foodNetwork_url) ;;
  call (Goto foodNetwork_url None) ;;
  takeScreenshot ThePage "foodnetwork-01-landing" ;;
  log Info "Looking for active sweepstakes...".

(** Find the form: [waitForIframe], and in its [catch] the direct
    navigation to the form's own URL. *)
Definition foodnetwork_locate : M Frame :=
  try_catch waitForIframe
    (fun error =>
       log Warn "Standard iframe loading failed, attempting direct navigation fallback..." ;;
       wayinUrl <- call DataSrcAttribute ;;
       wayinUrl <- (if negb (truthy_opt wayinUrl) then
                      html <- call Content ;;
                      match match_data_src html with
                      | Some group1 => ret (Some group1)
                      | None => ret wayinUrl
                      end
                    else ret wayinUrl) ;;
       match wayinUrl with
       | Some wayinUrl =>
           if truthy wayinUrl then
             let wayinUrl :=
               if startsWith wayinUrl "//" then "https:" ++ wayinUrl else wayinUrl in
             log Info ("Found direct Wayin URL: " ++ wayinUrl) ;;
             log Info "Navigating directly to sweepstakes form..." ;;
             call (Goto wayinUrl None) ;;
             ret MainFrame
           else foodnetwork_no_url
       | None => foodnetwork_no_url
       end).

(** Steps 1 to 4: email, registration, next, trivia, address. *)
Definition foodnetwork_fill (iframe : Frame) : M unit :=
  let info := personalInfo config in
  log_sweepstakes "foodnetwork" "Entering email address..." ;;
  fillFormField iframe "xReturningUserEmail" (email info) false ;;
  clickButton iframe "#xCheckUser" 3000 ;;
  takeScreenshot ThePage "foodnetwork-02-after-email" ;;
  log_sweepstakes "foodnetwork" "Filling registration form..." ;;
  try_catch
    (call (WaitForSelector (OnFrame iframe) "#name_Firstname" 3000) ;;
     fillFormField iframe "name_Firstname" (firstName info) false ;;
     fillFormField iframe "name_Lastname" (lastName info) false ;;
     log Info "New user registration detected")
    (fun error => log Info "Returning user detected, skipping name entry") ;;
  try_catch
    (nextButton <- call (QuerySelector iframe ".xActionNext") ;;
     if nextButton then
       isVisible <- call (BoundingBox iframe ".xActionNext") ;;
       if isVisible then
         clickButton iframe ".xActionNext" 2000 ;;
         takeScreenshot ThePage "foodnetwork-03-after-registration"
       else ret tt
     else log Info "No Next button found, checking for Submit button directly")
    (fun error => log Info "Skipping Next button step") ;;
  log_sweepstakes "foodnetwork" "Handling trivia question..." ;;
  try_catch
    (nextButton <- call (QuerySelector iframe ".xActionNext") ;;
     visible <- (if nextButton then call (BoundingBox iframe ".xActionNext") else ret false) ;;
     if visible then
       clickButton iframe ".xActionNext" 2000 ;;
       log Info "Skipped trivia question"
     else ret tt)
    (fun error => log Info "No trivia question found") ;;
  takeScreenshot ThePage "foodnetwork-04-after-trivia" ;;
  log_sweepstakes "foodnetwork" "Checking for address fields..." ;;
  try_catch
    (call (WaitForSelector (OnFrame iframe) "#address_AddressLine1" 5000) ;;
     fillFormField iframe "address_AddressLine1" (addressLine1 info) false ;;
     (if truthy (addressLine2 info)
      then fillFormField iframe "address_AddressLine2" (addressLine2 info) false
      else ret tt) ;;
     fillFormField iframe "address_City" (city info) false ;;
     fillFormField iframe "address_State" (state info) true ;;
     fillFormField iframe "address_ZipCode" (zipCode info) false ;;
     fillFormField iframe "phone_Phone" (phone info) false ;;
     fillFormField iframe "dob_Month" (dobMonth info) true ;;
     fillFormField iframe "dob_Day" (dobDay info) true ;;
     fillFormField iframe "dob_Year" (dobYear info) true ;;
     (if truthy (gender info)
      then fillFormField iframe "gender" (gender info) true
      else ret tt) ;;
     log_success "Address and contact information filled")
    (fun error => log Warn "Address fields not required for this sweepstakes") ;;
  takeScreenshot ThePage "foodnetwork-05-before-submit".

(** Step 5: the CAPTCHA, and the [return false] that leaves the function
    when it is not solved outside a dry run. *)
Definition foodnetwork_challenge (dryRun : bool) (iframe : Frame) : M unit :=
  captchaSolved <- handleCaptcha iframe ;;
  if negb captchaSolved && negb dryRun then
    log_failure "CAPTCHA not solved, cannot submit" ;;
    takeScreenshot ThePage "foodnetwork-06-captcha-failed" ;;
    return_ false
  else ret tt.

(** The click on the submit control, the settle wait and the reading of
    the page text: the statements of the inner [try] up to the test. *)
Definition foodnetwork_click_and_read (iframe : Frame) : M string :=
  clickButton iframe ".xSubmit" 5000 ;;
  sleep 3000 ;;
  takeScreenshot ThePage "foodnetwork-07-submitted" ;;
  call BodyInnerText.

(** Step 6: the submit click and the reading of the confirmation. *)
Definition foodnetwork_submit (dryRun : bool) (iframe : Frame) : M unit :=
  if dryRun then
    log Warn "ðŸ§ª DRY RUN MODE - Not submitting entry" ;;
    takeScreenshot ThePage "foodnetwork-06-dry-run-complete" ;;
    set_success true
  else
    log_sweepstakes "foodnetwork" "Submitting entry..." ;;
    try_catch
      (confirmationText <- foodnetwork_click_and_read iframe ;;
       if has_success_keyword confirmationText
       then
         log_success "Entry submitted successfully!" ;;
         set_success true
       else
         log Warn "Submission status unclear, check screenshot" ;;
         set_success true)
      (fun error =>
         log_failure ("Submission failed: " ++ error) ;;
         takeScreenshot ThePage "foodnetwork-07-submit-error").

(** The [try] block from the launch to the last form step. *)
Definition foodnetwork_through_fill : M Frame :=
  foodnetwork_navigate ;;
  initialInteraction ;;
  iframe <- foodnetwork_locate ;;
  foodnetwork_fill iframe ;;
  ret iframe.

(** The whole [try] block. *)
Definition foodnetwork_try (dryRun : bool) : M unit :=
  iframe <- foodnetwork_through_fill ;;
  foodnetwork_challenge dryRun iframe ;;
  foodnetwork_submit dryRun iframe.

(** The [catch] block of the function. *)
Definition foodnetwork_catch (error : string) : M unit :=
  log_failure ("Food Network entry failed: " ++ error) ;;
  log_stack Error error ;;
  browser <- get_browser ;;
  if browser then
    pages <- call Pages ;;
    if (0 <? pages)%nat then takeScreenshot FirstOpenPage "foodnetwork-error" else ret tt
  else ret tt.

(** The [finally] block: release the browser, then record the outcome. *)
Definition foodnetwork_finally (dryRun : bool) : M unit :=
  closeBrowser ;;
  if negb dryRun then
    success <- get_success ;;
    saveSubmissionRecord "foodnetwork" success
      (if success then None else Some "See logs for details")
  else ret tt.

(** The statements before the [try]: the rate check, which a dry run
    skips and which leaves the function with [false] when it denies the
    run, and the declarations of the two locals. *)
Definition foodnetwork_prologue (dryRun : bool) : M unit :=
  let site := "foodnetwork" in
  log_sweepstakes site "Starting entry process..." ;;
  denied <- (if negb dryRun then
               allowed <- checkRateLimit site ;;
               ret (negb allowed)
             else ret false) ;;
  if denied then return_ false
  else
    set_browser false ;;
    set_success false.

Definition submitFoodNetworkEntry (dryRun : bool) : M bool :=
  foodnetwork_prologue dryRun ;;
  try_finally (try_catch (foodnetwork_try dryRun) foodnetwork_catch) (foodnetwork_finally dryRun) ;;
  success <- get_success ;;
  return_ success.


(* ------------------------------------------------------------------ *)
(** *** The common shape of the two entry functions *)
(* ------------------------------------------------------------------ *)

(** The two functions differ in the site name and in the blocks of the
    [try] statement; the statements around it are the same. *)
Definition entry_prologue (site : string) (dryRun : bool) : M unit :=
  log_sweepstakes site "Starting entry process..." ;;
  denied <- (if negb dryRun then
               allowed <- checkRateLimit site ;;
               ret (negb allowed)
             else ret false) ;;
  if denied then return_ false
  else
    set_browser false ;;
    set_success false.

Definition entry_finally (site : string) (dryRun : bool) : M unit :=
  closeBrowser ;;
  if negb dryRun then
    success <- get_success ;;
    saveSubmissionRecord site success
      (if success then None else Some "See logs for details")
  else ret tt.

Definition entry_after_prologue (site : string) (attempt : M unit) (dryRun : bool) : M bool :=
  try_finally attempt (entry_finally site dryRun) ;;
  success <- get_success ;;
  return_ success.

Definition entry_function (site : string) (attempt : M unit) (dryRun : bool) : M bool :=
  entry_prologue site dryRun ;;
  entry_after_prologue site attempt dryRun.

(** The store in which the [try] statement starts: after the first log
    line and, outside a dry run, after the rate check. *)
Definition entered (site : string) (s : Store) : Store :=
  with_success false (with_browser false s).

Definition announced (site : string) (f : File) : Store :=
  with_log (Line Info ("[" ++ toUpperCase site ++ "] Starting entry process..."))
           (initial_store f).

(* ------------------------------------------------------------------ *)
(** *** Ledgers that the entry functions have kept *)
(* ------------------------------------------------------------------ *)



(** [kept_ledger f t]: the submissions file [f] is what runs of the two
    entry functions, dry or not, one after the other, have made of a
    missing file by the instant [t], under a clock that never goes back. *)
Inductive kept_ledger : File -> Instant -> Prop :=
| kept_fresh t : kept_ledger Absent t
| kept_after_hgtv f t dryRun env r s :
    kept_ledger f t ->
    (t <= now_check env <= now_record env)%Z ->
    run (submitHGTVEntry dryRun) env f = (r, s) ->
    kept_ledger (file s) (now_record env)
| kept_after_foodnetwork f t dryRun env r s :
    kept_ledger f t ->
    (t <= now_check env <= now_record env)%Z ->
    run (submitFoodNetworkEntry dryRun) env f = (r, s) ->
    kept_ledger (file s) (now_record env).



(* ================================================================== *)
(** ** The main entry point ([index.js]) *)
(* ================================================================== *)

(** What the callback of a scheduled task does when the task fires: one
    log line, then the entry function with [dryRun = false]. *)
Definition fire (job : Job) (env : Env) (f : File) : LogEntry * (Settled * Store) :=
  match job_entry job with
  | HGTVEntry =>
      (Line Info "⏰ HGTV scheduled entry triggered", run (submitHGTVEntry false) env f)
  | FoodNetworkEntry =>
      (Line Info "⏰ Food Network scheduled entry triggered",
       run (submitFoodNetworkEntry false) env f)
  end.

Definition banner : list LogEntry :=
  [ Line Info "🎯 HGTV/Food Network Sweepstakes Automation";
    Line Info ("==========================================" ++ nl) ].

(** [logger.error('Fatal error:', error)] in the handler of
    [main().catch]: the message, and the error that travels with it. *)
Definition fatal (error : string) : list LogEntry :=
  [ Line Error "Fatal error:"; Stack Error error ].

(** One of the two blocks of the manual mode: the announcement, the
    awaited entry function, which starts from the submissions file as it
    is then, and the verdict.  The first component is the error of the
    entry function when it rejects. *)
Definition manual_entry (label : string) (entry : M bool) (env : Env)
    (f : File) (logged : list LogEntry) (done : list Action)
    : option string * File * list LogEntry * list Action :=
  let (settled, s) := run entry env f in
  let logged := (logged ++ Line Info ("Running " ++ label ++ " entry..." ++ nl)%string :: logs s)%list in
  match settled with
  | Resolved true =>
      (None, file s,
       (logged ++ [Line Info ("✅ " ++ label ++ " entry completed!" ++ nl)%string])%list,
       (done ++ trace s)%list)
  | Resolved false =>
      (None, file s,
       (logged ++ [Line Error ("❌ " ++ label ++ " entry failed!" ++ nl)%string])%list,
       (done ++ trace s)%list)
  | Rejected e => (Some e, file s, logged, (done ++ trace s)%list)
  end.

(** [main()] and the handler of its rejection.  Each awaited entry
    function meets its own environment.  The SIGINT handler that the
    scheduled mode installs runs only when the signal comes, which is
    after [main] has returned: it is not part of a run of [main]. *)
Definition main (args : list string) (sweepstakes : Sweepstakes.t) (cron : Cron)
    (env_hgtv env_foodnetwork : Env) (f : File) : MainRun :=
  if Flags.testSchedule (flags args) then
    mkMainRun (Exit 0) f (banner ++ testScheduler sweepstakes cron) []
  else if Flags.manual (flags args) || Flags.dryRun (flags args) then
    let isDryRun := Flags.dryRun (flags args) in
    let site := Flags.site (flags args) in
    let logged :=
      (banner ++
       if isDryRun
       then [Line Warn
               ("🧪 Running in DRY RUN mode - entries will NOT be submitted" ++ nl)%string]
       else [])%list in
    let '(rejected, f1, logged, done) :=
      if (site =? "hgtv") || (site =? "both")
      then manual_entry "HGTV" (submitHGTVEntry isDryRun) env_hgtv f logged []
      else (None, f, logged, []) in
    match rejected with
    | Some e => mkMainRun (Exit 1) f1 (logged ++ fatal e) done
    | None =>
        let '(rejected, f2, logged, done) :=
          if (site =? "foodnetwork") || (site =? "both")
          then manual_entry "Food Network" (submitFoodNetworkEntry isDryRun) env_foodnetwork
                 f1 logged done
          else (None, f1, logged, done) in
        match rejected with
        | Some e => mkMainRun (Exit 1) f2 (logged ++ fatal e) done
        | None => mkMainRun (Exit 0) f2 (logged ++ [Line Info "Manual run complete!"]) done
        end
    end
  else
    let '(logged, jobs, thrown) := startScheduler sweepstakes cron in
    let logged :=
      (banner ++ Line Info ("Starting in SCHEDULED mode..." ++ nl)%string :: logged)%list in
    match thrown with
    | Some e => mkMainRun (Exit 1) f (logged ++ fatal e) []
    | None => mkMainRun (KeepsRunning jobs) f logged []
    end.

(* ================================================================== *)
(** ** Reasoning about browser code *)
(* ================================================================== *)

Lemma browser_code_frame ok sets A (m : M A) :
  browser_code ok sets A m ->
  forall env s,
    file (snd (m env s)) = file s /\ disk (snd (m env s)) = disk s /\
    (sets = false -> var_success (snd (m env s)) = var_success s) /\
    exists new, trace (snd (m env s)) = (trace s ++ new)%list /\ forallb ok new = true.
Proof.
  induction 1; intros env s; cbn.
  1-3: repeat split; exists []; rewrite app_nil_r; auto.
  - (* bind *)
    unfold bind. specialize (IHbrowser_code env s).
    destruct (m env s) as [[a|b|e] s1]; cbn in *; auto.
    specialize (H1 a env s1). destruct (k a env s1) as [c2 s2]; cbn in *.
    destruct IHbrowser_code as (F1 & D1 & S1 & n1 & T1 & O1).
    destruct H1 as (F2 & D2 & S2 & n2 & T2 & O2).
    repeat split; try congruence.
    + intros E. rewrite S2, S1; auto.
    + exists (n1 ++ n2)%list. rewrite T2, T1, app_assoc, forallb_app, O1, O2. auto.
  - (* try_catch *)
    unfold try_catch. specialize (IHbrowser_code env s).
    destruct (m env s) as [[a|b|e] s1]; cbn in *; auto.
    specialize (H1 e env s1). destruct (h e env s1) as [c2 s2]; cbn in *.
    destruct IHbrowser_code as (F1 & D1 & S1 & n1 & T1 & O1).
    destruct H1 as (F2 & D2 & S2 & n2 & T2 & O2).
    repeat split; try congruence.
    + intros E. rewrite S2, S1; auto.
    + exists (n1 ++ n2)%list. rewrite T2, T1, app_assoc, forallb_app, O1, O2. auto.
  - (* try_finally *)
    unfold try_finally. specialize (IHbrowser_code1 env s).
    destruct (m env s) as [c1 s1]; cbn in *.
    specialize (IHbrowser_code2 env s1).
    destruct IHbrowser_code1 as (F1 & D1 & S1 & n1 & T1 & O1).
    destruct IHbrowser_code2 as (F2 & D2 & S2 & n2 & T2 & O2).
    assert (G : file (snd (f env s1)) = file s /\ disk (snd (f env s1)) = disk s /\
                (sets = false -> var_success (snd (f env s1)) = var_success s) /\
                exists new, trace (snd (f env s1)) = (trace s ++ new)%list /\ forallb ok new = true).
    { repeat split; try congruence.
      - intros E. rewrite S2, S1; auto.
      - exists (n1 ++ n2)%list. rewrite T2, T1, app_assoc, forallb_app, O1, O2. auto. }
    destruct (f env s1) as [[u|b|e] s2]; exact G.
  - (* call *)
    unfold call. destruct (page env T (trace s) c); cbn;
      (repeat split; exists [Did c]; cbn; rewrite H; auto).
  - repeat split. exists [Slept ms]. cbn. rewrite H. auto.
  - repeat split. exists []. rewrite app_nil_r. auto.
  - repeat split. exists []. rewrite app_nil_r. auto.
  - repeat split. exists []. rewrite app_nil_r. auto.
  - repeat split; [congruence|]. exists []. rewrite app_nil_r. auto.
  - repeat split. exists []. rewrite app_nil_r. auto.
  - repeat split. exists []. rewrite app_nil_r. auto.
  - apply H0.
Qed.

Lemma browser_code_returns_false ok sets A (m : M A) :
  browser_code ok sets A m ->
  forall env s b, fst (m env s) = Return b -> b = false.
Proof.
  induction 1; intros env s r; cbn; try discriminate.
  - intros [= <-]. reflexivity.
  - unfold bind. specialize (IHbrowser_code env s).
    destruct (m env s) as [[a|b|e] s1]; cbn in *; try discriminate.
    + apply H1.
    + intros [= <-]. apply IHbrowser_code. reflexivity.
  - unfold try_catch. specialize (IHbrowser_code env s).
    destruct (m env s) as [[a|b|e] s1]; cbn in *; try discriminate.
    + intros [= <-]. apply IHbrowser_code. reflexivity.
    + apply H1.
  - unfold try_finally. specialize (IHbrowser_code1 env s).
    destruct (m env s) as [c1 s1]; cbn in *.
    specialize (IHbrowser_code2 env s1).
    destruct (f env s1) as [[u|b|e] s2]; cbn in *; try discriminate.
    + apply IHbrowser_code1.
    + intros [= <-]. apply IHbrowser_code2. reflexivity.
  - unfold call. destruct (page env T (trace s) c); discriminate.
  - apply H0.
Qed.

Lemma browser_code_oblivious ok sets A (m : M A) :
  browser_code ok sets A m ->
  forall env env' s s',
    same_world env env' -> same_view s s' ->
    fst (m env s) = fst (m env' s') /\ same_view (snd (m env s)) (snd (m env' s')).
Proof.
  induction 1; intros env env' s s' W V; cbn.
  1-3: split; auto.
  - unfold bind. specialize (IHbrowser_code env env' s s' W V).
    destruct (m env s) as [c1 s1], (m env' s') as [c1' s1']; cbn in *.
    destruct IHbrowser_code as [E V1]. subst c1'.
    destruct c1 as [a|b|e]; cbn; auto.
  - unfold try_catch. specialize (IHbrowser_code env env' s s' W V).
    destruct (m env s) as [c1 s1], (m env' s') as [c1' s1']; cbn in *.
    destruct IHbrowser_code as [E V1]. subst c1'.
    destruct c1 as [a|b|e]; cbn; auto.
  - unfold try_finally. specialize (IHbrowser_code1 env env' s s' W V).
    destruct (m env s) as [c1 s1], (m env' s') as [c1' s1']; cbn in *.
    destruct IHbrowser_code1 as [E V1]. subst c1'.
    specialize (IHbrowser_code2 env env' s1 s1' W V1).
    destruct (f env s1) as [c2 s2], (f env' s1') as [c2' s2']; cbn in *.
    destruct IHbrowser_code2 as [E V2]. subst c2'.
    destruct c2 as [u|b|e]; cbn; auto.
  - unfold call. destruct W as [Wp Wb], V as (Vt & Vs & Vb).
    rewrite <- Wp, <- Vt.
    destruct (page env T (trace s) c); cbn; (split; [reflexivity|]);
      unfold same_view; cbn; rewrite Vt; auto.
  - split; auto. destruct V as (Vt & Vs & Vb). unfold same_view; cbn. rewrite Vt. auto.
  - split; auto.
  - split; auto.
  - destruct V as (Vt & Vs & Vb). rewrite Vs. split; auto. unfold same_view; auto.
  - destruct V as (Vt & Vs & Vb). split; auto. unfold same_view; cbn; auto.
  - destruct V as (Vt & Vs & Vb). rewrite Vb. split; auto. unfold same_view; auto.
  - destruct V as (Vt & Vs & Vb). split; auto. unfold same_view; cbn; auto.
  - destruct W as [Wp Wb]. rewrite <- Wb. apply H0; [split; auto | auto].
Qed.

Lemma browser_code_weaken ok ok' sets sets' A (m : M A) :
  (forall a, ok a = true -> ok' a = true) ->
  (sets = true -> sets' = true) ->
  browser_code ok sets A m -> browser_code ok' sets' A m.
Proof.
  intros W S H. induction H; try (constructor; auto; fail).
Qed.

(** Blocks that assign [success] late. *)
Lemma assigns_late_bind ok A B (m : M A) (k : A -> M B) :
  browser_code ok false A m -> (forall a, assigns_late (k a)) -> assigns_late (bind m k).
Proof.
  intros H L env s. destruct (browser_code_frame _ _ _ _ H env s) as (_ & _ & K & _).
  specialize (K eq_refl). unfold bind.
  destruct (m env s) as [[a|b|e] s1]; cbn in *; auto.
  specialize (L a env s1). destruct (k a env s1) as [[x|b|e] s2]; cbn in *; auto; congruence.
Qed.

Lemma assigns_late_try_catch ok A (m : M A) (h : string -> M A) :
  assigns_late m -> (forall e, browser_code ok false A (h e)) -> assigns_late (try_catch m h).
Proof.
  intros L H env s. specialize (L env s). unfold try_catch.
  destruct (m env s) as [[a|b|e] s1]; cbn in *; auto.
  destruct (browser_code_frame _ _ _ _ (H e) env s1) as (_ & _ & K & _).
  specialize (K eq_refl).
  destruct (h e env s1) as [[x|b|e'] s2]; cbn in *; auto; congruence.
Qed.

Lemma assigns_late_set_success b : assigns_late (set_success b).
Proof. intros env s. exact I. Qed.

(** The derivation of [browser_code] follows the text of a block. *)
Ltac bc_step :=
  first
    [ apply bc_ret | apply bc_throw | apply bc_return
    | apply bc_log | apply bc_log_stack
    | apply bc_get_success | apply bc_set_success; reflexivity
    | apply bc_get_browser | apply bc_set_browser
    | apply bc_call; reflexivity
    | apply bc_sleep; reflexivity
    | apply bc_bind; [ | intros ]
    | apply bc_try_catch; [ | intros ]
    | apply bc_try_finally
    | match goal with
      | |- browser_code _ _ _ (if ?b then _ else _) => destruct b
      | |- browser_code _ _ _ (match ?x with _ => _ end) => destruct x
      end ].

Lemma bc_poll_frames ok sets :
  ok (Did Frames) = true -> ok (Slept 500) = true ->
  browser_code ok sets _ (fun env => poll_frames (poll_budget env) env).
Proof.
  intros F S. apply (bc_budget ok sets _ poll_frames).
  induction n; cbn [poll_frames];
    repeat first [ bc_step | apply bc_call; assumption | apply bc_sleep; assumption ].
  exact IHn.
Qed.

Lemma bc_log_frames ok sets frames : forall idx, browser_code ok sets _ (log_frames idx frames).
Proof.
  induction frames; intros idx; cbn [log_frames]; repeat bc_step. apply IHframes.
Qed.

Ltac bc :=
  cbv zeta;
  repeat first [ apply bc_poll_frames; reflexivity | apply bc_log_frames | bc_step ].

Lemma bc_takeScreenshot p name : browser_code quiet false _ (takeScreenshot p name).
Proof. unfold takeScreenshot. bc. Qed.

Lemma bc_closeBrowser : browser_code quiet false _ closeBrowser.
Proof. unfold closeBrowser. bc. Qed.

Lemma bc_hgtv_catch e : browser_code quiet false _ (hgtv_catch e).
Proof. unfold hgtv_catch. bc. Qed.

Lemma bc_foodnetwork_catch e : browser_code quiet false _ (foodnetwork_catch e).
Proof. unfold foodnetwork_catch. bc. Qed.

Lemma bc_hgtv_through_fill : browser_code not_submit_click false _ hgtv_through_fill.
Proof.
  unfold hgtv_through_fill, hgtv_navigate, initialInteraction, hgtv_locate, hgtv_fill.
  bc.
Qed.

Lemma bc_foodnetwork_through_fill :
  browser_code not_submit_click false _ foodnetwork_through_fill.
Proof.
  unfold foodnetwork_through_fill, foodnetwork_navigate, initialInteraction,
    foodnetwork_locate, foodnetwork_fill.
  bc.
Qed.

Lemma bc_hgtv_challenge dryRun iframe :
  browser_code not_submit_click false _ (hgtv_challenge dryRun iframe).
Proof. unfold hgtv_challenge, handleCaptcha. bc. Qed.

Lemma bc_foodnetwork_challenge dryRun iframe :
  browser_code not_submit_click false _ (foodnetwork_challenge dryRun iframe).
Proof. unfold foodnetwork_challenge, handleCaptcha. bc. Qed.

Lemma bc_hgtv_click_and_read iframe :
  browser_code any_action false _ (hgtv_click_and_read iframe).
Proof. unfold hgtv_click_and_read. bc. Qed.

Lemma bc_foodnetwork_click_and_read iframe :
  browser_code any_action false _ (foodnetwork_click_and_read iframe).
Proof. unfold foodnetwork_click_and_read. bc. Qed.

Lemma bc_hgtv_submit (dryRun : bool) iframe :
  browser_code (if dryRun then not_submit_click else any_action) true _
    (hgtv_submit dryRun iframe).
Proof. destruct dryRun; unfold hgtv_submit, hgtv_click_and_read; bc. Qed.

Lemma bc_foodnetwork_submit (dryRun : bool) iframe :
  browser_code (if dryRun then not_submit_click else any_action) true _
    (foodnetwork_submit dryRun iframe).
Proof. destruct dryRun; unfold foodnetwork_submit, foodnetwork_click_and_read; bc. Qed.

Lemma quiet_not_submit a : quiet a = true -> not_submit_click a = true.
Proof. unfold quiet. intros H. apply andb_prop in H. tauto. Qed.

Lemma quiet_not_locate a : quiet a = true -> not_locate_action a = true.
Proof. unfold quiet. intros H. apply andb_prop in H. tauto. Qed.

Lemma bc_hgtv_try_dry : browser_code not_submit_click true _ (hgtv_try true).
Proof.
  unfold hgtv_try.
  apply bc_bind; [apply (browser_code_weaken not_submit_click _ false); auto;
                  apply bc_hgtv_through_fill|intros iframe].
  apply bc_bind; [apply (browser_code_weaken not_submit_click _ false); auto;
                  apply bc_hgtv_challenge|intros _].
  apply (bc_hgtv_submit true).
Qed.

Lemma bc_foodnetwork_try_dry : browser_code not_submit_click true _ (foodnetwork_try true).
Proof.
  unfold foodnetwork_try.
  apply bc_bind; [apply (browser_code_weaken not_submit_click _ false); auto;
                  apply bc_foodnetwork_through_fill|intros iframe].
  apply bc_bind; [apply (browser_code_weaken not_submit_click _ false); auto;
                  apply bc_foodnetwork_challenge|intros _].
  apply (bc_foodnetwork_submit true).
Qed.

Lemma bc_hgtv_try dryRun : browser_code any_action true _ (hgtv_try dryRun).
Proof.
  unfold hgtv_try.
  apply bc_bind; [apply (browser_code_weaken not_submit_click _ false); auto;
                  apply bc_hgtv_through_fill|intros iframe].
  apply bc_bind; [apply (browser_code_weaken not_submit_click _ false); auto;
                  apply bc_hgtv_challenge|intros _].
  apply (browser_code_weaken (if dryRun then not_submit_click else any_action) _ true); auto.
  apply bc_hgtv_submit.
Qed.

Lemma bc_foodnetwork_try dryRun : browser_code any_action true _ (foodnetwork_try dryRun).
Proof.
  unfold foodnetwork_try.
  apply bc_bind; [apply (browser_code_weaken not_submit_click _ false); auto;
                  apply bc_foodnetwork_through_fill|intros iframe].
  apply bc_bind; [apply (browser_code_weaken not_submit_click _ false); auto;
                  apply bc_foodnetwork_challenge|intros _].
  apply (browser_code_weaken (if dryRun then not_submit_click else any_action) _ true); auto.
  apply bc_foodnetwork_submit.
Qed.

Lemma late_hgtv_try dryRun : assigns_late (hgtv_try dryRun).
Proof.
  unfold hgtv_try.
  apply (assigns_late_bind _ _ _ _ _ bc_hgtv_through_fill). intros iframe.
  apply (assigns_late_bind _ _ _ _ _ (bc_hgtv_challenge dryRun iframe)). intros _.
  unfold hgtv_submit. destruct dryRun.
  - apply (assigns_late_bind any_action); [bc|intros _].
    apply (assigns_late_bind any_action); [bc|intros _].
    apply assigns_late_set_success.
  - apply (assigns_late_bind any_action); [bc|intros _].
    apply (assigns_late_try_catch any_action).
    + apply (assigns_late_bind any_action); [apply bc_hgtv_click_and_read|intros text].
      destruct (has_success_keyword text);
        (apply (assigns_late_bind any_action); [bc|intros _]; apply assigns_late_set_success).
    + intros e. bc.
Qed.

Lemma late_foodnetwork_try dryRun : assigns_late (foodnetwork_try dryRun).
Proof.
  unfold foodnetwork_try.
  apply (assigns_late_bind _ _ _ _ _ bc_foodnetwork_through_fill). intros iframe.
  apply (assigns_late_bind _ _ _ _ _ (bc_foodnetwork_challenge dryRun iframe)). intros _.
  unfold foodnetwork_submit. destruct dryRun.
  - apply (assigns_late_bind any_action); [bc|intros _].
    apply (assigns_late_bind any_action); [bc|intros _].
    apply assigns_late_set_success.
  - apply (assigns_late_bind any_action); [bc|intros _].
    apply (assigns_late_try_catch any_action).
    + apply (assigns_late_bind any_action); [apply bc_foodnetwork_click_and_read|intros text].
      destruct (has_success_keyword text);
        (apply (assigns_late_bind any_action); [bc|intros _]; apply assigns_late_set_success).
    + intros e. bc.
Qed.

(* ================================================================== *)
(** ** The ledger *)
(* ================================================================== *)

Lemma sort_insert_head cmp a l :
  nth_error (sort_insert cmp a l) 0 =
  match l with
  | [] => Some a
  | b :: _ => if (cmp a b <=? 0)%Z then Some a else Some b
  end.
Proof. destruct l as [|b l']; cbn; [reflexivity|]. destruct (cmp a b <=? 0)%Z; reflexivity. Qed.

Lemma sort_head_most_recent l :
  match nth_error (sort byNewest l) 0 with
  | None => l = []
  | Some r => most_recent r l
  end.
Proof.
  induction l as [|a l IH]; cbn [sort fold_right]; [reflexivity|].
  fold (sort byNewest l). rewrite sort_insert_head.
  destruct (sort byNewest l) as [|b rest] eqn:E; cbn in IH.
  - subst l. split; [left; reflexivity|]. intros r' [<-|[]]. lia.
  - destruct IH as [Hin Hmax]. unfold byNewest.
    destruct (Z.leb_spec (Submission.timestamp b - Submission.timestamp a) 0).
    + split; [left; reflexivity|]. intros r' [<-|H']; [lia|]. specialize (Hmax r' H'). lia.
    + split; [right; exact Hin|]. intros r' [<-|H']; [lia|]. apply Hmax, H'.
Qed.

Lemma most_recent_same_instant r r' l :
  most_recent r l -> most_recent r' l -> Submission.timestamp r = Submission.timestamp r'.
Proof. intros [I M] [I' M']. specialize (M r' I'). specialize (M' r I). lia. Qed.

(** What [checkRateLimit] computes on a file that holds a ledger. *)
Lemma checkRateLimit_on_ledger site env s l :
  file s = Holds (Json l) ->
  fst (checkRateLimit site env s) =
  Normal match nth_error (sort byNewest (successes_of site l)) 0 with
         | None => true
         | Some last =>
             negb (getETDate (Submission.timestamp last) =? getETDate (now_check env))
         end
  /\ file (snd (checkRateLimit site env s)) = file s
  /\ trace (snd (checkRateLimit site env s)) = trace s
  /\ var_success (snd (checkRateLimit site env s)) = var_success s
  /\ var_browser (snd (checkRateLimit site env s)) = var_browser s.
Proof.
  intros F. unfold checkRateLimit, try_catch, bind, existsSync_submissions,
    readFileSync_submissions, new_Date_in_check.
  repeat (cbn; rewrite ?F). fold (successes_of site l).
  destruct (sort byNewest (successes_of site l)) as [|last rest]; cbn; auto.
  destruct (getETDate (Submission.timestamp last) =? getETDate (now_check env)); cbn; auto.
Qed.


Lemma checkRateLimit_on_absent site env s :
  file s = Absent ->
  checkRateLimit site env s = (Normal true, with_disk ProbedSubmissions s).
Proof.
  intros F. unfold checkRateLimit, try_catch, bind, existsSync_submissions.
  repeat (cbn; rewrite ?F). reflexivity.
Qed.

(** What [checkRateLimit] answers on a ledger, by its most recent success. *)
Lemma checkRateLimit_by_most_recent site env s l last :
  file s = Holds (Json l) ->
  most_recent last (successes_of site l) ->
  fst (checkRateLimit site env s) =
  Normal (negb (getETDate (Submission.timestamp last) =? getETDate (now_check env))).
Proof.
  intros F M. destruct (checkRateLimit_on_ledger site env s l F) as [R _]. rewrite R.
  pose proof (sort_head_most_recent (successes_of site l)) as H.
  destruct (nth_error (sort byNewest (successes_of site l)) 0) as [chosen|].
  - rewrite (most_recent_same_instant _ _ _ H M). reflexivity.
  - destruct M as [I _]. rewrite H in I. destruct I.
Qed.

(** C2. On a readable ledger [checkRateLimit] answers true when the site
    has no successful record; otherwise a most recent successful record of
    the site exists, and the answer is false exactly when the calendar
    date of that record in the reference timezone is the string of today's
    date; so a most recent success dated another day, yesterday in
    particular, allows the run. *)
Theorem checkRateLimit_decision site env s l :
  ledger_of (file s) = Some l ->
  (successes_of site l = [] -> fst (checkRateLimit site env s) = Normal true)
  /\ (successes_of site l <> [] -> exists last, most_recent last (successes_of site l))
  /\ (forall last, most_recent last (successes_of site l) ->
       exists allowed,
         fst (checkRateLimit site env s) = Normal allowed /\
         (allowed = false <->
          getETDate (Submission.timestamp last) = getETDate (now_check env)))
  /\ (forall last, most_recent last (successes_of site l) ->
       getETDate (Submission.timestamp last) <> getETDate (now_check env) ->
       fst (checkRateLimit site env s) = Normal true).
Proof.
  intros L.
  assert (Absent_or_ledger : file s = Absent /\ l = [] \/ file s = Holds (Json l)).
  { unfold ledger_of in L. destruct (file s) as [|e|[e|l']]; try discriminate.
    - left. split; congruence.
    - right. congruence. }
  split; [|split; [|split]].
  - intros E. destruct Absent_or_ledger as [[F _]|F].
    + rewrite (checkRateLimit_on_absent site env s F). reflexivity.
    + destruct (checkRateLimit_on_ledger site env s l F) as [R _]. rewrite R, E. reflexivity.
  - intros NE. pose proof (sort_head_most_recent (successes_of site l)) as H.
    destruct (nth_error (sort byNewest (successes_of site l)) 0) as [chosen|].
    + exists chosen. exact H.
    + contradiction.
  - intros last M. destruct Absent_or_ledger as [[_ ->]|F]; [destruct M as [[] _]|].
    rewrite (checkRateLimit_by_most_recent site env s l last F M).
    eexists; split; [reflexivity|].
    destruct (String.eqb_spec (getETDate (Submission.timestamp last)) (getETDate (now_check env)));
      cbn; split; congruence.
  - intros last M D. destruct Absent_or_ledger as [[_ ->]|F]; [destruct M as [[] _]|].
    rewrite (checkRateLimit_by_most_recent site env s l last F M).
    destruct (String.eqb_spec (getETDate (Submission.timestamp last)) (getETDate (now_check env)));
      [contradiction|reflexivity].
Qed.

(** [checkRateLimit] answers true on a file that cannot be read or
    parsed. *)
Lemma checkRateLimit_on_unreadable site env s e :
  file s = Unreadable e \/ file s = Holds (Garbage e) ->
  fst (checkRateLimit site env s) = Normal true.
Proof.
  intros [F|F]; unfold checkRateLimit, try_catch, bind, existsSync_submissions,
    readFileSync_submissions; repeat (cbn; rewrite ?F); reflexivity.
Qed.

(** C6. When reading the submissions file throws, or [JSON.parse] rejects
    its text, [checkRateLimit] answers true, logs the error and leaves the
    file as it is. *)
Theorem checkRateLimit_fails_open site env s e :
  file s = Unreadable e \/ file s = Holds (Garbage e) ->
  fst (checkRateLimit site env s) = Normal true
  /\ logs (snd (checkRateLimit site env s)) =
     (logs s ++ [Line Error ("Error checking rate limit: " ++ e)])%list
  /\ file (snd (checkRateLimit site env s)) = file s.
Proof.
  intros Failure.
  unfold checkRateLimit, try_catch, bind, existsSync_submissions, readFileSync_submissions.
  destruct Failure as [F|F].
  - (* readFileSync throws *)
    repeat (cbn; rewrite ?F). auto.
  - (* JSON.parse throws *)
    repeat (cbn; rewrite ?F). auto.
Qed.


Lemma slice_last_suffix n l : l = (firstn (List.length l - n) l ++ slice_last n l)%list.
Proof. unfold slice_last. symmetry. apply firstn_skipn. Qed.

Lemma slice_last_length n l : List.length (slice_last n l) = Nat.min n (List.length l).
Proof. unfold slice_last. rewrite length_skipn. lia. Qed.

(** The sequence that [saveSubmissionRecord] writes when it starts from
    [l]. *)
Lemma saveSubmissionRecord_persists site success error env s l :
  ledger_of (file s) = Some l ->
  write_error env = None ->
  let appended := (l ++ [Submission.mk site success error (now_record env)])%list in
  let kept := if (100 <? List.length appended)%nat then slice_last 100 appended else appended in
  fst (saveSubmissionRecord site success error env s) = Normal tt
  /\ file (snd (saveSubmissionRecord site success error env s)) = Holds (Json kept)
  /\ (exists reads,
        disk (snd (saveSubmissionRecord site success error env s)) =
        (disk s ++ reads ++ [WroteSubmissions (Json kept)])%list
        /\ forall d, In d reads -> d = ProbedSubmissions \/ d = ReadSubmissions).
Proof.
  intros L W. unfold ledger_of in L.
  destruct (file s) as [|e|[e|l']] eqn:F; try discriminate; injection L as <-;
    unfold saveSubmissionRecord, try_catch, bind, existsSync_submissions,
      readFileSync_submissions, writeFileSync_submissions, new_Date_in_record, JSON_stringify;
    repeat (cbn -[Nat.ltb slice_last]; rewrite ?F, ?W); cbn -[Nat.ltb slice_last].
  - repeat split. exists [ProbedSubmissions]. split.
    + rewrite <- app_assoc. reflexivity.
    + intros d [<-|[]]. auto.
  - repeat split. exists [ProbedSubmissions; ReadSubmissions]. split.
    + rewrite <- !app_assoc. reflexivity.
    + intros d [<-|[<-|[]]]; auto.
Qed.

(** [saveSubmissionRecord] always ends normally and never touches the
    browser or the locals of its caller. *)
Lemma saveSubmissionRecord_returns site success error env s :
  fst (saveSubmissionRecord site success error env s) = Normal tt
  /\ same_view (snd (saveSubmissionRecord site success error env s)) s.
Proof.
  unfold saveSubmissionRecord, try_catch, bind, existsSync_submissions,
    readFileSync_submissions, writeFileSync_submissions, new_Date_in_record, same_view.
  destruct (file s) as [|e|[e|l']] eqn:F; destruct (write_error env) eqn:W;
    repeat (cbn -[Nat.ltb slice_last]; rewrite ?F, ?W); auto.
Qed.

(** When the read, the parse or the write throws, the error is logged and
    the file stays as it was. *)
Lemma saveSubmissionRecord_swallows site success error env s e :
  file s = Unreadable e \/ file s = Holds (Garbage e)
  \/ (ledger_of (file s) <> None /\ write_error env = Some e) ->
  fst (saveSubmissionRecord site success error env s) = Normal tt
  /\ file (snd (saveSubmissionRecord site success error env s)) = file s
  /\ logs (snd (saveSubmissionRecord site success error env s)) =
     (logs s ++ [Line Error ("Failed to save submission record: " ++ e)])%list.
Proof.
  unfold saveSubmissionRecord, try_catch, bind, existsSync_submissions,
    readFileSync_submissions, writeFileSync_submissions, new_Date_in_record.
  intros [F|[F|[L W]]].
  - repeat (cbn -[Nat.ltb slice_last]; rewrite ?F). auto.
  - repeat (cbn -[Nat.ltb slice_last]; rewrite ?F). auto.
  - unfold ledger_of in L. destruct (file s) as [|e'|[e'|l']] eqn:F; try contradiction;
      repeat (cbn -[Nat.ltb slice_last]; rewrite ?F, ?W); auto.
Qed.

(** C7. Starting from the sequence read from the submissions file, an
    absent file reading as the empty sequence, [saveSubmissionRecord]
    appends exactly one record, stamped with the current instant, keeps
    the whole sequence when it has at most 100 entries and otherwise its
    last 100 in their order, and writes that as the new document. *)
Theorem saveSubmissionRecord_appends_and_truncates site success error env s l :
  ledger_of (file s) = Some l ->
  write_error env = None ->
  let appended := (l ++ [Submission.mk site success error (now_record env)])%list in
  exists kept dropped,
    fst (saveSubmissionRecord site success error env s) = Normal tt
    /\ file (snd (saveSubmissionRecord site success error env s)) = Holds (Json kept)
    /\ appended = (dropped ++ kept)%list
    /\ List.length kept = Nat.min 100 (List.length appended)
    /\ ((List.length appended <= 100)%nat -> kept = appended)
    /\ ((100 < List.length appended)%nat -> List.length kept = 100%nat)
    /\ last (disk (snd (saveSubmissionRecord site success error env s))) ProbedSubmissions
       = WroteSubmissions (Json kept).
Proof.
  intros L W appended.
  destruct (saveSubmissionRecord_persists site success error env s l L W) as (R & F & reads & D & _).
  fold appended in F, D.
  destruct (Nat.ltb_spec 100 (List.length appended)) as [Long|Short].
  - exists (slice_last 100 appended), (firstn (List.length appended - 100) appended).
    repeat split; auto.
    + apply slice_last_suffix.
    + apply slice_last_length.
    + intros. lia.
    + intros. rewrite slice_last_length. lia.
    + rewrite D, app_assoc. apply last_last.
  - exists appended, []. repeat split; auto.
    + lia.
    + intros. lia.
    + rewrite D, app_assoc. apply last_last.
Qed.


(* ================================================================== *)
(** ** The anatomy of a run *)
(* ================================================================== *)

Lemma submitHGTVEntry_shape dryRun :
  submitHGTVEntry dryRun =
  entry_function "hgtv" (try_catch (hgtv_try dryRun) hgtv_catch) dryRun.
Proof. reflexivity. Qed.

Lemma submitFoodNetworkEntry_shape dryRun :
  submitFoodNetworkEntry dryRun =
  entry_function "foodnetwork" (try_catch (foodnetwork_try dryRun) foodnetwork_catch) dryRun.
Proof. reflexivity. Qed.

Lemma bc_hgtv_attempt dryRun :
  browser_code any_action true _ (try_catch (hgtv_try dryRun) hgtv_catch).
Proof.
  apply bc_try_catch; [apply bc_hgtv_try|intros e].
  apply (browser_code_weaken quiet _ false); auto. apply bc_hgtv_catch.
Qed.

Lemma bc_foodnetwork_attempt dryRun :
  browser_code any_action true _ (try_catch (foodnetwork_try dryRun) foodnetwork_catch).
Proof.
  apply bc_try_catch; [apply bc_foodnetwork_try|intros e].
  apply (browser_code_weaken quiet _ false); auto. apply bc_foodnetwork_catch.
Qed.

Lemma late_hgtv_attempt dryRun : assigns_late (try_catch (hgtv_try dryRun) hgtv_catch).
Proof. apply (assigns_late_try_catch quiet); [apply late_hgtv_try|apply bc_hgtv_catch]. Qed.

Lemma late_foodnetwork_attempt dryRun :
  assigns_late (try_catch (foodnetwork_try dryRun) foodnetwork_catch).
Proof.
  apply (assigns_late_try_catch quiet); [apply late_foodnetwork_try|apply bc_foodnetwork_catch].
Qed.

(** [checkRateLimit] always answers, and touches neither the file nor the
    browser. *)
Lemma checkRateLimit_answers site env s :
  exists allowed,
    fst (checkRateLimit site env s) = Normal allowed
    /\ file (snd (checkRateLimit site env s)) = file s
    /\ same_view (snd (checkRateLimit site env s)) s
    /\ (forall d, In d (disk (snd (checkRateLimit site env s))) ->
        In d (disk s) \/ d = ProbedSubmissions \/ d = ReadSubmissions).
Proof.
  unfold checkRateLimit, try_catch, bind, existsSync_submissions,
    readFileSync_submissions, new_Date_in_check, same_view.
  destruct (file s) as [|e|[e|l]] eqn:F; repeat (cbn; rewrite ?F).
  - eexists; repeat split; cbn; auto.
    intros d I. apply in_app_or in I. destruct I as [I|[<-|[]]]; auto.
  - eexists; repeat split; cbn; auto.
    intros d I. rewrite <- app_assoc in I. apply in_app_or in I.
    destruct I as [I|[<-|[<-|[]]]]; auto.
  - eexists; repeat split; cbn; auto.
    intros d I. rewrite <- app_assoc in I. apply in_app_or in I.
    destruct I as [I|[<-|[<-|[]]]]; auto.
  - destruct (sort byNewest _) as [|last rest]; cbn.
    + eexists; repeat split; cbn; auto.
      intros d I. rewrite <- app_assoc in I. apply in_app_or in I.
      destruct I as [I|[<-|[<-|[]]]]; auto.
    + destruct (getETDate (Submission.timestamp last) =? getETDate (now_check env)); cbn;
        (eexists; repeat split; cbn; auto;
         intros d I; rewrite <- app_assoc in I; apply in_app_or in I;
         destruct I as [I|[<-|[<-|[]]]]; auto).
Qed.

(** The prologue, by the answer of the rate check. *)
Lemma entry_prologue_dry site env f :
  entry_prologue site true env (initial_store f) = (Normal tt, entered site (announced site f)).
Proof. reflexivity. Qed.

Lemma entry_prologue_checked site env f :
  entry_prologue site false env (initial_store f) =
  match checkRateLimit site env (announced site f) with
  | (Normal allowed, s) => if allowed then (Normal tt, entered site s) else (Return false, s)
  | (Return b, s) => (Return b, s)
  | (Throw e, s) => (Throw e, s)
  end.
Proof.
  unfold entry_prologue, bind.
  change (log_sweepstakes site "Starting entry process..." env (initial_store f))
    with (Normal tt, announced site f).
  cbv iota beta. cbn [negb].
  destruct (checkRateLimit site env (announced site f)) as [[[|]|b|e] s]; reflexivity.
Qed.

Lemma entry_prologue_allowed site env f :
  fst (checkRateLimit site env (announced site f)) = Normal true ->
  entry_prologue site false env (initial_store f) =
  (Normal tt, entered site (snd (checkRateLimit site env (announced site f)))).
Proof.
  intros A. rewrite entry_prologue_checked.
  destruct (checkRateLimit site env (announced site f)) as [c s1]. cbn in A. subst c.
  reflexivity.
Qed.

Lemma entry_prologue_denied site env f :
  fst (checkRateLimit site env (announced site f)) = Normal false ->
  entry_prologue site false env (initial_store f) =
  (Return false, snd (checkRateLimit site env (announced site f))).
Proof.
  intros A. rewrite entry_prologue_checked.
  destruct (checkRateLimit site env (announced site f)) as [c s1]. cbn in A. subst c.
  reflexivity.
Qed.


(** From the [try] statement to the final [return success]. *)
Lemma entry_after_prologue_run site attempt dryRun env sp :
  entry_after_prologue site attempt dryRun env sp =
  let (c, sa) := attempt env sp in
  match closeBrowser env sa with
  | (Normal _, sb) =>
      let sc :=
        if dryRun then sb
        else snd (saveSubmissionRecord site (var_success sb)
                    (if var_success sb then None else Some "See logs for details") env sb) in
      match c with
      | Normal _ => (Return (var_success sb), sc)
      | Return b => (Return b, sc)
      | Throw e => (Throw e, sc)
      end
  | (Return b, sb) => (Return b, sb)
  | (Throw e, sb) => (Throw e, sb)
  end.
Proof.
  unfold entry_after_prologue, entry_finally, bind, try_finally.
  destruct (attempt env sp) as [c sa].
  destruct (closeBrowser env sa) as [[[]|b|e] sb]; try reflexivity.
  destruct dryRun; cbn [negb].
  - destruct c; reflexivity.
  - unfold get_success at 1.
    destruct (saveSubmissionRecord_returns site (var_success sb)
                (if var_success sb then None else Some "See logs for details") env sb)
      as [R (_ & S & _)].
    destruct (saveSubmissionRecord site (var_success sb)
                (if var_success sb then None else Some "See logs for details") env sb)
      as [cr sc].
    cbn in R, S. subst cr. destruct c; cbn; rewrite ?S; reflexivity.
Qed.

(** A dry run only runs browser code. *)
Lemma run_frame_dry site attempt env f :
  browser_code not_submit_click true _ attempt ->
  file (snd (run (entry_function site attempt true) env f)) = f
  /\ disk (snd (run (entry_function site attempt true) env f)) = []
  /\ forallb not_submit_click (trace (snd (run (entry_function site attempt true) env f))) = true.
Proof.
  intros H. unfold run, entry_function, bind.
  rewrite entry_prologue_dry, entry_after_prologue_run.
  destruct (browser_code_frame _ _ _ _ H env (entered site (announced site f)))
    as (F1 & D1 & _ & n1 & T1 & O1).
  destruct (attempt env (entered site (announced site f))) as [c sa]. cbn in F1, D1, T1.
  destruct (browser_code_frame _ _ _ _ bc_closeBrowser env sa) as (F2 & D2 & _ & n2 & T2 & O2).
  assert (O2' : forallb not_submit_click n2 = true).
  { rewrite forallb_forall in *. intros a Ia. apply quiet_not_submit, O2, Ia. }
  destruct (closeBrowser env sa) as [[[]|b|e] sb]; cbn in F2, D2, T2;
    try destruct c; cbn; rewrite ?F2, ?D2, ?T2, ?F1, ?D1, ?T1, ?forallb_app, ?O1, ?O2'; auto.
Qed.

Lemma bc_hgtv_attempt_dry :
  browser_code not_submit_click true _ (try_catch (hgtv_try true) hgtv_catch).
Proof.
  apply bc_try_catch; [apply bc_hgtv_try_dry|intros e].
  apply (browser_code_weaken quiet _ false); auto using quiet_not_submit. apply bc_hgtv_catch.
Qed.

Lemma bc_foodnetwork_attempt_dry :
  browser_code not_submit_click true _ (try_catch (foodnetwork_try true) foodnetwork_catch).
Proof.
  apply bc_try_catch; [apply bc_foodnetwork_try_dry|intros e].
  apply (browser_code_weaken quiet _ false); auto using quiet_not_submit.
  apply bc_foodnetwork_catch.
Qed.

(** C5. A dry run of either entry function, however it ends, leaves the
    submissions file as it found it and performs no operation at all on
    it: no record is appended. *)
Theorem dry_run_never_records env f :
  (file (snd (run (submitHGTVEntry true) env f)) = f
   /\ disk (snd (run (submitHGTVEntry true) env f)) = [])
  /\ (file (snd (run (submitFoodNetworkEntry true) env f)) = f
      /\ disk (snd (run (submitFoodNetworkEntry true) env f)) = []).
Proof.
  rewrite submitHGTVEntry_shape, submitFoodNetworkEntry_shape. split.
  - destruct (run_frame_dry "hgtv" _ env f bc_hgtv_attempt_dry) as (F & D & _). auto.
  - destruct (run_frame_dry "foodnetwork" _ env f bc_foodnetwork_attempt_dry) as (F & D & _).
    auto.
Qed.


(* ================================================================== *)
(** ** Running single blocks *)
(* ================================================================== *)

(** Case analysis on the answer of the next Page Driver call. *)
Ltac ask :=
  match goal with
  | |- context [page ?env ?T ?h ?c] => destruct (page env T h c) as [?|?]; cbn
  end.

Lemma takeScreenshot_returns p name env s :
  fst (takeScreenshot p name env s) = Normal tt.
Proof.
  unfold takeScreenshot, try_catch, bind, call, log. cbn.
  ask; auto. destruct v; cbn; repeat (ask; auto).
Qed.

Lemma handleCaptcha_returns frame env s :
  exists solved, fst (handleCaptcha frame env s) = Normal solved.
Proof.
  unfold handleCaptcha, try_catch, bind, call, log, sleep. cbn.
  ask; eauto. destruct v; cbn; eauto.
  destruct (truthy_opt (captcha_solverApiKey config)); cbn; eauto.
Qed.

Lemma handleCaptcha_asks frame env s :
  exists more,
    trace (snd (handleCaptcha frame env s)) =
    (trace s ++ Did (QuerySelector frame sel_recaptcha) :: more)%list.
Proof.
  unfold handleCaptcha, try_catch, bind, call, log, sleep. cbn.
  ask; eauto. destruct v; cbn; eauto.
  destruct (truthy_opt (captcha_solverApiKey config)); cbn; eauto.
  rewrite <- app_assoc. cbn. eauto.
Qed.

(** In a dry run the challenge step never leaves the function. *)
Lemma hgtv_challenge_dry iframe env s :
  fst (hgtv_challenge true iframe env s) = Normal tt
  /\ snd (hgtv_challenge true iframe env s) = snd (handleCaptcha iframe env s).
Proof.
  unfold hgtv_challenge, bind.
  destruct (handleCaptcha_returns iframe env s) as [solved R].
  destruct (handleCaptcha iframe env s) as [c s']. cbn in R. subst c.
  rewrite andb_false_r. auto.
Qed.

Lemma hgtv_submit_dry iframe env s :
  fst (hgtv_submit true iframe env s) = Normal tt
  /\ var_success (snd (hgtv_submit true iframe env s)) = true.
Proof.
  unfold hgtv_submit, bind, log, set_success.
  pose proof (takeScreenshot_returns ThePage "hgtv-06-dry-run-complete" env
                (with_log (Line Warn "🧪 DRY RUN MODE - Not submitting entry") s)) as R.
  destruct (takeScreenshot ThePage "hgtv-06-dry-run-complete" env _) as [c s'].
  cbn in R. subst c. auto.
Qed.

Lemma closeBrowser_closes env s :
  (forall h, page env unit h Close = Ok tt) ->
  fst (closeBrowser env s) = Normal tt.
Proof.
  intros C. unfold closeBrowser, bind, get_success, get_browser, call, log.
  destruct (var_browser s); cbn; auto. rewrite C. auto.
Qed.

Lemma closeBrowser_no_return env s b : fst (closeBrowser env s) <> Return b.
Proof.
  unfold closeBrowser, bind, get_browser, call, log.
  destruct (var_browser s); cbn; [ask|]; discriminate.
Qed.

Lemma trace_grows ok sets A (m : M A) env s a :
  browser_code ok sets A m -> In a (trace s) -> In a (trace (snd (m env s))).
Proof.
  intros H I. destruct (browser_code_frame _ _ _ _ H env s) as (_ & _ & _ & new & T & _).
  rewrite T. apply in_or_app. auto.
Qed.


(* ================================================================== *)
(** ** Dry runs *)
(* ================================================================== *)

(** C3, amended. A dry run skips the rate check: it never consults the
    submissions file.  It never invokes the real submit action.  When the
    stages from the launch to the last form step complete and the browser
    closes, it has executed the challenge step on the form session and it
    returns true, whatever the challenge handler answered. *)
Theorem dry_run_skips_rate_check_and_submit env f :
  let out := run (submitHGTVEntry true) env f in
  ~ rate_check_executed (snd out)
  /\ forallb not_submit_click (trace (snd out)) = true
  /\ (forall iframe s1,
        hgtv_through_fill env (entered "hgtv" (announced "hgtv" f)) = (Normal iframe, s1) ->
        (forall h, page env unit h Close = Ok tt) ->
        fst out = Resolved true
        /\ In (Did (QuerySelector iframe sel_recaptcha)) (trace (snd out))).
Proof.
  cbv zeta. rewrite submitHGTVEntry_shape.
  destruct (run_frame_dry "hgtv" _ env f bc_hgtv_attempt_dry) as (_ & D & T).
  split; [|split]; auto.
  - unfold rate_check_executed. rewrite D. intros [].
  - intros iframe s1 H C. clear D T.
    unfold run, entry_function, bind.
    rewrite entry_prologue_dry, entry_after_prologue_run.
    unfold try_catch, hgtv_try, bind. rewrite H.
    destruct (hgtv_challenge_dry iframe env s1) as [R2 S2].
    destruct (handleCaptcha_asks iframe env s1) as [more A].
    destruct (hgtv_challenge true iframe env s1) as [c2 s2]. cbn [fst snd] in R2, S2. subst c2.
    rewrite <- S2 in A. clear S2.
    destruct (hgtv_submit_dry iframe env s2) as [R3 S3].
    pose proof (trace_grows _ _ _ _ env s2 (Did (QuerySelector iframe sel_recaptcha))
                  (bc_hgtv_submit true iframe)) as G3.
    destruct (hgtv_submit true iframe env s2) as [c3 s3]. cbn [fst snd] in R3, S3, G3. subst c3.
    pose proof (closeBrowser_closes env s3 C) as R4.
    destruct (browser_code_frame _ _ _ _ bc_closeBrowser env s3) as (_ & _ & S4 & _).
    pose proof (trace_grows _ _ _ _ env s3 (Did (QuerySelector iframe sel_recaptcha))
                  bc_closeBrowser) as G4.
    destruct (closeBrowser env s3) as [c4 s4]. cbn [fst snd] in R4, S4, G4. subst c4.
    cbn. rewrite S4, S3 by reflexivity. split; [reflexivity|].
    apply G4, G3. rewrite A. apply in_or_app. right. left. reflexivity.
Qed.


(* ================================================================== *)
(** ** Runs that are not dry *)
(* ================================================================== *)

(** How a run that is not dry can end: the rate check denies it; or the
    browser fails to close and nothing is recorded; or the outcome [b] is
    recorded, and the function returns [b] unless the error handler itself
    threw. *)
Lemma run_nondry_cases site attempt env f r s :
  browser_code any_action true _ attempt ->
  assigns_late attempt ->
  run (entry_function site attempt false) env f = (r, s) ->
  (fst (checkRateLimit site env (announced site f)) = Normal false
   /\ r = Resolved false
   /\ s = snd (checkRateLimit site env (announced site f)))
  \/ (fst (checkRateLimit site env (announced site f)) = Normal true
      /\ exists sb,
          file sb = f
          /\ ((exists e, r = Rejected e /\ s = sb)
              \/ (exists b,
                    s = snd (saveSubmissionRecord site b
                               (if b then None else Some "See logs for details") env sb)
                    /\ (r = Resolved b \/ (b = false /\ exists e, r = Rejected e))))).
Proof.
  intros B L R.
  destruct (checkRateLimit_answers site env (announced site f)) as (allowed & A & F0 & V0 & _).
  destruct allowed.
  2:{ left. unfold run, entry_function, bind in R. rewrite (entry_prologue_denied _ _ _ A) in R.
      cbn in R. injection R as <- <-. auto. }
  right. split; [exact A|].
  unfold run, entry_function, bind in R. rewrite (entry_prologue_allowed _ _ _ A) in R.
  rewrite entry_after_prologue_run in R.
  set (sp := entered site (snd (checkRateLimit site env (announced site f)))) in *.
  assert (Fp : file sp = f) by (unfold sp; cbn; rewrite F0; reflexivity).
  assert (Sp : var_success sp = false) by reflexivity.
  destruct (browser_code_frame _ _ _ _ B env sp) as (F1 & _).
  pose proof (browser_code_returns_false _ _ _ _ B env sp) as RF.
  specialize (L env sp).
  destruct (attempt env sp) as [c sa]. cbn [fst snd] in *.
  destruct (browser_code_frame _ _ _ _ bc_closeBrowser env sa) as (F2 & _ & S2 & _).
  pose proof (closeBrowser_no_return env sa) as NR.
  destruct (closeBrowser env sa) as [cc sb]. cbn [fst snd] in *.
  exists sb. split; [congruence|].
  specialize (S2 eq_refl).
  destruct cc as [[]|b|e].
  - right. exists (var_success sb). destruct c as [[]|b|e]; cbn in R; injection R as <- <-.
    + auto.
    + rewrite (RF b eq_refl). split; [reflexivity|]. left. f_equal. congruence.
    + split; [reflexivity|]. right. split; [congruence|eauto].
  - destruct (NR b eq_refl).
  - left. cbn in R. injection R as <- <-. eauto.
Qed.


(** The appended record survives the truncation, at the end, behind a
    suffix of the old sequence. *)
Lemma appended_record_is_last l r :
  exists dropped older,
    l = (dropped ++ older)%list
    /\ (if (100 <? List.length (l ++ [r]))%nat then slice_last 100 (l ++ [r]) else (l ++ [r])%list)
       = (older ++ [r])%list.
Proof.
  destruct (Nat.ltb_spec 100 (List.length (l ++ [r]))) as [Long|Short].
  - exists (firstn (List.length (l ++ [r]) - 100) l), (skipn (List.length (l ++ [r]) - 100) l).
    split.
    + symmetry. apply firstn_skipn.
    + unfold slice_last. rewrite skipn_app.
      rewrite length_app in *. cbn [List.length] in *.
      replace (List.length l + 1 - 100 - List.length l)%nat with 0%nat by lia.
      reflexivity.
  - exists [], l. auto.
Qed.

(** What a recorded run leaves in a readable ledger. *)
Lemma recorded_file site b env sb l :
  ledger_of (file sb) = Some l ->
  write_error env = None ->
  exists dropped older,
    l = (dropped ++ older)%list
    /\ file (snd (saveSubmissionRecord site b
                    (if b then None else Some "See logs for details") env sb))
       = Holds (Json (older ++ [outcome_record site b env])).
Proof.
  intros L W.
  destruct (saveSubmissionRecord_persists site b
              (if b then None else Some "See logs for details") env sb l L W) as (_ & F & _).
  destruct (appended_record_is_last l (outcome_record site b env)) as (dropped & older & E & K).
  exists dropped, older. split; [exact E|]. rewrite F. unfold outcome_record in K. rewrite K.
  reflexivity.
Qed.


(* ================================================================== *)
(** ** Once a day *)
(* ================================================================== *)

Lemma successes_of_app site l1 l2 :
  successes_of site (l1 ++ l2) = (successes_of site l1 ++ successes_of site l2)%list.
Proof. apply filter_app. Qed.







Lemma run_dry_file site attempt env f ok :
  browser_code ok true _ attempt ->
  file (snd (run (entry_function site attempt true) env f)) = f.
Proof.
  intros H. unfold run, entry_function, bind.
  rewrite entry_prologue_dry, entry_after_prologue_run.
  destruct (browser_code_frame _ _ _ _ H env (entered site (announced site f))) as (F1 & _).
  destruct (attempt env (entered site (announced site f))) as [c sa]. cbn in F1.
  destruct (browser_code_frame _ _ _ _ bc_closeBrowser env sa) as (F2 & _).
  destruct (closeBrowser env sa) as [[[]|b|e] sb]; cbn in F2;
    try destruct c; cbn; congruence.
Qed.





(* ================================================================== *)
(** ** Recording cannot change the outcome *)
(* ================================================================== *)

Lemma after_prologue_oblivious site attempt dryRun env env' sp sp' :
  browser_code any_action true _ attempt ->
  same_world env env' ->
  same_view sp sp' ->
  fst (entry_after_prologue site attempt dryRun env sp)
  = fst (entry_after_prologue site attempt dryRun env' sp').
Proof.
  intros B W V. rewrite !entry_after_prologue_run.
  destruct (browser_code_oblivious _ _ _ _ B env env' sp sp' W V) as [E1 V1].
  destruct (attempt env sp) as [c sa], (attempt env' sp') as [c' sa']. cbn [fst snd] in *.
  subst c'.
  destruct (browser_code_oblivious _ _ _ _ bc_closeBrowser env env' sa sa' W V1) as [E2 V2].
  destruct (closeBrowser env sa) as [cc sb], (closeBrowser env' sa') as [cc' sb'].
  cbn [fst snd] in *. subst cc'.
  destruct V2 as (_ & S & _).
  destruct cc as [[]|b|e]; cbn; auto.
  destruct c; cbn; rewrite ?S; reflexivity.
Qed.

Lemma checkRateLimit_ignores_recording site w t env s :
  checkRateLimit site (with_recording w t env) s = checkRateLimit site env s.
Proof.
  unfold checkRateLimit, try_catch, bind, existsSync_submissions,
    readFileSync_submissions, new_Date_in_check, with_recording.
  destruct (file s) as [|e|[e|l]] eqn:F; repeat (cbn; rewrite ?F); try reflexivity.
  destruct (sort byNewest _) as [|last rest]; [reflexivity|]. cbn [now_check].
  destruct (getETDate (Submission.timestamp last) =? getETDate (now_check env)); reflexivity.
Qed.

Lemma entry_prologue_ignores_recording site dryRun w t env s :
  entry_prologue site dryRun (with_recording w t env) s = entry_prologue site dryRun env s.
Proof.
  unfold entry_prologue, bind. destruct dryRun; cbn [negb]; [reflexivity|].
  change (log_sweepstakes site "Starting entry process..." (with_recording w t env) s)
    with (log_sweepstakes site "Starting entry process..." env s).
  destruct (log_sweepstakes site "Starting entry process..." env s) as [[[]|b|e] s0];
    try reflexivity.
  rewrite checkRateLimit_ignores_recording.
  destruct (checkRateLimit site env s0) as [[[|]|b|e] s1]; reflexivity.
Qed.

Lemma same_view_refl s : same_view s s.
Proof. unfold same_view. auto. Qed.

Lemma run_ignores_recording site attempt dryRun env f w t :
  browser_code any_action true _ attempt ->
  fst (run (entry_function site attempt dryRun) (with_recording w t env) f)
  = fst (run (entry_function site attempt dryRun) env f).
Proof.
  intros B. unfold run, entry_function, bind.
  rewrite entry_prologue_ignores_recording.
  destruct (entry_prologue site dryRun env (initial_store f)) as [[[]|b|e] sp]; try reflexivity.
  pose proof (after_prologue_oblivious site attempt dryRun (with_recording w t env) env sp sp B
                (conj eq_refl eq_refl) (same_view_refl sp)) as E.
  destruct (entry_after_prologue site attempt dryRun (with_recording w t env) sp) as [c1 s1].
  destruct (entry_after_prologue site attempt dryRun env sp) as [c2 s2].
  cbn [fst snd] in *. congruence.
Qed.

Lemma run_allowed_outcome site attempt env f f' :
  browser_code any_action true _ attempt ->
  fst (checkRateLimit site env (announced site f)) = Normal true ->
  fst (checkRateLimit site env (announced site f')) = Normal true ->
  fst (run (entry_function site attempt false) env f)
  = fst (run (entry_function site attempt false) env f').
Proof.
  intros B A A'. unfold run, entry_function, bind.
  rewrite (entry_prologue_allowed _ _ _ A), (entry_prologue_allowed _ _ _ A').
  destruct (checkRateLimit_answers site env (announced site f)) as (_ & _ & _ & (T & _) & _).
  destruct (checkRateLimit_answers site env (announced site f')) as (_ & _ & _ & (T' & _) & _).
  pose proof (after_prologue_oblivious site attempt false env env
                (entered site (snd (checkRateLimit site env (announced site f))))
                (entered site (snd (checkRateLimit site env (announced site f'))))
                B (conj eq_refl eq_refl)) as E.
  destruct (entry_after_prologue site attempt false env
              (entered site (snd (checkRateLimit site env (announced site f))))) as [c1 s1].
  destruct (entry_after_prologue site attempt false env
              (entered site (snd (checkRateLimit site env (announced site f'))))) as [c2 s2].
  cbn [fst snd] in *. rewrite E; [reflexivity|].
  unfold same_view, entered. cbn. rewrite T, T'. auto.
Qed.

(** C10. [saveSubmissionRecord] always ends normally: whatever the read,
    the parse or the write of the submissions file throws is caught and
    logged inside it, and the file stays as it was.  So the outcome that
    [submitHGTVEntry] returns is the same whether the write goes through
    or throws, and with a ledger that cannot be read or parsed it is the
    same as with no ledger at all. *)
Theorem recording_cannot_change_outcome :
  (forall site success error env s,
      fst (saveSubmissionRecord site success error env s) = Normal tt)
  /\ (forall site success error env s e,
        file s = Unreadable e \/ file s = Holds (Garbage e)
        \/ (ledger_of (file s) <> None /\ write_error env = Some e) ->
        file (snd (saveSubmissionRecord site success error env s)) = file s
        /\ logs (snd (saveSubmissionRecord site success error env s)) =
           (logs s ++ [Line Error ("Failed to save submission record: " ++ e)])%list)
  /\ (forall dryRun env f w t,
        fst (run (submitHGTVEntry dryRun) (with_recording w t env) f)
        = fst (run (submitHGTVEntry dryRun) env f))
  /\ (forall env f e,
        f = Unreadable e \/ f = Holds (Garbage e) ->
        fst (run (submitHGTVEntry false) env f) = fst (run (submitHGTVEntry false) env Absent)).
Proof.
  split; [|split; [|split]].
  - intros. apply saveSubmissionRecord_returns.
  - intros site success error env s e H.
    destruct (saveSubmissionRecord_swallows site success error env s e H) as (_ & F & L). auto.
  - intros. rewrite !submitHGTVEntry_shape. apply run_ignores_recording, bc_hgtv_attempt.
  - intros env f e H. rewrite !submitHGTVEntry_shape.
    apply run_allowed_outcome; [apply bc_hgtv_attempt| |].
    + apply (checkRateLimit_on_unreadable "hgtv" env (announced "hgtv" f) e).
      destruct H as [->| ->]; auto.
    + rewrite checkRateLimit_on_absent; reflexivity.
Qed.


(* ================================================================== *)
(** ** The submission classifier *)
(* ================================================================== *)

Lemma prefix_append n post : String.prefix n (n ++ post) = true.
Proof.
  induction n as [|c n IH]; cbn; [destruct post; reflexivity|].
  destruct (ascii_dec c c); [exact IH|contradiction].
Qed.


Lemma prefix_split n : forall s, String.prefix n s = true -> exists post, s = n ++ post.
Proof.
  induction n as [|c n IH]; intros s H.
  - exists s. reflexivity.
  - destruct s as [|c' s]; cbn in H; [discriminate|].
    destruct (ascii_dec c c'); [|discriminate]. subst c'.
    destruct (IH s H) as [post ->]. exists post. reflexivity.
Qed.



Lemma browser_code_logs ok sets A (m : M A) :
  browser_code ok sets A m ->
  forall env s l, In l (logs s) -> In l (logs (snd (m env s))).
Proof.
  induction 1; intros env s l I; cbn; auto.
  - unfold bind. specialize (IHbrowser_code env s l I).
    destruct (m env s) as [[a|b|e] s1]; cbn in *; auto.
  - unfold try_catch. specialize (IHbrowser_code env s l I).
    destruct (m env s) as [[a|b|e] s1]; cbn in *; auto.
  - unfold try_finally. specialize (IHbrowser_code1 env s l I).
    destruct (m env s) as [c1 s1]; cbn in *.
    specialize (IHbrowser_code2 env s1 l IHbrowser_code1).
    destruct (f env s1) as [[u|b|e] s2]; cbn in *; auto.
  - unfold call. destruct (page env T (trace s) c); cbn; auto.
  - apply in_or_app. auto.
  - apply in_or_app. auto.
Qed.

Lemma saveSubmissionRecord_logs site success error env s l :
  In l (logs s) -> In l (logs (snd (saveSubmissionRecord site success error env s))).
Proof.
  intros I.
  unfold saveSubmissionRecord, try_catch, bind, existsSync_submissions,
    readFileSync_submissions, writeFileSync_submissions, new_Date_in_record.
  destruct (file s) as [|e|[e|l']] eqn:F; destruct (write_error env) eqn:W;
    repeat (cbn -[Nat.ltb slice_last]; rewrite ?F, ?W); try (apply in_or_app; auto).
Qed.


(** Step 6 outside a dry run, by the end of the click-and-read sequence. *)
Lemma hgtv_submit_classifies iframe env s2 :
  match hgtv_click_and_read iframe env (with_log (Line Info "[HGTV] Submitting entry...") s2) with
  | (Normal text, s3) =>
      hgtv_submit false iframe env s2 =
      (Normal tt,
       with_success true
         (with_log (if has_success_keyword text
                    then Line Info "✅ Entry submitted successfully!"
                    else Line Warn "Submission status unclear, check screenshot") s3))
  | (Throw e, s3) =>
      fst (hgtv_submit false iframe env s2) = Normal tt
      /\ var_success (snd (hgtv_submit false iframe env s2)) = var_success s2
      /\ In (Line Error ("❌ Submission failed: " ++ e)) (logs (snd (hgtv_submit false iframe env s2)))
  | (Return b, s3) => True
  end.
Proof.
  unfold hgtv_submit, bind, try_catch.
  change (log_sweepstakes "hgtv" "Submitting entry..." env s2)
    with (Normal tt, with_log (Line Info "[HGTV] Submitting entry...") s2).
  cbv iota beta.
  destruct (browser_code_frame _ _ _ _ (bc_hgtv_click_and_read iframe) env
              (with_log (Line Info "[HGTV] Submitting entry...") s2)) as (_ & _ & K & _).
  specialize (K eq_refl).
  destruct (hgtv_click_and_read iframe env _) as [[text|b|e] s3]; auto.
  - destruct (has_success_keyword text); reflexivity.
  - cbn [fst snd] in K.
    change (log_failure ("Submission failed: " ++ e) env s3)
      with (Normal tt, with_log (Line Error ("❌ Submission failed: " ++ e)) s3).
    cbv iota beta.
    pose proof (takeScreenshot_returns ThePage "hgtv-07-submit-error" env
                  (with_log (Line Error ("❌ Submission failed: " ++ e)) s3)) as R.
    destruct (browser_code_frame _ _ _ _ (bc_takeScreenshot ThePage "hgtv-07-submit-error") env
                (with_log (Line Error ("❌ Submission failed: " ++ e)) s3)) as (_ & _ & K' & _).
    pose proof (browser_code_logs _ _ _ _ (bc_takeScreenshot ThePage "hgtv-07-submit-error") env
                  (with_log (Line Error ("❌ Submission failed: " ++ e)) s3)
                  (Line Error ("❌ Submission failed: " ++ e))) as G.
    destruct (takeScreenshot ThePage "hgtv-07-submit-error" env _) as [c s4].
    cbn [fst snd] in *. subst c. repeat split.
    + rewrite K' by reflexivity. exact K.
    + apply G. cbn. apply in_or_app. right. left. reflexivity.
Qed.

(** [clickButton] and [takeScreenshot], by what the environment answers
    after the history of the store they start from. *)
Lemma clickButton_runs frame selector waitTime env s :
  fst (clickButton frame selector waitTime env s)
  = match clickButton_error env (trace s) frame selector with
    | Some e => Throw e
    | None => Normal tt
    end
  /\ trace (snd (clickButton frame selector waitTime env s))
     = (trace s ++ clickButton_trace env (trace s) frame selector waitTime)%list.
Proof.
  unfold clickButton, clickButton_error, clickButton_trace, try_catch, bind, call, sleep, log,
    throw.
  destruct (page env unit (trace s) _) as [[]|e]; cbn [fst snd trace with_action with_log].
  2:{ auto. }
  destruct (page env unit (trace s ++ _) (Click frame selector)) as [[]|e];
    cbn [fst snd trace with_action with_log].
  - rewrite <- !app_assoc. auto.
  - replace ((trace s ++ [Did (WaitForSelector (OnFrame frame) selector 5000)])
             ++ [Did (Click frame selector)])%list
      with (trace s ++ [Did (WaitForSelector (OnFrame frame) selector 5000);
                        Did (Click frame selector)])%list
      by (rewrite <- app_assoc; reflexivity).
    destruct (page env unit _ (EvaluateClick frame selector)) as [[]|e'];
      cbn [fst snd trace with_action with_log]; rewrite <- !app_assoc; auto.
Qed.

Lemma takeScreenshot_runs p name env s :
  trace (snd (takeScreenshot p name env s))
  = (trace s ++ takeScreenshot_trace env (trace s) p name)%list.
Proof.
  unfold takeScreenshot, takeScreenshot_trace, try_catch, bind, call, log, ret.
  destruct (page env bool (trace s) ScreenshotsDirExists) as [[|]|e];
    cbn [fst snd trace with_action with_log negb]; auto.
  - destruct (page env string _ (Screenshot p name)) as [n|e];
      cbn [fst snd trace with_action with_log]; rewrite <- ?app_assoc; auto.
  - destruct (page env unit _ MkdirScreenshots) as [[]|e];
      cbn [fst snd trace with_action with_log]; rewrite <- ?app_assoc; auto.
    destruct (page env string _ (Screenshot p name)) as [n|e];
      cbn [fst snd trace with_action with_log]; rewrite <- ?app_assoc; auto.
Qed.

(** The statements of the inner [try] of step 6 up to the test, for
    either entry function: the page text that the test reads is what the
    page answers after the click, the settle wait and the screenshot. *)
Lemma click_and_read_runs name iframe env s :
  let reading :=
    (clickButton iframe ".xSubmit" 5000 ;;
     sleep 3000 ;;
     takeScreenshot ThePage name ;;
     call BodyInnerText) env s in
  match clickButton_error env (trace s) iframe ".xSubmit" with
  | Some e => fst reading = Throw e
  | None =>
      trace (snd reading) = (settled_history env (trace s) iframe name ++ [Did BodyInnerText])%list
      /\ fst reading
         = match page env string (settled_history env (trace s) iframe name) BodyInnerText with
           | Ok text => Normal text
           | Throws e => Throw e
           end
  end.
Proof.
  intros reading. subst reading. unfold bind.
  destruct (clickButton_runs iframe ".xSubmit" 5000 env s) as [R T].
  destruct (clickButton iframe ".xSubmit" 5000 env s) as [c sa]. cbn [fst snd] in R, T.
  destruct (clickButton_error env (trace s) iframe ".xSubmit") as [e|]; subst c; [reflexivity|].
  change (sleep 3000 env sa) with (Normal tt, with_action (Slept 3000) sa). cbv iota beta.
  pose proof (takeScreenshot_returns ThePage name env (with_action (Slept 3000) sa)) as Rs.
  pose proof (takeScreenshot_runs ThePage name env (with_action (Slept 3000) sa)) as Ts.
  destruct (takeScreenshot ThePage name env _) as [c sc]. cbn [fst snd] in Rs, Ts. subst c.
  assert (Ts' : trace sc = settled_history env (trace s) iframe name).
  { rewrite Ts. cbn [trace with_action]. rewrite T. unfold settled_history.
    rewrite <- (app_assoc (trace s)). reflexivity. }
  unfold call. rewrite Ts'.
  destruct (page env string _ BodyInnerText) as [text|e]; cbn [fst snd trace with_action];
    rewrite Ts'; auto.
Qed.



(* ================================================================== *)
(** ** The form locator *)
(* ================================================================== *)

Lemma match_data_src_here_relative s u : match_data_src_here s = Some u -> startsWith u "//" = true.
Proof.
  unfold match_data_src_here. destruct (strip_prefix _ s); [|discriminate].
  destruct (take_until_quote s0) as [[|c tail]|]; try discriminate.
  intros [= <-]. reflexivity.
Qed.

Lemma match_data_src_relative html u : match_data_src html = Some u -> startsWith u "//" = true.
Proof.
  induction html as [|c html IH]; cbn [match_data_src].
  - destruct (match_data_src_here "") eqn:E; [|discriminate].
    intros [= <-]. apply (match_data_src_here_relative _ _ E).
  - destruct (match_data_src_here (String c html)) eqn:E.
    + intros [= <-]. apply (match_data_src_here_relative _ _ E).
    + exact IH.
Qed.

Lemma match_data_src_truthy html u : match_data_src html = Some u -> truthy u = true.
Proof.
  intros H. apply match_data_src_relative in H. destruct u; [discriminate|reflexivity].
Qed.

(** The fallback of [hgtv_locate], once [waitForIframe] has thrown. *)
Lemma hgtv_locate_fallback env s e s1 :
  waitForIframe env s = (Throw e, s1) ->
  (forall u,
      page env _ (trace s1) DataSrcAttribute = Ok (Some u) ->
      truthy u = true ->
      let url := if startsWith u "//" then "https:" ++ u else u in
      trace (snd (hgtv_locate env s)) = (trace s1 ++ [Did DataSrcAttribute; Did (Goto url None)])%list
      /\ (page env _ (trace s1 ++ [Did DataSrcAttribute]) (Goto url None) = Ok tt ->
          fst (hgtv_locate env s) = Normal MainFrame))
  /\ (forall html u,
        page env _ (trace s1) DataSrcAttribute = Ok None ->
        page env _ (trace s1 ++ [Did DataSrcAttribute]) Content = Ok html ->
        match_data_src html = Some u ->
        startsWith u "//" = true
        /\ trace (snd (hgtv_locate env s)) =
           (trace s1 ++ [Did DataSrcAttribute; Did Content; Did (Goto ("https:" ++ u) None)])%list
        /\ (page env _ (trace s1 ++ [Did DataSrcAttribute; Did Content])
                  (Goto ("https:" ++ u) None) = Ok tt ->
            fst (hgtv_locate env s) = Normal MainFrame))
  /\ (forall html,
        page env _ (trace s1) DataSrcAttribute = Ok None ->
        page env _ (trace s1 ++ [Did DataSrcAttribute]) Content = Ok html ->
        match_data_src html = None ->
        exists e', fst (hgtv_locate env s) = Throw e').
Proof.
  intros W. unfold hgtv_locate, try_catch. rewrite W. unfold bind, log, call. cbn [trace with_log].
  split; [|split].
  - intros u A T. set (url := if startsWith u "//" then "https:" ++ u else u).
    rewrite A. cbn [negb truthy_opt with_action with_log trace]. rewrite T.
    cbn [negb ret]. rewrite T. fold url. cbn [trace with_log with_action].
    destruct (page env unit (trace s1 ++ [Did DataSrcAttribute]) (Goto url None)) eqn:G; cbn;
      rewrite <- app_assoc; split; try reflexivity; try discriminate.
  - intros html u A H Mt. rewrite A. cbn [negb truthy_opt with_action with_log trace]. rewrite H, Mt.
    cbn [ret]. rewrite (match_data_src_truthy _ _ Mt), (match_data_src_relative _ _ Mt).
    split; [reflexivity|]. cbn [trace with_log with_action]. rewrite <- app_assoc. cbn [app].
    destruct (page env unit (trace s1 ++ [Did DataSrcAttribute; Did Content])
                (Goto ("https:" ++ u) None)) eqn:G; cbn;
      rewrite <- !app_assoc; split; try reflexivity; try discriminate.
  - intros html A H Mt. rewrite A. cbn [negb truthy_opt with_action with_log trace]. rewrite H, Mt.
    cbn [ret]. unfold hgtv_no_url, bind, call, log, throw. cbn [trace with_action].
    repeat (ask; eauto).
Qed.


Lemma poll_frames_finds budget : forall env s,
  match fst (poll_frames budget env s) with
  | Normal (Some url) => includes url "xd.wayin.com" || includes url "wayin.com" = true
  | Normal None => True
  | Return _ => False
  | Throw _ => True
  end.
Proof.
  induction budget as [|budget IH]; intros env s; cbn [poll_frames]; [exact I|].
  unfold bind, call.
  destruct (page env _ (trace s) Frames) as [frames|e]; cbn; [|exact I].
  destruct (find _ frames) as [url|] eqn:F; cbn.
  - apply find_some in F. tauto.
  - apply IH.
Qed.

Lemma log_frames_returns frames : forall idx env s,
  fst (log_frames idx frames env s) = Normal tt.
Proof.
  induction frames as [|url rest IH]; intros idx env s; cbn [log_frames]; [reflexivity|].
  unfold bind, log. apply IH.
Qed.

(** The primary path returns a frame of the form-hosting domain, or
    throws. *)
Lemma waitForIframe_finds env s :
  match fst (waitForIframe env s) with
  | Normal (EmbeddedFrame url) => includes url "xd.wayin.com" || includes url "wayin.com" = true
  | Normal MainFrame => False
  | Return _ => False
  | Throw _ => True
  end.
Proof.
  unfold waitForIframe, try_catch, bind, call, log, throw. cbn.
  ask; [|exact I].
  match goal with |- context [poll_frames ?n ?e ?st] =>
    pose proof (poll_frames_finds n e st) as P; destruct (poll_frames n e st) as [[[url|]|b|e'] s'] end;
    cbn in *; auto.
  ask; [|exact I].
  match goal with |- context [log_frames ?i ?l ?e ?st] =>
    pose proof (log_frames_returns l i e st) as R; destruct (log_frames i l e st) as [c s''] end.
  cbn in R. subst c. exact I.
Qed.

Lemma entry_prologue_normal site dryRun env f sp :
  entry_prologue site dryRun env (initial_store f) = (Normal tt, sp) ->
  var_success sp = false.
Proof.
  destruct dryRun.
  - rewrite entry_prologue_dry. intros [= <-]. reflexivity.
  - rewrite entry_prologue_checked.
    destruct (checkRateLimit site env (announced site f)) as [[[|]|b|e] s]; try discriminate.
    intros [= <-]. reflexivity.
Qed.

(** When the form cannot be located the run fails, and nothing after the
    failed attempt looks for the form again. *)
Lemma hgtv_locate_fatal dryRun env f sp s e' s4 :
  entry_prologue "hgtv" dryRun env (initial_store f) = (Normal tt, sp) ->
  (hgtv_navigate ;; initialInteraction) env sp = (Normal tt, s) ->
  hgtv_locate env s = (Throw e', s4) ->
  fst (run (submitHGTVEntry dryRun) env f) <> Resolved true
  /\ exists rest,
      trace (snd (run (submitHGTVEntry dryRun) env f)) = (trace s4 ++ rest)%list
      /\ forallb not_locate_action rest = true.
Proof.
  intros P N Lc.
  pose proof (entry_prologue_normal _ _ _ _ _ P) as Sp.
  assert (Sn : var_success s = false).
  { assert (B : browser_code any_action false _ (hgtv_navigate ;; initialInteraction))
      by (unfold hgtv_navigate, initialInteraction; bc).
    destruct (browser_code_frame _ _ _ _ B env sp) as (_ & _ & K & _).
    rewrite N in K. cbn in K. rewrite K; auto. }
  assert (S4 : var_success s4 = false).
  { assert (B : browser_code any_action false _ hgtv_locate) by (unfold hgtv_locate; bc).
    destruct (browser_code_frame _ _ _ _ B env s) as (_ & _ & K & _).
    rewrite Lc in K. cbn in K. rewrite K; auto. }
  assert (T : hgtv_try dryRun env sp = (Throw e', s4)).
  { unfold hgtv_try, hgtv_through_fill, bind in *.
    destruct (hgtv_navigate env sp) as [[[]|b|e] sn]; try discriminate.
    rewrite N, Lc. reflexivity. }
  unfold run. rewrite submitHGTVEntry_shape. unfold entry_function, bind. rewrite P.
  rewrite entry_after_prologue_run. unfold try_catch. rewrite T.
  destruct (browser_code_frame _ _ _ _ (bc_hgtv_catch e') env s4) as (_ & _ & K5 & n5 & T5 & O5).
  pose proof (browser_code_returns_false _ _ _ _ (bc_hgtv_catch e') env s4) as RF.
  destruct (hgtv_catch e' env s4) as [c5 s5]. cbn [fst snd] in *.
  destruct (browser_code_frame _ _ _ _ bc_closeBrowser env s5) as (_ & _ & K6 & n6 & T6 & O6).
  pose proof (closeBrowser_no_return env s5) as NR.
  destruct (closeBrowser env s5) as [c6 s6]. cbn [fst snd] in *.
  assert (Q : forall n, forallb quiet n = true -> forallb not_locate_action n = true).
  { intros n H. rewrite forallb_forall in *. intros a Ia. apply quiet_not_locate, H, Ia. }
  assert (Tr : trace s6 = (trace s4 ++ n5 ++ n6)%list) by (rewrite T6, T5, app_assoc; reflexivity).
  assert (Or : forallb not_locate_action (n5 ++ n6) = true)
    by (rewrite forallb_app, (Q _ O5), (Q _ O6); reflexivity).
  assert (S6 : var_success s6 = false) by (rewrite K6, K5 by reflexivity; exact S4).
  destruct c6 as [[]|b|e].
  - assert (Tf : trace (if dryRun then s6
                        else snd (saveSubmissionRecord "hgtv" (var_success s6)
                                    (if var_success s6 then None else Some "See logs for details")
                                    env s6)) = trace s6).
    { destruct dryRun; [reflexivity|].
      destruct (saveSubmissionRecord_returns "hgtv" (var_success s6)
                  (if var_success s6 then None else Some "See logs for details") env s6)
        as (_ & Tq & _). exact Tq. }
    destruct c5 as [[]|b|e]; cbn [fst snd settle]; rewrite Tf.
    + split; [rewrite S6; discriminate|eauto].
    + split; [rewrite (RF b eq_refl); discriminate|eauto].
    + split; [discriminate|eauto].
  - destruct (NR b eq_refl).
  - cbn. split; [discriminate|eauto].
Qed.


(** C8. The primary path returns a frame whose URL names the form-hosting
    domain, or throws.  When it throws, the run reads the data-src
    attribute of the ngxFrame iframe element and, when that is absent,
    scans the page markup for a data-src URL under //xd.wayin.com/; a URL
    that was found is prefixed with https: when it begins with //, the
    page navigates to it, and the main frame becomes the form session on
    which the form steps run; when neither gives a URL the locate step
    throws, the run does not return true, and nothing after the failed
    attempt looks for the form again. *)
Theorem form_locator_fallback env s :
  match fst (waitForIframe env s) with
  | Normal (EmbeddedFrame url) => includes url "xd.wayin.com" || includes url "wayin.com" = true
  | Normal MainFrame => False
  | Return _ => False
  | Throw _ => True
  end
  /\ (forall e s1,
        waitForIframe env s = (Throw e, s1) ->
        (forall u,
            page env _ (trace s1) DataSrcAttribute = Ok (Some u) ->
            truthy u = true ->
            let url := if startsWith u "//" then "https:" ++ u else u in
            trace (snd (hgtv_locate env s)) =
            (trace s1 ++ [Did DataSrcAttribute; Did (Goto url None)])%list
            /\ (page env _ (trace s1 ++ [Did DataSrcAttribute]) (Goto url None) = Ok tt ->
                fst (hgtv_locate env s) = Normal MainFrame))
        /\ (forall html u,
              page env _ (trace s1) DataSrcAttribute = Ok None ->
              page env _ (trace s1 ++ [Did DataSrcAttribute]) Content = Ok html ->
              match_data_src html = Some u ->
              startsWith u "//" = true
              /\ trace (snd (hgtv_locate env s)) =
                 (trace s1 ++ [Did DataSrcAttribute; Did Content;
                               Did (Goto ("https:" ++ u) None)])%list
              /\ (page env _ (trace s1 ++ [Did DataSrcAttribute; Did Content])
                        (Goto ("https:" ++ u) None) = Ok tt ->
                  fst (hgtv_locate env s) = Normal MainFrame))
        /\ (forall html dryRun f sp,
              page env _ (trace s1) DataSrcAttribute = Ok None ->
              page env _ (trace s1 ++ [Did DataSrcAttribute]) Content = Ok html ->
              match_data_src html = None ->
              (exists e', fst (hgtv_locate env s) = Throw e')
              /\ (entry_prologue "hgtv" dryRun env (initial_store f) = (Normal tt, sp) ->
                  (hgtv_navigate ;; initialInteraction) env sp = (Normal tt, s) ->
                  fst (run (submitHGTVEntry dryRun) env f) <> Resolved true
                  /\ exists rest,
                      trace (snd (run (submitHGTVEntry dryRun) env f)) =
                      (trace (snd (hgtv_locate env s)) ++ rest)%list
                      /\ forallb not_locate_action rest = true)))
  /\ (forall sp session s',
        (hgtv_navigate ;; initialInteraction) env sp = (Normal tt, s) ->
        hgtv_locate env s = (Normal session, s') ->
        hgtv_through_fill env sp = (hgtv_fill session ;; ret session) env s').
Proof.
  split; [apply waitForIframe_finds|]. split.
  - intros e s1 W. destruct (hgtv_locate_fallback env s e s1 W) as (A & B & C).
    split; [exact A|]. split; [exact B|].
    intros html dryRun f sp Hattr Hhtml Hnone.
    destruct (C html Hattr Hhtml Hnone) as [e' E]. split; [eauto|].
    intros P N. destruct (hgtv_locate env s) as [c s4] eqn:Lc. cbn [fst snd] in *. subst c.
    apply (hgtv_locate_fatal dryRun env f sp s e' s4 P N Lc).
  - intros sp session s' N Lc. unfold hgtv_through_fill, bind in *.
    destruct (hgtv_navigate env sp) as [[[]|b|e] sn]; try discriminate.
    rewrite N, Lc. reflexivity.
Qed.

(* ================================================================== *)
(** ** The helpers of [src/utils.js], call by call *)
(* ================================================================== *)

(** X1. [fillFormField] never throws: whatever the frame answers, the call
    completes normally.  The selector it uses begins with a hash sign; it
    waits for the field first, fills it only when the wait succeeded, with
    [select] or [type] as [isSelect] says, and pauses only after a fill
    that succeeded.  It never touches the submissions file. *)
Theorem fillFormField_swallows frame selector value (isSelect : bool) env s :
  let finalSelector := if startsWith selector "#" then selector else "#" ++ selector in
  let wait := WaitForSelector (OnFrame frame) finalSelector 5000 in
  let fill := if isSelect then SelectOption frame finalSelector value
              else TypeInto frame finalSelector value 50 in
  let r := fillFormField frame selector value isSelect env s in
  fst r = Normal tt
  /\ startsWith finalSelector "#" = true
  /\ file (snd r) = file s
  /\ trace (snd r) =
     (trace s ++
      match page env unit (trace s) wait with
      | Throws _ => [Did wait]
      | Ok _ =>
          match page env unit (trace s ++ [Did wait]) fill with
          | Throws _ => [Did wait; Did fill]
          | Ok _ => [Did wait; Did fill; Slept 300]
          end
      end)%list.
Proof.
  intros finalSelector wait fill r.
  assert (P : startsWith finalSelector "#" = true).
  { subst finalSelector. destruct (startsWith selector "#") eqn:E; [exact E|].
    unfold startsWith. cbn. destruct (ascii_dec "#" "#"); [|congruence].
    destruct selector; reflexivity. }
  subst r. unfold fillFormField, try_catch, bind, call, sleep, log.
  fold finalSelector. fold wait.
  destruct (page env unit (trace s) wait) as [[]|e]; cbn [fst snd trace with_action with_log file].
  2:{ auto. }
  subst fill. destruct isSelect; cbn [fst snd trace with_action with_log file];
    match goal with
    | |- context [page env unit ?h ?c] => destruct (page env unit h c) as [[]|e']
    end; cbn [fst snd trace with_action with_log file]; rewrite <- ?app_assoc; auto.
Qed.

(** X2. [clickButton] tries the native click and, when that throws, the click
    from inside the page; the error of the native click never leaves the
    function.  It throws exactly when the wait for the control throws or
    the click from inside the page throws, with that error; it pauses for
    [waitTime] exactly when one of the two clicks went through. *)
Theorem clickButton_falls_back frame selector waitTime env s :
  let wait := Did (WaitForSelector (OnFrame frame) selector 5000) in
  let click := Did (Click frame selector) in
  let jsClick := Did (EvaluateClick frame selector) in
  let r := clickButton frame selector waitTime env s in
  match page env unit (trace s) (WaitForSelector (OnFrame frame) selector 5000) with
  | Throws e => fst r = Throw e /\ trace (snd r) = (trace s ++ [wait])%list
  | Ok _ =>
      match page env unit (trace s ++ [wait]) (Click frame selector) with
      | Ok _ =>
          fst r = Normal tt
          /\ trace (snd r) = (trace s ++ [wait; click; Slept waitTime])%list
      | Throws _ =>
          match page env unit (trace s ++ [wait; click]) (EvaluateClick frame selector) with
          | Ok _ =>
              fst r = Normal tt
              /\ trace (snd r) = (trace s ++ [wait; click; jsClick; Slept waitTime])%list
          | Throws e =>
              fst r = Throw e
              /\ trace (snd r) = (trace s ++ [wait; click; jsClick])%list
          end
      end
  end.
Proof.
  intros wait click jsClick r. subst r.
  unfold clickButton, try_catch, bind, call, sleep, log, throw.
  destruct (page env unit (trace s) _) as [[]|e]; cbn [fst snd trace with_action with_log].
  2:{ auto. }
  fold wait.
  destruct (page env unit (trace s ++ [wait]) (Click frame selector)) as [[]|e];
    cbn [fst snd trace with_action with_log].
  - rewrite <- !app_assoc. auto.
  - fold click. replace ((trace s ++ [wait]) ++ [click])%list with (trace s ++ [wait; click])%list
      by (rewrite <- app_assoc; reflexivity).
    destruct (page env unit (trace s ++ [wait; click]) (EvaluateClick frame selector)) as [[]|e'];
      cbn [fst snd trace with_action with_log]; rewrite <- !app_assoc; auto.
Qed.

(** X3. [handleCaptcha] never throws.  It answers true without a pause when
    the form shows no CAPTCHA; false when one is shown and a solver key is
    configured; true after a pause of sixty seconds when one is shown and
    no key is configured; false when the look for the CAPTCHA throws. *)
Theorem handleCaptcha_decides frame env s :
  let query := QuerySelector frame sel_recaptcha in
  let r := handleCaptcha frame env s in
  match page env bool (trace s) query with
  | Throws _ => fst r = Normal false /\ trace (snd r) = (trace s ++ [Did query])%list
  | Ok false => fst r = Normal true /\ trace (snd r) = (trace s ++ [Did query])%list
  | Ok true =>
      if truthy_opt (captcha_solverApiKey config)
      then fst r = Normal false /\ trace (snd r) = (trace s ++ [Did query])%list
      else fst r = Normal true /\ trace (snd r) = (trace s ++ [Did query; Slept 60000])%list
  end.
Proof.
  intros query r. subst r query.
  unfold handleCaptcha, try_catch, bind, call, sleep, log, ret.
  cbn [fst snd trace with_action with_log].
  destruct (page env bool (trace s) _) as [[|]|e]; cbn [fst snd trace with_action with_log negb]; auto.
  destruct (truthy_opt (captcha_solverApiKey config));
    cbn [fst snd trace with_action with_log]; rewrite <- ?app_assoc; auto.
Qed.

(** X4. [takeScreenshot] never throws and never touches the submissions
    file.  It creates the screenshots directory exactly when the directory
    is missing, and takes the shot only when the directory is there or
    could be created. *)
Theorem takeScreenshot_swallows p name env s :
  let r := takeScreenshot p name env s in
  fst r = Normal tt
  /\ file (snd r) = file s
  /\ trace (snd r) =
     (trace s ++
      match page env bool (trace s) ScreenshotsDirExists with
      | Throws _ => [Did ScreenshotsDirExists]
      | Ok true => [Did ScreenshotsDirExists; Did (Screenshot p name)]
      | Ok false =>
          match page env unit (trace s ++ [Did ScreenshotsDirExists]) MkdirScreenshots with
          | Throws _ => [Did ScreenshotsDirExists; Did MkdirScreenshots]
          | Ok _ => [Did ScreenshotsDirExists; Did MkdirScreenshots; Did (Screenshot p name)]
          end
      end)%list.
Proof.
  intros r. subst r. unfold takeScreenshot, try_catch, bind, call, log, ret.
  destruct (page env bool (trace s) ScreenshotsDirExists) as [[|]|e];
    cbn [fst snd trace with_action with_log file negb]; auto.
  - destruct (page env string _ (Screenshot p name)) as [n|e];
      cbn [fst snd trace with_action with_log file]; rewrite <- ?app_assoc; auto.
  - destruct (page env unit _ MkdirScreenshots) as [[]|e];
      cbn [fst snd trace with_action with_log file]; rewrite <- ?app_assoc; auto.
    destruct (page env string _ (Screenshot p name)) as [n|e];
      cbn [fst snd trace with_action with_log file]; rewrite <- ?app_assoc; auto.
Qed.

(** One round of the polling loop of [waitForIframe] that saw no form
    frame: a look at the frames and a pause of half a second. *)
Lemma poll_frames_times_out budget : forall env s,
  (forall h, match page env _ h Frames with
             | Ok frames =>
                 find (fun url => includes url "xd.wayin.com" || includes url "wayin.com") frames
                 = None
             | Throws _ => False
             end) ->
  fst (poll_frames budget env s) = Normal None
  /\ trace (snd (poll_frames budget env s)) =
     (trace s ++ List.concat (repeat [Did Frames; Slept 500] budget))%list
  /\ logs (snd (poll_frames budget env s)) = logs s.
Proof.
  induction budget as [|budget IH]; intros env s H; cbn [poll_frames repeat List.concat].
  - rewrite app_nil_r. auto.
  - unfold bind, call. pose proof (H (trace s)) as H0.
    destruct (page env _ (trace s) Frames) as [frames|e]; [|contradiction].
    rewrite H0. unfold sleep.
    destruct (IH env (with_action (Slept 500) (with_action (Did Frames) s)) H) as (R & T & L).
    rewrite R, T, L. cbn [trace with_action logs]. rewrite <- !app_assoc. auto.
Qed.

Lemma poll_frames_sees k : forall budget env s frames url,
  (k < budget)%nat ->
  (forall j, (j < k)%nat ->
     match page env _ (trace s ++ List.concat (repeat [Did Frames; Slept 500] j)) Frames with
     | Ok seen =>
         find (fun url => includes url "xd.wayin.com" || includes url "wayin.com") seen = None
     | Throws _ => False
     end) ->
  page env _ (trace s ++ List.concat (repeat [Did Frames; Slept 500] k)) Frames = Ok frames ->
  find (fun url => includes url "xd.wayin.com" || includes url "wayin.com") frames = Some url ->
  fst (poll_frames budget env s) = Normal (Some url)
  /\ trace (snd (poll_frames budget env s)) =
     (trace s ++ List.concat (repeat [Did Frames; Slept 500] k) ++ [Did Frames])%list.
Proof.
  induction k as [|k IH]; intros budget env s frames url B Before Now Found;
    (destruct budget as [|budget]; [lia|]); cbn [poll_frames]; unfold bind, call.
  - cbn [repeat List.concat] in Now. rewrite app_nil_r in Now. rewrite Now, Found.
    unfold log, ret. cbn. auto.
  - pose proof (Before 0%nat ltac:(lia)) as B0. cbn [repeat List.concat] in B0.
    rewrite app_nil_r in B0.
    destruct (page env _ (trace s) Frames) as [seen|e]; [|contradiction].
    rewrite B0. unfold sleep.
    set (s1 := with_action (Slept 500) (with_action (Did Frames) s)).
    assert (T1 : forall j, (trace s1 ++ List.concat (repeat [Did Frames; Slept 500] j))%list
                           = (trace s ++ List.concat (repeat [Did Frames; Slept 500] (S j)))%list).
    { intros j. subst s1. cbn [trace with_action repeat List.concat]. rewrite <- !app_assoc. reflexivity. }
    destruct (IH budget env s1 frames url ltac:(lia)) as (R & T).
    + intros j J. rewrite T1. apply Before. lia.
    + rewrite T1. exact Now.
    + exact Found.
    + rewrite R, T. split; [reflexivity|]. rewrite app_assoc, T1, <- app_assoc. reflexivity.
Qed.

Lemma log_frames_keeps_trace frames : forall idx env s,
  trace (snd (log_frames idx frames env s)) = trace s.
Proof.
  induction frames as [|url rest IH]; intros idx env s; cbn [log_frames]; [reflexivity|].
  unfold bind, log. rewrite IH. reflexivity.
Qed.

(** X5. When the iframe element is there but no frame of the form-hosting
    domain ever shows, [waitForIframe] gives up with the error Wayin iframe
    content did not load: it has looked at the frames once for every
    iteration that the deadline allowed, with a pause of half a second
    after each look, and once more for the diagnostic log. *)
Theorem waitForIframe_gives_up env s :
  page env unit (trace s) (WaitForSelector OnPage sel_ngxFrame 10000) = Ok tt ->
  (forall h, match page env _ h Frames with
             | Ok frames =>
                 find (fun url => includes url "xd.wayin.com" || includes url "wayin.com") frames
                 = None
             | Throws _ => False
             end) ->
  fst (waitForIframe env s) = Throw "Wayin iframe content did not load"
  /\ trace (snd (waitForIframe env s)) =
     (trace s ++ Did (WaitForSelector OnPage sel_ngxFrame 10000)
        :: List.concat (repeat [Did Frames; Slept 500] (poll_budget env)) ++ [Did Frames])%list
  /\ In (Line Error "Failed to load iframe: Wayin iframe content did not load")
        (logs (snd (waitForIframe env s))).
Proof.
  intros W H. unfold waitForIframe, try_catch, bind, call, log, throw.
  cbn [trace with_log]. rewrite W.
  match goal with |- context [poll_frames ?n ?e ?st] =>
    destruct (poll_frames_times_out n e st H) as (R & T & _);
    destruct (poll_frames n e st) as [c s1] end.
  cbn [fst snd] in R, T. subst c. cbn [trace with_action with_log] in T.
  pose proof (H (trace s1)) as H1.
  destruct (page env _ (trace s1) Frames) as [frames|e]; [|contradiction].
  match goal with |- context [log_frames ?i ?l ?e ?st] =>
    pose proof (log_frames_returns l i e st) as Rl;
    pose proof (log_frames_keeps_trace l i e st) as Tl;
    destruct (log_frames i l e st) as [c s2] end.
  cbn [fst snd] in Rl, Tl. subst c. cbn [fst snd trace with_log with_action logs] in *.
  split; [reflexivity|]. split.
  - rewrite Tl, T. rewrite <- !app_assoc. reflexivity.
  - apply in_or_app. right. left. reflexivity.
Qed.

(** X6. [waitForIframe] stops at the first look that shows a frame of the
    form-hosting domain: when the first [k] looks show none and the next
    one does, within the deadline, it returns the first such frame of that
    look, after [k] pauses and no further look. *)
Theorem waitForIframe_stops_at_first_sighting env s k frames url :
  page env unit (trace s) (WaitForSelector OnPage sel_ngxFrame 10000) = Ok tt ->
  (k < poll_budget env)%nat ->
  (forall j, (j < k)%nat ->
     match page env _ (trace s ++ Did (WaitForSelector OnPage sel_ngxFrame 10000)
                         :: List.concat (repeat [Did Frames; Slept 500] j)) Frames with
     | Ok seen =>
         find (fun url => includes url "xd.wayin.com" || includes url "wayin.com") seen = None
     | Throws _ => False
     end) ->
  page env _ (trace s ++ Did (WaitForSelector OnPage sel_ngxFrame 10000)
                :: List.concat (repeat [Did Frames; Slept 500] k)) Frames = Ok frames ->
  find (fun url => includes url "xd.wayin.com" || includes url "wayin.com") frames = Some url ->
  fst (waitForIframe env s) = Normal (EmbeddedFrame url)
  /\ trace (snd (waitForIframe env s)) =
     (trace s ++ Did (WaitForSelector OnPage sel_ngxFrame 10000)
        :: List.concat (repeat [Did Frames; Slept 500] k) ++ [Did Frames])%list.
Proof.
  intros W B Before Now Found. unfold waitForIframe, try_catch, bind, call, log, throw.
  cbn [trace with_log]. rewrite W.
  match goal with |- context [poll_frames ?n ?e ?st] =>
    destruct (poll_frames_sees k n e st frames url B) as (R & T);
    [ | | exact Found | destruct (poll_frames n e st) as [c s1] ] end.
  - intros j J. cbn [trace with_action with_log]. rewrite <- app_assoc. apply Before, J.
  - cbn [trace with_action with_log]. rewrite <- app_assoc. exact Now.
  - cbn [fst snd] in R, T. subst c. cbn [fst snd trace with_log with_action ret] in *.
    split; [reflexivity|]. rewrite T, <- !app_assoc. reflexivity.
Qed.

(* ================================================================== *)
(** ** The ledger, between the rate check and the record *)
(* ================================================================== *)

(** X7. The rate check only reads: it always answers, it never throws, it
    leaves the submissions file and the browser alone, and it writes
    nothing to the disk. *)
Theorem checkRateLimit_never_writes site env s :
  (exists allowed, fst (checkRateLimit site env s) = Normal allowed)
  /\ file (snd (checkRateLimit site env s)) = file s
  /\ trace (snd (checkRateLimit site env s)) = trace s
  /\ forall data, In (WroteSubmissions data) (disk (snd (checkRateLimit site env s))) ->
                  In (WroteSubmissions data) (disk s).
Proof.
  destruct (checkRateLimit_answers site env s) as (allowed & A & F & (T & _) & D).
  split; [eauto|]. split; [exact F|]. split; [exact T|].
  intros data I. destruct (D _ I) as [H|[H|H]]; [exact H|discriminate|discriminate].
Qed.

Lemma successes_of_without site l1 r l2 :
  (Submission.site r =? site) && Submission.success r = false ->
  successes_of site (l1 ++ r :: l2) = successes_of site (l1 ++ l2).
Proof.
  intros N. rewrite !successes_of_app. f_equal. unfold successes_of. cbn [filter].
  rewrite N. reflexivity.
Qed.

(** X8. The rate check of a site looks at the successes of that site only: a
    failed attempt, or a record of the other site, wherever it stands in
    the ledger and whatever its date, does not change the answer. *)
Theorem checkRateLimit_counts_only_own_successes site env s s' l1 r l2 :
  file s = Holds (Json (l1 ++ r :: l2)) ->
  file s' = Holds (Json (l1 ++ l2)) ->
  (Submission.site r =? site) && Submission.success r = false ->
  fst (checkRateLimit site env s) = fst (checkRateLimit site env s').
Proof.
  intros F F' N.
  destruct (checkRateLimit_on_ledger site env s _ F) as [R _].
  destruct (checkRateLimit_on_ledger site env s' _ F') as [R' _].
  rewrite R, R', (successes_of_without site l1 r l2 N). reflexivity.
Qed.

(** What the rate check answers on a store, by the ledger in its file. *)
Lemma checkRateLimit_by_ledger site env s l :
  ledger_of (file s) = Some l ->
  fst (checkRateLimit site env s) =
  Normal match nth_error (sort byNewest (successes_of site l)) 0 with
         | None => true
         | Some last =>
             negb (getETDate (Submission.timestamp last) =? getETDate (now_check env))
         end.
Proof.
  unfold ledger_of. destruct (file s) as [|e|[e|l']] eqn:F; try discriminate; intros [= <-].
  - rewrite (checkRateLimit_on_absent site env s F). reflexivity.
  - apply (checkRateLimit_on_ledger site env s l' F).
Qed.

(** X9. Recording a failure, or an entry of the other site, leaves the day
    open: in a ledger that has room, the rate check of a site answers
    after the record what it would have answered before. *)
Theorem failure_keeps_the_day_open site site' success error env env' s l :
  ledger_of (file s) = Some l ->
  write_error env = None ->
  (List.length l < 100)%nat ->
  (site' =? site) && success = false ->
  fst (checkRateLimit site env' (snd (saveSubmissionRecord site' success error env s)))
  = fst (checkRateLimit site env' s).
Proof.
  intros L W Room N.
  destruct (saveSubmissionRecord_persists site' success error env s l L W) as (_ & F & _).
  cbv zeta in F.
  assert (Short : (100 <? List.length (l ++ [Submission.mk site' success error (now_record env)]))%nat
                  = false).
  { apply Nat.ltb_ge. rewrite length_app. cbn. lia. }
  rewrite Short in F.
  rewrite (checkRateLimit_by_ledger site env' s l L).
  rewrite (checkRateLimit_by_ledger site env' _
             (l ++ [Submission.mk site' success error (now_record env)]))
    by (rewrite F; reflexivity).
  rewrite (successes_of_without site l (Submission.mk site' success error (now_record env)) [] N),
    app_nil_r.
  reflexivity.
Qed.

(** X10. The ledger remembers one hundred records and no more.  When it is
    full, the next record pushes the oldest one out, and with it what the
    rate check knew from it: if none of the other ninety-nine is a success
    of a site, nor the new record, the rate check of that site allows the
    next run, even when the record pushed out was a success of that site
    on the very same day. *)
Theorem full_ledger_forgets_oldest site site' success error env env' s oldest rest :
  file s = Holds (Json (oldest :: rest)) ->
  List.length rest = 99%nat ->
  write_error env = None ->
  successes_of site rest = [] ->
  (site' =? site) && success = false ->
  file (snd (saveSubmissionRecord site' success error env s))
  = Holds (Json (rest ++ [Submission.mk site' success error (now_record env)]))
  /\ fst (checkRateLimit site env' (snd (saveSubmissionRecord site' success error env s)))
     = Normal true.
Proof.
  intros F Len W None_ N.
  destruct (saveSubmissionRecord_persists site' success error env s (oldest :: rest)) as (_ & F' & _);
    [rewrite F; reflexivity|exact W|].
  cbv zeta in F'.
  assert (Long : (100 <? List.length ((oldest :: rest)
                                        ++ [Submission.mk site' success error (now_record env)]))%nat
                 = true).
  { apply Nat.ltb_lt. rewrite length_app. cbn. lia. }
  rewrite Long in F'.
  assert (Cut : slice_last 100 ((oldest :: rest)
                                  ++ [Submission.mk site' success error (now_record env)])
                = (rest ++ [Submission.mk site' success error (now_record env)])%list).
  { unfold slice_last. rewrite length_app. cbn [List.length app]. rewrite Len. reflexivity. }
  rewrite Cut in F'. split; [exact F'|].
  rewrite (checkRateLimit_by_ledger site env' _ _ ltac:(rewrite F'; reflexivity)).
  rewrite (successes_of_without site rest (Submission.mk site' success error (now_record env))
             [] N), app_nil_r, None_.
  reflexivity.
Qed.

Lemma StronglySorted_suffix {A} (R : A -> A -> Prop) dropped older :
  StronglySorted R (dropped ++ older) -> StronglySorted R older.
Proof.
  induction dropped as [|a dropped IH]; cbn; [auto|].
  intros H. apply StronglySorted_inv in H. apply IH, H.
Qed.

Lemma StronglySorted_snoc {A} (R : A -> A -> Prop) older r :
  StronglySorted R older -> (forall x, In x older -> R x r) -> StronglySorted R (older ++ [r]).
Proof.
  induction older as [|a older IH]; cbn; intros S All.
  - constructor; constructor.
  - apply StronglySorted_inv in S. destruct S as [S Fa]. constructor.
    + apply IH; auto.
    + apply Forall_app. split; [exact Fa|]. constructor; [auto|constructor].
Qed.

(** One run keeps the ledger in the order of the clock and within its
    bound. *)
Lemma ledger_step_in_order site attempt dryRun env f t l r s :
  browser_code any_action true _ attempt ->
  assigns_late attempt ->
  ledger_of f = Some l ->
  (forall x, In x l -> (Submission.timestamp x <= t)%Z) ->
  (List.length l <= 100)%nat ->
  StronglySorted (fun a b => (Submission.timestamp a <= Submission.timestamp b)%Z) l ->
  (t <= now_check env <= now_record env)%Z ->
  run (entry_function site attempt dryRun) env f = (r, s) ->
  exists l',
    ledger_of (file s) = Some l'
    /\ (forall x, In x l' -> (Submission.timestamp x <= now_record env)%Z)
    /\ (List.length l' <= 100)%nat
    /\ StronglySorted (fun a b => (Submission.timestamp a <= Submission.timestamp b)%Z) l'.
Proof.
  intros B L Lf Old Len Ord Clock R.
  assert (Same : file s = f -> exists l',
               ledger_of (file s) = Some l'
               /\ (forall x, In x l' -> (Submission.timestamp x <= now_record env)%Z)
               /\ (List.length l' <= 100)%nat
               /\ StronglySorted
                    (fun a b => (Submission.timestamp a <= Submission.timestamp b)%Z) l').
  { intros ->. exists l. split; [exact Lf|]. split; [|auto].
    intros x I. specialize (Old x I). lia. }
  destruct dryRun.
  { apply Same. pose proof (run_dry_file site attempt env f _ B) as F. rewrite R in F. exact F. }
  destruct (run_nondry_cases site attempt env f _ _ B L R)
    as [(_ & _ & ->)|(A & sb & Fb & [(e & _ & ->)|(b & -> & _)])].
  - apply Same. destruct (checkRateLimit_answers site env (announced site f)) as (_ & _ & F & _).
    exact F.
  - apply Same. exact Fb.
  - destruct (write_error env) as [e|] eqn:W.
    + apply Same.
      destruct (saveSubmissionRecord_swallows site b
                  (if b then None else Some "See logs for details") env sb e) as (_ & F & _).
      { right. right. split; [rewrite Fb, Lf; discriminate|exact W]. }
      congruence.
    + subst f.
      destruct (saveSubmissionRecord_persists site b
                  (if b then None else Some "See logs for details") env sb l Lf W) as (_ & F & _).
      destruct (appended_record_is_last l (outcome_record site b env))
        as (dropped & older & E & K).
      cbv zeta in F. unfold outcome_record in K. rewrite K in F. rewrite F.
      exists (older ++ [outcome_record site b env])%list.
      assert (Le : forall x, In x older -> (Submission.timestamp x <= now_record env)%Z).
      { intros x I. assert (Il : In x l) by (rewrite E; apply in_or_app; auto).
        specialize (Old x Il). lia. }
      split; [reflexivity|]. split; [|split].
      * intros x I. apply in_app_or in I. destruct I as [I|[<-|[]]]; [auto|cbn; lia].
      * unfold outcome_record. rewrite <- K.
        destruct (Nat.ltb_spec 100
                    (List.length (l ++ [Submission.mk site b
                                          (if b then None else Some "See logs for details")
                                          (now_record env)]))) as [Long|Short].
        -- rewrite slice_last_length. lia.
        -- exact Short.
      * apply StronglySorted_snoc.
        -- apply (StronglySorted_suffix _ dropped). rewrite <- E. exact Ord.
        -- intros x I. cbn. auto.
Qed.

(** X11. Every ledger that the entry functions have kept, under a clock that
    never goes back, is readable, holds at most one hundred records, and
    lists them oldest first. *)
Theorem kept_ledger_in_order f t :
  kept_ledger f t ->
  exists l,
    ledger_of f = Some l
    /\ (List.length l <= 100)%nat
    /\ StronglySorted (fun a b => (Submission.timestamp a <= Submission.timestamp b)%Z) l
    /\ forall x, In x l -> (Submission.timestamp x <= t)%Z.
Proof.
  induction 1 as [t|f t dryRun env r s K IH Clock R|f t dryRun env r s K IH Clock R].
  - exists []. split; [reflexivity|]. split; [cbn; lia|]. split; [constructor|intros x []].
  - destruct IH as (l & Lf & Len & Ord & Old). rewrite submitHGTVEntry_shape in R.
    destruct (ledger_step_in_order "hgtv" _ dryRun env f t l r s (bc_hgtv_attempt dryRun)
                (late_hgtv_attempt dryRun) Lf Old Len Ord Clock R) as (l' & Lf' & Old' & Len' & Ord').
    exists l'. auto.
  - destruct IH as (l & Lf & Len & Ord & Old). rewrite submitFoodNetworkEntry_shape in R.
    destruct (ledger_step_in_order "foodnetwork" _ dryRun env f t l r s
                (bc_foodnetwork_attempt dryRun) (late_foodnetwork_attempt dryRun)
                Lf Old Len Ord Clock R) as (l' & Lf' & Old' & Len' & Ord').
    exists l'. auto.
Qed.

(* ================================================================== *)
(** ** The fallback expression *)
(* ================================================================== *)

Lemma string_app_assoc (a b c : string) : (a ++ b) ++ c = a ++ b ++ c.
Proof. induction a as [|x a IH]; cbn; [reflexivity|]. rewrite IH. reflexivity. Qed.

Lemma string_length_app (a b : string) :
  String.length (a ++ b) = (String.length a + String.length b)%nat.
Proof. induction a as [|x a IH]; cbn; [reflexivity|]. rewrite IH. reflexivity. Qed.

Lemma substring_all s : substring 0 (String.length s) s = s.
Proof. induction s as [|c s IH]; cbn; [reflexivity|]. rewrite IH. reflexivity. Qed.

Lemma substring_skip p rest n : substring (String.length p) n (p ++ rest) = substring 0 n rest.
Proof. induction p as [|c p IH]; cbn; [reflexivity|]. exact IH. Qed.

Lemma strip_prefix_append p rest : strip_prefix p (p ++ rest) = Some rest.
Proof.
  unfold strip_prefix. rewrite prefix_append, substring_skip, string_length_app.
  replace (String.length p + String.length rest - String.length p)%nat
    with (String.length rest) by lia.
  rewrite substring_all. reflexivity.
Qed.

Lemma strip_prefix_split p s rest : strip_prefix p s = Some rest -> s = p ++ rest.
Proof.
  unfold strip_prefix. destruct (String.prefix p s) eqn:P; [|discriminate].
  destruct (prefix_split p s P) as [post ->]. intros [= <-].
  rewrite substring_skip, string_length_app.
  replace (String.length p + String.length post - String.length p)%nat
    with (String.length post) by lia.
  rewrite substring_all. reflexivity.
Qed.

(** A string without a double quote. *)
Lemma includes_dquote_cons c s :
  includes (String c s) (String dquote "") = negb (not_dquote c) || includes s (String dquote "").
Proof.
  cbn [includes String.prefix]. unfold not_dquote.
  destruct (ascii_dec dquote c) as [<-|N].
  - rewrite Ascii.eqb_refl. destruct s; reflexivity.
  - destruct (Ascii.eqb_spec c dquote) as [->|_]; [congruence|]. reflexivity.
Qed.

Lemma take_until_quote_split s : forall r,
  take_until_quote s = Some r ->
  includes r (String dquote "") = false /\ exists post, s = r ++ String dquote post.
Proof.
  induction s as [|c s IH]; cbn [take_until_quote]; intros r; [discriminate|].
  destruct (not_dquote c) eqn:Q.
  - destruct (take_until_quote s) as [r'|]; [|discriminate]. intros [= <-].
    destruct (IH r' eq_refl) as (N & post & ->). split.
    + rewrite includes_dquote_cons, Q, N. reflexivity.
    + exists post. reflexivity.
  - intros [= <-]. split; [reflexivity|]. exists s.
    unfold not_dquote in Q. apply negb_false_iff, Ascii.eqb_eq in Q. subst c. reflexivity.
Qed.

Lemma take_until_quote_append r : forall post,
  includes r (String dquote "") = false ->
  take_until_quote (r ++ String dquote post) = Some r.
Proof.
  induction r as [|c r IH]; intros post N.
  - reflexivity.
  - rewrite includes_dquote_cons in N. apply orb_false_iff in N. destruct N as [Q N].
    apply negb_false_iff in Q. cbn [String.append take_until_quote]. rewrite Q, (IH post N).
    reflexivity.
Qed.

Lemma match_data_src_here_sound s u :
  match_data_src_here s = Some u ->
  exists tail post,
    s = "data-src=" ++ quoted u ++ post
    /\ u = "//xd.wayin.com/" ++ tail
    /\ tail <> ""
    /\ includes tail (String dquote "") = false.
Proof.
  unfold match_data_src_here.
  destruct (strip_prefix _ s) as [rest|] eqn:P; [|discriminate].
  apply strip_prefix_split in P.
  destruct (take_until_quote rest) as [tail|] eqn:T; [|discriminate].
  destruct (take_until_quote_split rest tail T) as (N & post & ->).
  destruct tail as [|c tail]; [discriminate|]. intros [= <-].
  exists (String c tail), post. split; [|split; [reflexivity|split; [discriminate|exact N]]].
  rewrite P. unfold quoted. rewrite !string_app_assoc. cbn. reflexivity.
Qed.

Lemma match_data_src_here_complete tail post :
  tail <> "" ->
  includes tail (String dquote "") = false ->
  match_data_src_here ("data-src=" ++ quoted ("//xd.wayin.com/" ++ tail) ++ post)
  = Some ("//xd.wayin.com/" ++ tail).
Proof.
  intros NE N. unfold match_data_src_here.
  replace ("data-src=" ++ quoted ("//xd.wayin.com/" ++ tail) ++ post)
    with (String.append "data-src=" (String dquote "//xd.wayin.com/")
            ++ (tail ++ String dquote post)).
  2:{ unfold quoted. rewrite !string_app_assoc. cbn [String.append]. rewrite ?string_app_assoc.
      reflexivity. }
  rewrite strip_prefix_append, (take_until_quote_append tail post N).
  destruct tail; [congruence|reflexivity].
Qed.

(** X12. What the fallback expression captures is in the markup: the URL that
    [match_data_src] returns stands in the markup between double quotes,
    right after data-src=; it begins with //xd.wayin.com/, goes on with at
    least one more character, and holds no double quote. *)
Theorem match_data_src_sound html : forall u,
  match_data_src html = Some u ->
  exists pre tail post,
    html = pre ++ "data-src=" ++ quoted u ++ post
    /\ u = "//xd.wayin.com/" ++ tail
    /\ tail <> ""
    /\ includes tail (String dquote "") = false.
Proof.
  induction html as [|c html IH]; intros u; cbn [match_data_src].
  - destruct (match_data_src_here "") as [url|] eqn:H; [|discriminate].
    intros [= <-]. destruct (match_data_src_here_sound _ _ H) as (tail & post & E & R).
    exists "", tail, post. split; [exact E|exact R].
  - destruct (match_data_src_here (String c html)) as [url|] eqn:H.
    + intros [= <-]. destruct (match_data_src_here_sound _ _ H) as (tail & post & E & R).
      exists "", tail, post. split; [exact E|exact R].
    + intros M. destruct (IH u M) as (pre & tail & post & E & R).
      exists (String c pre), tail, post. split; [|exact R]. rewrite E. reflexivity.
Qed.

(** X13. The fallback expression misses nothing: when the markup holds
    data-src= followed, between double quotes, by //xd.wayin.com/ and at
    least one more character, none of them a double quote,
    [match_data_src] finds a URL; and when that text stands at the very
    beginning, it finds that one. *)
Theorem match_data_src_complete pre tail post :
  tail <> "" ->
  includes tail (String dquote "") = false ->
  match_data_src ("data-src=" ++ quoted ("//xd.wayin.com/" ++ tail) ++ post)
  = Some ("//xd.wayin.com/" ++ tail)
  /\ exists u,
      match_data_src (pre ++ "data-src=" ++ quoted ("//xd.wayin.com/" ++ tail) ++ post) = Some u.
Proof.
  intros NE N. pose proof (match_data_src_here_complete tail post NE N) as H.
  assert (Head : match_data_src ("data-src=" ++ quoted ("//xd.wayin.com/" ++ tail) ++ post)
                 = Some ("//xd.wayin.com/" ++ tail)).
  { remember ("data-src=" ++ quoted ("//xd.wayin.com/" ++ tail) ++ post) as m.
    destruct m; cbn [match_data_src]; rewrite H; reflexivity. }
  split; [exact Head|].
  induction pre as [|c pre IH]; [exists ("//xd.wayin.com/" ++ tail); exact Head|].
  destruct IH as [u IH].
  change (String c pre ++ "data-src=" ++ quoted ("//xd.wayin.com/" ++ tail) ++ post)
    with (String c (pre ++ "data-src=" ++ quoted ("//xd.wayin.com/" ++ tail) ++ post)).
  cbn [match_data_src]. rewrite IH.
  destruct (match_data_src_here (String c _)) as [url|]; eauto.
Qed.

(* ================================================================== *)
(** ** Blocks that never return, always complete, keep the browser *)
(* ================================================================== *)

Lemma nr_ret A (a : A) : never_returns (ret a).
Proof. intros env s b. discriminate. Qed.

Lemma nr_throw A e : never_returns (@throw A e).
Proof. intros env s b. discriminate. Qed.

Lemma nr_bind A B (m : M A) (k : A -> M B) :
  never_returns m -> (forall a, never_returns (k a)) -> never_returns (bind m k).
Proof.
  intros Hm Hk env s b. unfold bind. specialize (Hm env s).
  destruct (m env s) as [[a|b'|e] s1]; cbn in *;
    [apply Hk|destruct (Hm b' eq_refl)|discriminate].
Qed.

Lemma nr_try_catch A (m : M A) (h : string -> M A) :
  never_returns m -> (forall e, never_returns (h e)) -> never_returns (try_catch m h).
Proof.
  intros Hm Hh env s b. unfold try_catch. specialize (Hm env s).
  destruct (m env s) as [[a|b'|e] s1]; cbn in *;
    [discriminate|destruct (Hm b' eq_refl)|apply Hh].
Qed.

Lemma nr_call T (c : Call T) : never_returns (call c).
Proof. intros env s b. unfold call. destruct (page env T (trace s) c); discriminate. Qed.

Lemma nr_sleep ms : never_returns (sleep ms).
Proof. intros env s b. discriminate. Qed.

Lemma nr_log level text : never_returns (log level text).
Proof. intros env s b. discriminate. Qed.

Lemma nr_log_stack level e : never_returns (log_stack level e).
Proof. intros env s b. discriminate. Qed.

Lemma nr_get_browser : never_returns get_browser.
Proof. intros env s b. discriminate. Qed.

Lemma nr_set_browser v : never_returns (set_browser v).
Proof. intros env s b. discriminate. Qed.

Lemma nr_set_success v : never_returns (set_success v).
Proof. intros env s b. discriminate. Qed.

Lemma nr_poll_frames budget : never_returns (poll_frames budget).
Proof.
  induction budget as [|budget IH]; cbn [poll_frames]; [apply nr_ret|].
  apply nr_bind; [apply nr_call|intros frames].
  destruct (find _ frames).
  - apply nr_bind; [apply nr_log|intros _; apply nr_ret].
  - apply nr_bind; [apply nr_sleep|intros _; exact IH].
Qed.

Lemma nr_budget A (f : nat -> M A) :
  (forall n, never_returns (f n)) -> never_returns (fun env => f (poll_budget env) env).
Proof. intros H env s b. apply H. Qed.

Lemma nr_log_frames frames : forall idx, never_returns (log_frames idx frames).
Proof.
  induction frames as [|url rest IH]; intros idx; cbn [log_frames]; [apply nr_ret|].
  apply nr_bind; [apply nr_log|intros _; apply IH].
Qed.

Ltac nr_step :=
  first
    [ apply nr_ret | apply nr_throw | apply nr_log | apply nr_log_stack
    | apply nr_call | apply nr_sleep | apply nr_get_browser | apply nr_set_browser
    | apply nr_set_success
    | apply nr_budget; intros; apply nr_poll_frames
    | apply nr_log_frames
    | apply nr_bind; [ | intros ]
    | apply nr_try_catch; [ | intros ]
    | match goal with
      | |- never_returns (if ?b then _ else _) => destruct b
      | |- never_returns (match ?x with _ => _ end) => destruct x
      end ].

Ltac nr := cbv zeta; repeat nr_step.

Lemma nr_fillFormField frame selector value isSelect :
  never_returns (fillFormField frame selector value isSelect).
Proof. unfold fillFormField. nr. Qed.

Lemma nr_clickButton frame selector waitTime : never_returns (clickButton frame selector waitTime).
Proof. unfold clickButton. nr. Qed.

Lemma nr_takeScreenshot p name : never_returns (takeScreenshot p name).
Proof. unfold takeScreenshot. nr. Qed.

Lemma nr_waitForIframe : never_returns waitForIframe.
Proof. unfold waitForIframe. nr. Qed.

Lemma ac_ret A (a : A) : always_completes (ret a).
Proof. intros env s. exists a. reflexivity. Qed.

Lemma ac_bind A B (m : M A) (k : A -> M B) :
  always_completes m -> (forall a, always_completes (k a)) -> always_completes (bind m k).
Proof.
  intros Hm Hk env s. unfold bind. destruct (Hm env s) as [a R].
  destruct (m env s) as [c s1]. cbn in R. subst c. apply Hk.
Qed.

Lemma ac_try_catch A (m : M A) (h : string -> M A) :
  never_returns m -> (forall e, always_completes (h e)) -> always_completes (try_catch m h).
Proof.
  intros Hm Hh env s. unfold try_catch. specialize (Hm env s).
  destruct (m env s) as [[a|b|e] s1]; cbn in *; [eauto|destruct (Hm b eq_refl)|apply Hh].
Qed.

Lemma ac_log level text : always_completes (log level text).
Proof. intros env s. exists tt. reflexivity. Qed.

Lemma ac_takeScreenshot p name : always_completes (takeScreenshot p name).
Proof. intros env s. exists tt. apply takeScreenshot_returns. Qed.

Lemma kb_ret A (a : A) : keeps_browser (ret a).
Proof. intros env s. reflexivity. Qed.

Lemma kb_throw A e : keeps_browser (@throw A e).
Proof. intros env s. reflexivity. Qed.

Lemma kb_return A b : keeps_browser (@return_ A b).
Proof. intros env s. reflexivity. Qed.

Lemma kb_bind A B (m : M A) (k : A -> M B) :
  keeps_browser m -> (forall a, keeps_browser (k a)) -> keeps_browser (bind m k).
Proof.
  intros Hm Hk env s. unfold bind. specialize (Hm env s).
  destruct (m env s) as [[a|b|e] s1]; cbn in *; [rewrite Hk| |]; auto.
Qed.

Lemma kb_try_catch A (m : M A) (h : string -> M A) :
  keeps_browser m -> (forall e, keeps_browser (h e)) -> keeps_browser (try_catch m h).
Proof.
  intros Hm Hh env s. unfold try_catch. specialize (Hm env s).
  destruct (m env s) as [[a|b|e] s1]; cbn in *; [| |rewrite Hh]; auto.
Qed.

Lemma kb_call T (c : Call T) : keeps_browser (call c).
Proof. intros env s. unfold call. destruct (page env T (trace s) c); reflexivity. Qed.

Lemma kb_sleep ms : keeps_browser (sleep ms).
Proof. intros env s. reflexivity. Qed.

Lemma kb_log level text : keeps_browser (log level text).
Proof. intros env s. reflexivity. Qed.

Lemma kb_log_stack level e : keeps_browser (log_stack level e).
Proof. intros env s. reflexivity. Qed.

Lemma kb_get_browser : keeps_browser get_browser.
Proof. intros env s. reflexivity. Qed.

Lemma kb_set_success v : keeps_browser (set_success v).
Proof. intros env s. reflexivity. Qed.

Lemma kb_poll_frames budget : keeps_browser (poll_frames budget).
Proof.
  induction budget as [|budget IH]; cbn [poll_frames]; [apply kb_ret|].
  apply kb_bind; [apply kb_call|intros frames].
  destruct (find _ frames).
  - apply kb_bind; [apply kb_log|intros _; apply kb_ret].
  - apply kb_bind; [apply kb_sleep|intros _; exact IH].
Qed.

Lemma kb_budget A (f : nat -> M A) :
  (forall n, keeps_browser (f n)) -> keeps_browser (fun env => f (poll_budget env) env).
Proof. intros H env s. apply H. Qed.

Lemma kb_log_frames frames : forall idx, keeps_browser (log_frames idx frames).
Proof.
  induction frames as [|url rest IH]; intros idx; cbn [log_frames]; [apply kb_ret|].
  apply kb_bind; [apply kb_log|intros _; apply IH].
Qed.

Ltac kb_step :=
  first
    [ apply kb_ret | apply kb_throw | apply kb_return | apply kb_log | apply kb_log_stack
    | apply kb_call | apply kb_sleep | apply kb_get_browser | apply kb_set_success
    | apply kb_budget; intros; apply kb_poll_frames
    | apply kb_log_frames
    | apply kb_bind; [ | intros ]
    | apply kb_try_catch; [ | intros ]
    | match goal with
      | |- keeps_browser (if ?b then _ else _) => destruct b
      | |- keeps_browser (match ?x with _ => _ end) => destruct x
      end ].

Ltac kb := cbv zeta; repeat kb_step.

(* ================================================================== *)
(** ** Anatomy of a run that is not dry *)
(* ================================================================== *)

Lemma run_denied site attempt env f :
  fst (checkRateLimit site env (announced site f)) = Normal false ->
  run (entry_function site attempt false) env f
  = (Resolved false, snd (checkRateLimit site env (announced site f))).
Proof.
  intros D. unfold run, entry_function, bind. rewrite (entry_prologue_denied _ _ _ D).
  reflexivity.
Qed.

Lemma run_allowed_anatomy site attempt env f c sa :
  fst (checkRateLimit site env (announced site f)) = Normal true ->
  attempt env (entered site (snd (checkRateLimit site env (announced site f)))) = (c, sa) ->
  run (entry_function site attempt false) env f =
  match closeBrowser env sa with
  | (Normal _, sb) =>
      (match c with
       | Normal _ => Resolved (var_success sb)
       | Return b => Resolved b
       | Throw e => Rejected e
       end,
       snd (saveSubmissionRecord site (var_success sb)
              (if var_success sb then None else Some "See logs for details") env sb))
  | (Return b, sb) => (Resolved b, sb)
  | (Throw e, sb) => (Rejected e, sb)
  end.
Proof.
  intros A H. unfold run, entry_function, bind. rewrite (entry_prologue_allowed _ _ _ A).
  rewrite entry_after_prologue_run, H.
  destruct (closeBrowser env sa) as [[[]|b|e] sb]; try reflexivity.
  destruct c; reflexivity.
Qed.

(** What the log says when the rate check denies. *)
Lemma checkRateLimit_denial_logged site env s :
  fst (checkRateLimit site env s) = Normal false ->
  logs (snd (checkRateLimit site env s)) =
  (logs s ++ [Line Warn ("Rate limit: Already entered " ++ site ++ " today ("
                         ++ getETDate (now_check env) ++ " ET)")])%list.
Proof.
  unfold checkRateLimit, try_catch, bind, existsSync_submissions,
    readFileSync_submissions, new_Date_in_check.
  destruct (file s) as [|e|[e|l]] eqn:F; repeat (cbn; rewrite ?F); try discriminate.
  destruct (sort byNewest _) as [|last rest]; cbn; [discriminate|].
  destruct (getETDate (Submission.timestamp last) =? getETDate (now_check env)); cbn;
    [reflexivity|discriminate].
Qed.

(** X14. A run that the rate check denies is silent: it returns false without
    a single browser action, it leaves the submissions file as it was and
    records nothing, not even a failure, and the log says that the site
    was already entered today. *)
Theorem denied_run_is_silent env f :
  (fst (checkRateLimit "hgtv" env (announced "hgtv" f)) = Normal false ->
   let out := run (submitHGTVEntry false) env f in
   fst out = Resolved false
   /\ trace (snd out) = []
   /\ file (snd out) = f
   /\ (forall data, ~ In (WroteSubmissions data) (disk (snd out)))
   /\ In (Line Warn ("Rate limit: Already entered hgtv today ("
                     ++ getETDate (now_check env) ++ " ET)")) (logs (snd out)))
  /\ (fst (checkRateLimit "foodnetwork" env (announced "foodnetwork" f)) = Normal false ->
      let out := run (submitFoodNetworkEntry false) env f in
      fst out = Resolved false
      /\ trace (snd out) = []
      /\ file (snd out) = f
      /\ (forall data, ~ In (WroteSubmissions data) (disk (snd out)))
      /\ In (Line Warn ("Rate limit: Already entered foodnetwork today ("
                        ++ getETDate (now_check env) ++ " ET)")) (logs (snd out))).
Proof.
  assert (G : forall site attempt,
             fst (checkRateLimit site env (announced site f)) = Normal false ->
             let out := run (entry_function site attempt false) env f in
             fst out = Resolved false
             /\ trace (snd out) = []
             /\ file (snd out) = f
             /\ (forall data, ~ In (WroteSubmissions data) (disk (snd out)))
             /\ In (Line Warn ("Rate limit: Already entered " ++ site ++ " today ("
                               ++ getETDate (now_check env) ++ " ET)")) (logs (snd out))).
  { intros site attempt D out. subst out. rewrite (run_denied site attempt env f D).
    cbn [fst snd].
    destruct (checkRateLimit_answers site env (announced site f)) as (_ & _ & F & (T & _) & Dk).
    split; [reflexivity|]. split; [exact T|]. split; [exact F|]. split.
    - intros data I. destruct (Dk _ I) as [[]|[H|H]]; discriminate.
    - rewrite (checkRateLimit_denial_logged site env _ D). apply in_or_app. right. left.
      reflexivity. }
  split; intros D.
  - rewrite submitHGTVEntry_shape. apply (G "hgtv"), D.
  - rewrite submitFoodNetworkEntry_shape. apply (G "foodnetwork"), D.
Qed.

(** What the [catch] and the [finally] blocks can throw. *)
Lemma closeBrowser_throws env s e :
  fst (closeBrowser env s) = Throw e -> page env unit (trace s) Close = Throws e.
Proof.
  unfold closeBrowser, bind, get_browser, call, log.
  destruct (var_browser s); cbn; [|discriminate].
  destruct (page env unit (trace s) Close) as [[]|e']; cbn; [discriminate|congruence].
Qed.

Lemma hgtv_catch_throws error env s e :
  fst (hgtv_catch error env s) = Throw e -> exists h, page env nat h Pages = Throws e.
Proof.
  unfold hgtv_catch, bind, log_failure, log_stack, log, get_browser, call, ret.
  cbn -[takeScreenshot Nat.ltb].
  destruct (var_browser s); cbn -[takeScreenshot Nat.ltb]; [|intros H; discriminate H].
  destruct (page env nat (trace s) Pages) as [n|e'] eqn:P; cbn -[takeScreenshot Nat.ltb].
  - destruct (0 <? n)%nat; [|intros H; discriminate H].
    match goal with |- context [takeScreenshot ?p ?nm ?en ?st] =>
      pose proof (takeScreenshot_returns p nm en st) as R;
      destruct (takeScreenshot p nm en st) as [c s'] end.
    cbn in R. subst c. intros H; discriminate H.
  - intros [= <-]. eauto.
Qed.

Lemma foodnetwork_catch_throws error env s e :
  fst (foodnetwork_catch error env s) = Throw e -> exists h, page env nat h Pages = Throws e.
Proof.
  unfold foodnetwork_catch, bind, log_failure, log_stack, log, get_browser, call, ret.
  cbn -[takeScreenshot Nat.ltb].
  destruct (var_browser s); cbn -[takeScreenshot Nat.ltb]; [|intros H; discriminate H].
  destruct (page env nat (trace s) Pages) as [n|e'] eqn:P; cbn -[takeScreenshot Nat.ltb].
  - destruct (0 <? n)%nat; [|intros H; discriminate H].
    match goal with |- context [takeScreenshot ?p ?nm ?en ?st] =>
      pose proof (takeScreenshot_returns p nm en st) as R;
      destruct (takeScreenshot p nm en st) as [c s'] end.
    cbn in R. subst c. intros H; discriminate H.
  - intros [= <-]. eauto.
Qed.

Lemma run_rejected site attempt dryRun env f e :
  fst (run (entry_function site attempt dryRun) env f) = Rejected e ->
  (exists s, fst (attempt env s) = Throw e) \/ (exists s, fst (closeBrowser env s) = Throw e).
Proof.
  unfold run, entry_function, bind.
  assert (After : forall sp,
             fst (let (c, s) := entry_after_prologue site attempt dryRun env sp in (settle c, s))
             = Rejected e ->
             (exists s, fst (attempt env s) = Throw e)
             \/ (exists s, fst (closeBrowser env s) = Throw e)).
  { intros sp. rewrite entry_after_prologue_run.
    destruct (attempt env sp) as [c sa] eqn:At. cbv beta iota.
    destruct (closeBrowser env sa) as [[[]|b|e'] sb] eqn:Cl; cbn [fst snd settle].
    - destruct c; cbn [fst snd settle]; try (intros H; discriminate H).
      intros [= <-]. left. exists sp. rewrite At. reflexivity.
    - intros H; discriminate H.
    - intros [= <-]. right. exists sa. rewrite Cl. reflexivity. }
  destruct dryRun.
  - rewrite entry_prologue_dry. apply After.
  - rewrite entry_prologue_checked.
    destruct (checkRateLimit_answers site env (announced site f)) as (allowed & A & _).
    destruct (checkRateLimit site env (announced site f)) as [c s0]. cbn in A. subst c.
    destruct allowed; [apply After|discriminate].
Qed.

Lemma hgtv_rejection_cause dryRun env f e :
  fst (run (submitHGTVEntry dryRun) env f) = Rejected e ->
  (exists h, page env unit h Close = Throws e) \/ (exists h, page env nat h Pages = Throws e).
Proof.
  intros R. rewrite submitHGTVEntry_shape in R.
  destruct (run_rejected _ _ _ _ _ _ R) as [[s T]|[s T]].
  - right. unfold try_catch in T.
    destruct (hgtv_try dryRun env s) as [[[]|b|e'] s1] eqn:Tr; cbn in T; try discriminate.
    apply (hgtv_catch_throws e' env s1 e T).
  - left. eexists. apply (closeBrowser_throws env s e T).
Qed.

Lemma foodnetwork_rejection_cause dryRun env f e :
  fst (run (submitFoodNetworkEntry dryRun) env f) = Rejected e ->
  (exists h, page env unit h Close = Throws e) \/ (exists h, page env nat h Pages = Throws e).
Proof.
  intros R. rewrite submitFoodNetworkEntry_shape in R.
  destruct (run_rejected _ _ _ _ _ _ R) as [[s T]|[s T]].
  - right. unfold try_catch in T.
    destruct (foodnetwork_try dryRun env s) as [[[]|b|e'] s1] eqn:Tr; cbn in T; try discriminate.
    apply (foodnetwork_catch_throws e' env s1 e T).
  - left. eexists. apply (closeBrowser_throws env s e T).
Qed.

(** X15. An entry function rejects only when releasing or inspecting the
    browser throws: the error that its caller sees is the error of
    [browser.close()] in the [finally] block or of [browser.pages()] in
    the [catch] block.  Every other error of a run is caught, and the
    function returns false. *)
Theorem entry_rejects_only_on_browser_release dryRun env f e :
  fst (run (submitHGTVEntry dryRun) env f) = Rejected e
  \/ fst (run (submitFoodNetworkEntry dryRun) env f) = Rejected e ->
  (exists h, page env unit h Close = Throws e) \/ (exists h, page env nat h Pages = Throws e).
Proof.
  intros [R|R].
  - apply (hgtv_rejection_cause dryRun env f e R).
  - apply (foodnetwork_rejection_cause dryRun env f e R).
Qed.

(* ================================================================== *)
(** ** From the challenge to the submit click *)
(* ================================================================== *)

(** Step 6 of [submitFoodNetworkEntry] outside a dry run, by the end of
    the click-and-read sequence. *)
Lemma foodnetwork_submit_classifies iframe env s2 :
  match foodnetwork_click_and_read iframe env
          (with_log (Line Info "[FOODNETWORK] Submitting entry...") s2) with
  | (Normal text, s3) =>
      foodnetwork_submit false iframe env s2 =
      (Normal tt,
       with_success true
         (with_log (if has_success_keyword text
                    then Line Info "✅ Entry submitted successfully!"
                    else Line Warn "Submission status unclear, check screenshot") s3))
  | (Throw e, s3) =>
      fst (foodnetwork_submit false iframe env s2) = Normal tt
      /\ var_success (snd (foodnetwork_submit false iframe env s2)) = var_success s2
      /\ In (Line Error ("❌ Submission failed: " ++ e))
            (logs (snd (foodnetwork_submit false iframe env s2)))
  | (Return b, s3) => True
  end.
Proof.
  unfold foodnetwork_submit, bind, try_catch.
  change (log_sweepstakes "foodnetwork" "Submitting entry..." env s2)
    with (Normal tt, with_log (Line Info "[FOODNETWORK] Submitting entry...") s2).
  cbv iota beta.
  destruct (browser_code_frame _ _ _ _ (bc_foodnetwork_click_and_read iframe) env
              (with_log (Line Info "[FOODNETWORK] Submitting entry...") s2)) as (_ & _ & K & _).
  specialize (K eq_refl).
  destruct (foodnetwork_click_and_read iframe env _) as [[text|b|e] s3]; auto.
  - destruct (has_success_keyword text); reflexivity.
  - cbn [fst snd] in K.
    change (log_failure ("Submission failed: " ++ e) env s3)
      with (Normal tt, with_log (Line Error ("❌ Submission failed: " ++ e)) s3).
    cbv iota beta.
    pose proof (takeScreenshot_returns ThePage "foodnetwork-07-submit-error" env
                  (with_log (Line Error ("❌ Submission failed: " ++ e)) s3)) as R.
    destruct (browser_code_frame _ _ _ _ (bc_takeScreenshot ThePage "foodnetwork-07-submit-error") env
                (with_log (Line Error ("❌ Submission failed: " ++ e)) s3)) as (_ & _ & K' & _).
    pose proof (browser_code_logs _ _ _ _ (bc_takeScreenshot ThePage "foodnetwork-07-submit-error") env
                  (with_log (Line Error ("❌ Submission failed: " ++ e)) s3)
                  (Line Error ("❌ Submission failed: " ++ e))) as G.
    destruct (takeScreenshot ThePage "foodnetwork-07-submit-error" env _) as [c s4].
    cbn [fst snd] in *. subst c. repeat split.
    + rewrite K' by reflexivity. exact K.
    + apply G. cbn. apply in_or_app. right. left. reflexivity.
Qed.

Lemma hgtv_challenge_unsolved iframe env s1 :
  fst (handleCaptcha iframe env s1) = Normal false ->
  fst (hgtv_challenge false iframe env s1) = Return false
  /\ In (Line Error "❌ CAPTCHA not solved, cannot submit")
        (logs (snd (hgtv_challenge false iframe env s1))).
Proof.
  intros H. unfold hgtv_challenge, bind.
  destruct (handleCaptcha iframe env s1) as [c s2]. cbn [fst] in H. subst c. cbn [negb andb].
  change (log_failure "CAPTCHA not solved, cannot submit" env s2)
    with (Normal tt, with_log (Line Error "❌ CAPTCHA not solved, cannot submit") s2).
  cbv iota beta.
  pose proof (takeScreenshot_returns ThePage "hgtv-06-captcha-failed" env
                (with_log (Line Error "❌ CAPTCHA not solved, cannot submit") s2)) as R.
  pose proof (browser_code_logs _ _ _ _ (bc_takeScreenshot ThePage "hgtv-06-captcha-failed") env
                (with_log (Line Error "❌ CAPTCHA not solved, cannot submit") s2)
                (Line Error "❌ CAPTCHA not solved, cannot submit")) as G.
  destruct (takeScreenshot ThePage "hgtv-06-captcha-failed" env _) as [c s3].
  cbn [fst snd] in *. subst c. split; [reflexivity|].
  apply G. cbn. apply in_or_app. right. left. reflexivity.
Qed.

Lemma hgtv_unsolved_challenge_aborts env f iframe s1 :
  (forall h, page env unit h Close = Ok tt) ->
  fst (checkRateLimit "hgtv" env (announced "hgtv" f)) = Normal true ->
  hgtv_through_fill env
    (entered "hgtv" (snd (checkRateLimit "hgtv" env (announced "hgtv" f))))
  = (Normal iframe, s1) ->
  fst (handleCaptcha iframe env s1) = Normal false ->
  let out := run (submitHGTVEntry false) env f in
  fst out = Resolved false
  /\ forallb not_submit_click (trace (snd out)) = true
  /\ In (Line Error "❌ CAPTCHA not solved, cannot submit") (logs (snd out))
  /\ (forall l,
        ledger_of f = Some l ->
        write_error env = None ->
        exists dropped older,
          l = (dropped ++ older)%list
          /\ file (snd out)
             = Holds (Json (older ++ [Submission.mk "hgtv" false (Some "See logs for details")
                                        (now_record env)]))).
Proof.
  intros C A H1 Hc out. subst out.
  destruct (checkRateLimit_answers "hgtv" env (announced "hgtv" f))
    as (_ & _ & F0 & (T0 & _) & _).
  set (sp := entered "hgtv" (snd (checkRateLimit "hgtv" env (announced "hgtv" f)))) in *.
  assert (Tp : trace sp = []) by (unfold sp; cbn; rewrite T0; reflexivity).
  assert (Fp : file sp = f) by (unfold sp; cbn; rewrite F0; reflexivity).
  destruct (browser_code_frame _ _ _ _ bc_hgtv_through_fill env sp)
    as (F1 & _ & K1 & n1 & T1 & O1).
  rewrite H1 in F1, K1, T1. cbn [fst snd] in F1, K1, T1. specialize (K1 eq_refl).
  destruct (hgtv_challenge_unsolved iframe env s1 Hc) as [R2 L2].
  destruct (browser_code_frame _ _ _ _ (bc_hgtv_challenge false iframe) env s1)
    as (F2 & _ & K2 & n2 & T2 & O2).
  specialize (K2 eq_refl).
  destruct (hgtv_challenge false iframe env s1) as [c2 s2] eqn:E2. cbn [fst snd] in *. subst c2.
  assert (At : try_catch (hgtv_try false) hgtv_catch env sp = (Return false, s2)).
  { unfold try_catch, hgtv_try, bind. rewrite H1, E2. reflexivity. }
  rewrite submitHGTVEntry_shape, (run_allowed_anatomy _ _ _ _ _ _ A At).
  pose proof (closeBrowser_closes env s2 C) as R4.
  destruct (browser_code_frame _ _ _ _ bc_closeBrowser env s2) as (F4 & _ & K4 & n4 & T4 & O4).
  specialize (K4 eq_refl).
  pose proof (browser_code_logs _ _ _ _ bc_closeBrowser env s2) as G4.
  destruct (closeBrowser env s2) as [c4 sb]. cbn [fst snd] in *. subst c4. cbn [fst snd].
  assert (Sb : var_success sb = false) by (rewrite K4, K2, K1; reflexivity).
  rewrite Sb.
  destruct (saveSubmissionRecord_returns "hgtv" false (Some "See logs for details") env sb)
    as (_ & Tq & _).
  split; [reflexivity|]. split; [|split].
  - rewrite Tq, T4, T2, T1, Tp. cbn [app]. rewrite !forallb_app, O1, O2. cbn [andb].
    rewrite forallb_forall in *. intros a Ia. apply quiet_not_submit, O4, Ia.
  - apply saveSubmissionRecord_logs, G4, L2.
  - intros l Lf W. apply (recorded_file "hgtv" false env sb l); [|exact W].
    rewrite F4, F2, F1, Fp. exact Lf.
Qed.

Lemma foodnetwork_challenge_unsolved iframe env s1 :
  fst (handleCaptcha iframe env s1) = Normal false ->
  fst (foodnetwork_challenge false iframe env s1) = Return false
  /\ In (Line Error "❌ CAPTCHA not solved, cannot submit")
        (logs (snd (foodnetwork_challenge false iframe env s1))).
Proof.
  intros H. unfold foodnetwork_challenge, bind.
  destruct (handleCaptcha iframe env s1) as [c s2]. cbn [fst] in H. subst c. cbn [negb andb].
  change (log_failure "CAPTCHA not solved, cannot submit" env s2)
    with (Normal tt, with_log (Line Error "❌ CAPTCHA not solved, cannot submit") s2).
  cbv iota beta.
  pose proof (takeScreenshot_returns ThePage "foodnetwork-06-captcha-failed" env
                (with_log (Line Error "❌ CAPTCHA not solved, cannot submit") s2)) as R.
  pose proof (browser_code_logs _ _ _ _ (bc_takeScreenshot ThePage "foodnetwork-06-captcha-failed") env
                (with_log (Line Error "❌ CAPTCHA not solved, cannot submit") s2)
                (Line Error "❌ CAPTCHA not solved, cannot submit")) as G.
  destruct (takeScreenshot ThePage "foodnetwork-06-captcha-failed" env _) as [c s3].
  cbn [fst snd] in *. subst c. split; [reflexivity|].
  apply G. cbn. apply in_or_app. right. left. reflexivity.
Qed.

Lemma foodnetwork_unsolved_challenge_aborts env f iframe s1 :
  (forall h, page env unit h Close = Ok tt) ->
  fst (checkRateLimit "foodnetwork" env (announced "foodnetwork" f)) = Normal true ->
  foodnetwork_through_fill env
    (entered "foodnetwork" (snd (checkRateLimit "foodnetwork" env (announced "foodnetwork" f))))
  = (Normal iframe, s1) ->
  fst (handleCaptcha iframe env s1) = Normal false ->
  let out := run (submitFoodNetworkEntry false) env f in
  fst out = Resolved false
  /\ forallb not_submit_click (trace (snd out)) = true
  /\ In (Line Error "❌ CAPTCHA not solved, cannot submit") (logs (snd out))
  /\ (forall l,
        ledger_of f = Some l ->
        write_error env = None ->
        exists dropped older,
          l = (dropped ++ older)%list
          /\ file (snd out)
             = Holds (Json (older ++ [Submission.mk "foodnetwork" false (Some "See logs for details")
                                        (now_record env)]))).
Proof.
  intros C A H1 Hc out. subst out.
  destruct (checkRateLimit_answers "foodnetwork" env (announced "foodnetwork" f))
    as (_ & _ & F0 & (T0 & _) & _).
  set (sp := entered "foodnetwork" (snd (checkRateLimit "foodnetwork" env (announced "foodnetwork" f)))) in *.
  assert (Tp : trace sp = []) by (unfold sp; cbn; rewrite T0; reflexivity).
  assert (Fp : file sp = f) by (unfold sp; cbn; rewrite F0; reflexivity).
  destruct (browser_code_frame _ _ _ _ bc_foodnetwork_through_fill env sp)
    as (F1 & _ & K1 & n1 & T1 & O1).
  rewrite H1 in F1, K1, T1. cbn [fst snd] in F1, K1, T1. specialize (K1 eq_refl).
  destruct (foodnetwork_challenge_unsolved iframe env s1 Hc) as [R2 L2].
  destruct (browser_code_frame _ _ _ _ (bc_foodnetwork_challenge false iframe) env s1)
    as (F2 & _ & K2 & n2 & T2 & O2).
  specialize (K2 eq_refl).
  destruct (foodnetwork_challenge false iframe env s1) as [c2 s2] eqn:E2. cbn [fst snd] in *. subst c2.
  assert (At : try_catch (foodnetwork_try false) foodnetwork_catch env sp = (Return false, s2)).
  { unfold try_catch, foodnetwork_try, bind. rewrite H1, E2. reflexivity. }
  rewrite submitFoodNetworkEntry_shape, (run_allowed_anatomy _ _ _ _ _ _ A At).
  pose proof (closeBrowser_closes env s2 C) as R4.
  destruct (browser_code_frame _ _ _ _ bc_closeBrowser env s2) as (F4 & _ & K4 & n4 & T4 & O4).
  specialize (K4 eq_refl).
  pose proof (browser_code_logs _ _ _ _ bc_closeBrowser env s2) as G4.
  destruct (closeBrowser env s2) as [c4 sb]. cbn [fst snd] in *. subst c4. cbn [fst snd].
  assert (Sb : var_success sb = false) by (rewrite K4, K2, K1; reflexivity).
  rewrite Sb.
  destruct (saveSubmissionRecord_returns "foodnetwork" false (Some "See logs for details") env sb)
    as (_ & Tq & _).
  split; [reflexivity|]. split; [|split].
  - rewrite Tq, T4, T2, T1, Tp. cbn [app]. rewrite !forallb_app, O1, O2. cbn [andb].
    rewrite forallb_forall in *. intros a Ia. apply quiet_not_submit, O4, Ia.
  - apply saveSubmissionRecord_logs, G4, L2.
  - intros l Lf W. apply (recorded_file "foodnetwork" false env sb l); [|exact W].
    rewrite F4, F2, F1, Fp. exact Lf.
Qed.

(** X16. Outside a dry run, a challenge that the handler reports unresolved
    stops the run before the submit step: the function returns false, no
    click on the submit control is ever made, the log says that the
    CAPTCHA was not solved, and the run is recorded as a failure.  The
    browser is assumed to close without throwing. *)
Theorem unsolved_challenge_aborts env f :
  (forall h, page env unit h Close = Ok tt) ->
  (forall iframe s1,
      fst (checkRateLimit "hgtv" env (announced "hgtv" f)) = Normal true ->
      hgtv_through_fill env
        (entered "hgtv" (snd (checkRateLimit "hgtv" env (announced "hgtv" f))))
      = (Normal iframe, s1) ->
      fst (handleCaptcha iframe env s1) = Normal false ->
      let out := run (submitHGTVEntry false) env f in
      fst out = Resolved false
      /\ forallb not_submit_click (trace (snd out)) = true
      /\ In (Line Error "❌ CAPTCHA not solved, cannot submit") (logs (snd out))
      /\ (forall l,
            ledger_of f = Some l ->
            write_error env = None ->
            exists dropped older,
              l = (dropped ++ older)%list
              /\ file (snd out)
                 = Holds (Json (older ++ [Submission.mk "hgtv" false
                                            (Some "See logs for details") (now_record env)]))))
  /\ (forall iframe s1,
        fst (checkRateLimit "foodnetwork" env (announced "foodnetwork" f)) = Normal true ->
        foodnetwork_through_fill env
          (entered "foodnetwork"
             (snd (checkRateLimit "foodnetwork" env (announced "foodnetwork" f))))
        = (Normal iframe, s1) ->
        fst (handleCaptcha iframe env s1) = Normal false ->
        let out := run (submitFoodNetworkEntry false) env f in
        fst out = Resolved false
        /\ forallb not_submit_click (trace (snd out)) = true
        /\ In (Line Error "❌ CAPTCHA not solved, cannot submit") (logs (snd out))
        /\ (forall l,
              ledger_of f = Some l ->
              write_error env = None ->
              exists dropped older,
                l = (dropped ++ older)%list
                /\ file (snd out)
                   = Holds (Json (older ++ [Submission.mk "foodnetwork" false
                                              (Some "See logs for details")
                                              (now_record env)])))).
Proof.
  intros C. split; intros iframe s1 A H1 Hc.
  - apply (hgtv_unsolved_challenge_aborts env f iframe s1 C A H1 Hc).
  - apply (foodnetwork_unsolved_challenge_aborts env f iframe s1 C A H1 Hc).
Qed.

Ltac nr_blocks :=
  cbv zeta;
  repeat first [ apply nr_clickButton | apply nr_takeScreenshot | apply nr_fillFormField
               | apply nr_waitForIframe | nr_step ].

Lemma nr_hgtv_click_and_read iframe : never_returns (hgtv_click_and_read iframe).
Proof. unfold hgtv_click_and_read. nr_blocks. Qed.

Lemma hgtv_true_only_after_click env f :
  fst (run (submitHGTVEntry false) env f) = Resolved true ->
  exists iframe s1 s2 text closing,
    hgtv_through_fill env
      (entered "hgtv" (snd (checkRateLimit "hgtv" env (announced "hgtv" f))))
    = (Normal iframe, s1)
    /\ hgtv_challenge false iframe env s1 = (Normal tt, s2)
    /\ clickButton_error env (trace s2) iframe ".xSubmit" = None
    /\ page env string (settled_history env (trace s2) iframe "hgtv-07-submitted")
         BodyInnerText = Ok text
    /\ trace (snd (run (submitHGTVEntry false) env f))
       = (settled_history env (trace s2) iframe "hgtv-07-submitted"
          ++ Did BodyInnerText :: closing)%list
    /\ forallb not_submit_click closing = true.
Proof.
  intros R.
  destruct (checkRateLimit_answers "hgtv" env (announced "hgtv" f)) as (allowed & A & _).
  destruct allowed.
  2:{ rewrite submitHGTVEntry_shape, (run_denied _ _ _ _ A) in R. discriminate R. }
  set (sp := entered "hgtv" (snd (checkRateLimit "hgtv" env (announced "hgtv" f)))) in *.
  assert (Sp : var_success sp = false) by reflexivity.
  destruct (try_catch (hgtv_try false) hgtv_catch env sp) as [c sa] eqn:At.
  rewrite submitHGTVEntry_shape, (run_allowed_anatomy _ _ _ _ _ _ A At) in *.
  destruct (browser_code_frame _ _ _ _ bc_closeBrowser env sa) as (_ & _ & K4 & closing & T4 & Q4).
  specialize (K4 eq_refl).
  pose proof (closeBrowser_no_return env sa) as NR.
  destruct (closeBrowser env sa) as [[[]|b|e] sb]; cbn [fst snd] in *;
    [|destruct (NR b eq_refl)|discriminate R].
  destruct (saveSubmissionRecord_returns "hgtv" (var_success sb)
              (if var_success sb then None else Some "See logs for details") env sb)
    as (_ & Tq & _).
  rewrite Tq.
  pose proof (browser_code_returns_false _ _ _ _ (bc_hgtv_attempt false) env sp) as RF.
  rewrite At in RF. cbn [fst] in RF.
  destruct c as [[]|b|e]; [|rewrite (RF b eq_refl) in R; discriminate R|discriminate R].
  injection R as Var. rewrite K4 in Var.
  unfold try_catch in At.
  pose proof (late_hgtv_try false env sp) as Late.
  destruct (hgtv_try false env sp) as [[[]|b|e] st] eqn:Tr; cbn [fst snd] in Late;
    [|discriminate At|].
  2:{ destruct (browser_code_frame _ _ _ _ (bc_hgtv_catch e) env st) as (_ & _ & K & _).
      rewrite At in K. cbn [snd] in K. rewrite K, Late, Sp in Var by reflexivity.
      discriminate Var. }
  injection At as <-.
  unfold hgtv_try, bind in Tr.
  destruct (browser_code_frame _ _ _ _ bc_hgtv_through_fill env sp) as (_ & _ & K1 & _).
  destruct (hgtv_through_fill env sp) as [[iframe|b|e] s1] eqn:H1; try discriminate Tr.
  cbn [snd] in K1. specialize (K1 eq_refl).
  destruct (browser_code_frame _ _ _ _ (bc_hgtv_challenge false iframe) env s1)
    as (_ & _ & K2 & _).
  destruct (hgtv_challenge false iframe env s1) as [[[]|b|e] s2] eqn:H2; try discriminate Tr.
  cbn [snd] in K2. specialize (K2 eq_refl).
  pose proof (hgtv_submit_classifies iframe env s2) as Cl.
  pose proof (nr_hgtv_click_and_read iframe env
                (with_log (Line Info "[HGTV] Submitting entry...") s2)) as NRc.
  pose proof (click_and_read_runs "hgtv-07-submitted" iframe env
                (with_log (Line Info "[HGTV] Submitting entry...") s2)) as Rd.
  cbv zeta in Rd. cbn [trace with_log] in Rd. fold (hgtv_click_and_read iframe) in Rd.
  destruct (hgtv_click_and_read iframe env _) as [[text|b|e] s3]; cbn [fst snd] in Rd.
  - rewrite Cl in Tr. injection Tr as <-.
    destruct (clickButton_error env (trace s2) iframe ".xSubmit") as [e|] eqn:Ce;
      [discriminate Rd|].
    destruct Rd as [T3 R3].
    destruct (page env string _ BodyInnerText) as [text'|e] eqn:Pg; [|discriminate R3].
    injection R3 as <-.
    exists iframe, s1, s2, text, closing. repeat split; auto.
    + rewrite T4. cbn [trace with_success with_log]. rewrite T3, <- app_assoc. reflexivity.
    + rewrite forallb_forall in *. intros a I. apply quiet_not_submit, Q4, I.
  - destruct (NRc b eq_refl).
  - destruct Cl as (_ & S & _). rewrite Tr in S. cbn [snd] in S.
    rewrite S, K2, K1, Sp in Var. discriminate Var.
Qed.

Lemma nr_foodnetwork_click_and_read iframe : never_returns (foodnetwork_click_and_read iframe).
Proof. unfold foodnetwork_click_and_read. nr_blocks. Qed.

Lemma foodnetwork_true_only_after_click env f :
  fst (run (submitFoodNetworkEntry false) env f) = Resolved true ->
  exists iframe s1 s2 text closing,
    foodnetwork_through_fill env
      (entered "foodnetwork" (snd (checkRateLimit "foodnetwork" env (announced "foodnetwork" f))))
    = (Normal iframe, s1)
    /\ foodnetwork_challenge false iframe env s1 = (Normal tt, s2)
    /\ clickButton_error env (trace s2) iframe ".xSubmit" = None
    /\ page env string (settled_history env (trace s2) iframe "foodnetwork-07-submitted")
         BodyInnerText = Ok text
    /\ trace (snd (run (submitFoodNetworkEntry false) env f))
       = (settled_history env (trace s2) iframe "foodnetwork-07-submitted"
          ++ Did BodyInnerText :: closing)%list
    /\ forallb not_submit_click closing = true.
Proof.
  intros R.
  destruct (checkRateLimit_answers "foodnetwork" env (announced "foodnetwork" f)) as (allowed & A & _).
  destruct allowed.
  2:{ rewrite submitFoodNetworkEntry_shape, (run_denied _ _ _ _ A) in R. discriminate R. }
  set (sp := entered "foodnetwork" (snd (checkRateLimit "foodnetwork" env (announced "foodnetwork" f)))) in *.
  assert (Sp : var_success sp = false) by reflexivity.
  destruct (try_catch (foodnetwork_try false) foodnetwork_catch env sp) as [c sa] eqn:At.
  rewrite submitFoodNetworkEntry_shape, (run_allowed_anatomy _ _ _ _ _ _ A At) in *.
  destruct (browser_code_frame _ _ _ _ bc_closeBrowser env sa) as (_ & _ & K4 & closing & T4 & Q4).
  specialize (K4 eq_refl).
  pose proof (closeBrowser_no_return env sa) as NR.
  destruct (closeBrowser env sa) as [[[]|b|e] sb]; cbn [fst snd] in *;
    [|destruct (NR b eq_refl)|discriminate R].
  destruct (saveSubmissionRecord_returns "foodnetwork" (var_success sb)
              (if var_success sb then None else Some "See logs for details") env sb)
    as (_ & Tq & _).
  rewrite Tq.
  pose proof (browser_code_returns_false _ _ _ _ (bc_foodnetwork_attempt false) env sp) as RF.
  rewrite At in RF. cbn [fst] in RF.
  destruct c as [[]|b|e]; [|rewrite (RF b eq_refl) in R; discriminate R|discriminate R].
  injection R as Var. rewrite K4 in Var.
  unfold try_catch in At.
  pose proof (late_foodnetwork_try false env sp) as Late.
  destruct (foodnetwork_try false env sp) as [[[]|b|e] st] eqn:Tr; cbn [fst snd] in Late;
    [|discriminate At|].
  2:{ destruct (browser_code_frame _ _ _ _ (bc_foodnetwork_catch e) env st) as (_ & _ & K & _).
      rewrite At in K. cbn [snd] in K. rewrite K, Late, Sp in Var by reflexivity.
      discriminate Var. }
  injection At as <-.
  unfold foodnetwork_try, bind in Tr.
  destruct (browser_code_frame _ _ _ _ bc_foodnetwork_through_fill env sp) as (_ & _ & K1 & _).
  destruct (foodnetwork_through_fill env sp) as [[iframe|b|e] s1] eqn:H1; try discriminate Tr.
  cbn [snd] in K1. specialize (K1 eq_refl).
  destruct (browser_code_frame _ _ _ _ (bc_foodnetwork_challenge false iframe) env s1)
    as (_ & _ & K2 & _).
  destruct (foodnetwork_challenge false iframe env s1) as [[[]|b|e] s2] eqn:H2; try discriminate Tr.
  cbn [snd] in K2. specialize (K2 eq_refl).
  pose proof (foodnetwork_submit_classifies iframe env s2) as Cl.
  pose proof (nr_foodnetwork_click_and_read iframe env
                (with_log (Line Info "[FOODNETWORK] Submitting entry...") s2)) as NRc.
  pose proof (click_and_read_runs "foodnetwork-07-submitted" iframe env
                (with_log (Line Info "[FOODNETWORK] Submitting entry...") s2)) as Rd.
  cbv zeta in Rd. cbn [trace with_log] in Rd. fold (foodnetwork_click_and_read iframe) in Rd.
  destruct (foodnetwork_click_and_read iframe env _) as [[text|b|e] s3]; cbn [fst snd] in Rd.
  - rewrite Cl in Tr. injection Tr as <-.
    destruct (clickButton_error env (trace s2) iframe ".xSubmit") as [e|] eqn:Ce;
      [discriminate Rd|].
    destruct Rd as [T3 R3].
    destruct (page env string _ BodyInnerText) as [text'|e] eqn:Pg; [|discriminate R3].
    injection R3 as <-.
    exists iframe, s1, s2, text, closing. repeat split; auto.
    + rewrite T4. cbn [trace with_success with_log]. rewrite T3, <- app_assoc. reflexivity.
    + rewrite forallb_forall in *. intros a I. apply quiet_not_submit, Q4, I.
  - destruct (NRc b eq_refl).
  - destruct Cl as (_ & S & _). rewrite Tr in S. cbn [snd] in S.
    rewrite S, K2, K1, Sp in Var. discriminate Var.
Qed.

(** X17. Outside a dry run an entry function returns true only after a click
    on the submit control that went through.  The form steps and the
    challenge have completed on the form session that the locate step
    returned; from the history of the run at that point the wait for the
    submit control of that session succeeded and the native click, or
    else the click from inside the page, was accepted; the page text was
    read after the click, the settle wait and the screenshot; and the
    trace of the run is that history, then the reading, then actions that
    click no submit control. *)
Theorem true_only_after_submit_click env f :
  (fst (run (submitHGTVEntry false) env f) = Resolved true ->
   exists iframe s1 s2 text closing,
     hgtv_through_fill env
       (entered "hgtv" (snd (checkRateLimit "hgtv" env (announced "hgtv" f))))
     = (Normal iframe, s1)
     /\ hgtv_challenge false iframe env s1 = (Normal tt, s2)
     /\ clickButton_error env (trace s2) iframe ".xSubmit" = None
     /\ page env string (settled_history env (trace s2) iframe "hgtv-07-submitted")
          BodyInnerText = Ok text
     /\ trace (snd (run (submitHGTVEntry false) env f))
        = (settled_history env (trace s2) iframe "hgtv-07-submitted"
           ++ Did BodyInnerText :: closing)%list
     /\ forallb not_submit_click closing = true)
  /\ (fst (run (submitFoodNetworkEntry false) env f) = Resolved true ->
      exists iframe s1 s2 text closing,
        foodnetwork_through_fill env
          (entered "foodnetwork"
             (snd (checkRateLimit "foodnetwork" env (announced "foodnetwork" f))))
        = (Normal iframe, s1)
        /\ foodnetwork_challenge false iframe env s1 = (Normal tt, s2)
        /\ clickButton_error env (trace s2) iframe ".xSubmit" = None
        /\ page env string
             (settled_history env (trace s2) iframe "foodnetwork-07-submitted")
             BodyInnerText = Ok text
        /\ trace (snd (run (submitFoodNetworkEntry false) env f))
           = (settled_history env (trace s2) iframe "foodnetwork-07-submitted"
              ++ Did BodyInnerText :: closing)%list
        /\ forallb not_submit_click closing = true).
Proof.
  split; intros R.
  - apply hgtv_true_only_after_click, R.
  - apply foodnetwork_true_only_after_click, R.
Qed.

(* ================================================================== *)
(** ** The browser is released *)
(* ================================================================== *)

Lemma bind_assoc_at A B C (m : M A) (k : A -> M B) (k' : B -> M C) env s :
  bind (bind m k) k' env s = bind m (fun a => bind (k a) k') env s.
Proof. unfold bind. destruct (m env s) as [[a|b|e] s1]; reflexivity. Qed.

Lemma closeBrowser_trace env s :
  trace (snd (closeBrowser env s)) =
  if var_browser s then (trace s ++ [Did Close])%list else trace s.
Proof.
  unfold closeBrowser, bind, get_browser, call, log.
  destruct (var_browser s); cbn; [|reflexivity].
  destruct (page env unit (trace s) Close) as [[]|e]; reflexivity.
Qed.

(** The trace that a run leaves, by the trace of its [try] and [catch]
    blocks. *)
Lemma run_trace site attempt dryRun env f sp :
  entry_prologue site dryRun env (initial_store f) = (Normal tt, sp) ->
  trace (snd (run (entry_function site attempt dryRun) env f)) =
  trace (snd (closeBrowser env (snd (attempt env sp)))).
Proof.
  intros P. unfold run, entry_function, bind. rewrite P, entry_after_prologue_run.
  destruct (attempt env sp) as [c sa]. cbn [snd].
  destruct (closeBrowser env sa) as [[[]|b|e] sb]; cbn [snd]; try reflexivity.
  destruct dryRun.
  - destruct c; reflexivity.
  - destruct (saveSubmissionRecord_returns site (var_success sb)
                (if var_success sb then None else Some "See logs for details") env sb)
      as (_ & Tq & _).
    destruct c; cbn [snd]; exact Tq.
Qed.

Lemma entry_prologue_cases site dryRun env f :
  (exists sp, entry_prologue site dryRun env (initial_store f) = (Normal tt, sp)
              /\ trace sp = [] /\ var_browser sp = false)
  \/ (dryRun = false
      /\ fst (checkRateLimit site env (announced site f)) = Normal false
      /\ entry_prologue site dryRun env (initial_store f)
         = (Return false, snd (checkRateLimit site env (announced site f)))).
Proof.
  destruct dryRun.
  - left. rewrite entry_prologue_dry. eexists. split; [reflexivity|]. split; reflexivity.
  - destruct (checkRateLimit_answers site env (announced site f))
      as (allowed & A & _ & (T & _) & _).
    destruct allowed.
    + left. rewrite (entry_prologue_allowed _ _ _ A). eexists. split; [reflexivity|].
      split; [cbn; rewrite T; reflexivity|reflexivity].
    + right. rewrite (entry_prologue_denied _ _ _ A). auto.
Qed.

(** The [try] block of [submitHGTVEntry], split at the launch. *)
Lemma hgtv_try_at_launch dryRun :
  exists rest : M unit,
    (forall env sp,
        hgtv_try dryRun env sp =
        match page env unit (trace sp) (Launch (browser_headless config) None) with
        | Throws e =>
            (Throw e,
             with_action (Did (Launch (browser_headless config) None))
               (with_log (Line Info "Browser launch options configured")
                  (with_log (Line Info "Launching browser...") sp)))
        | Ok _ =>
            rest env
              (with_browser true
                 (with_action (Did (Launch (browser_headless config) None))
                    (with_log (Line Info "Browser launch options configured")
                       (with_log (Line Info "Launching browser...") sp))))
        end)
    /\ browser_code not_close true _ rest
    /\ keeps_browser rest.
Proof.
  unfold hgtv_try, hgtv_through_fill, hgtv_navigate.
  match goal with
  | |- context [bind (bind (bind (log _ _) (fun _ => bind (log _ _) (fun _ =>
                  bind (call _) (fun _ => bind (set_browser true) (fun _ => ?rn))))) ?k2) ?k3] =>
      exists (bind (bind rn k2) k3)
  end.
  split; [|split].
  - intros env sp.
    rewrite !bind_assoc_at. unfold bind at 1. unfold log at 1. cbv beta iota.
    rewrite !bind_assoc_at. unfold bind at 1. unfold log at 1. cbv beta iota.
    rewrite !bind_assoc_at. unfold bind at 1. unfold call at 1. cbn [trace with_log].
    destruct (page env unit (trace sp) (Launch (browser_headless config) None)) as [[]|e];
      [|reflexivity].
    cbv beta iota.
    rewrite !bind_assoc_at. unfold bind at 1. unfold set_browser at 1. cbv beta iota.
    rewrite ?bind_assoc_at. reflexivity.
  - unfold initialInteraction, hgtv_locate, hgtv_fill, hgtv_challenge, hgtv_submit,
      hgtv_click_and_read, hgtv_no_url, log_sweepstakes, log_success, log_failure,
      takeScreenshot, waitForIframe, fillFormField, clickButton, handleCaptcha.
    bc.
  - unfold initialInteraction, hgtv_locate, hgtv_fill, hgtv_challenge, hgtv_submit,
      hgtv_click_and_read, hgtv_no_url, log_sweepstakes, log_success, log_failure,
      takeScreenshot, waitForIframe, fillFormField, clickButton, handleCaptcha.
    kb.
Qed.

Lemma hgtv_catch_keeps e :
  browser_code not_close false _ (hgtv_catch e) /\ keeps_browser (hgtv_catch e).
Proof.
  split; unfold hgtv_catch, log_failure, takeScreenshot; [bc|kb].
Qed.

Lemma hgtv_browser_released dryRun env f :
  let out := run (submitHGTVEntry dryRun) env f in
  let launch := Launch (browser_headless config) None in
  (dryRun = false
   /\ fst (checkRateLimit "hgtv" env (announced "hgtv" f)) = Normal false
   /\ trace (snd out) = [])
  \/ (exists e, page env unit [] launch = Throws e /\ trace (snd out) = [Did launch])
  \/ (page env unit [] launch = Ok tt
      /\ exists middle,
          trace (snd out) = (Did launch :: middle ++ [Did Close])%list
          /\ forallb not_close middle = true).
Proof.
  intros out launch. subst out. rewrite submitHGTVEntry_shape.
  destruct (entry_prologue_cases "hgtv" dryRun env f) as [(sp & P & Tp & Bp)|(-> & D & P)].
  2:{ left. split; [reflexivity|]. split; [exact D|].
      rewrite (run_denied _ _ _ _ D). cbn [snd].
      destruct (checkRateLimit_answers "hgtv" env (announced "hgtv" f))
        as (_ & _ & _ & (T & _) & _).
      exact T. }
  right. rewrite (run_trace _ _ _ _ _ _ P), closeBrowser_trace.
  destruct (hgtv_try_at_launch dryRun) as (rest & Eq & Bc & Kb).
  unfold try_catch. rewrite Eq. rewrite Tp. fold launch.
  destruct (page env unit [] launch) as [[]|e] eqn:L.
  - right. split; [reflexivity|].
    match goal with |- context [rest env ?st] => set (s4 := st) end.
    assert (T4 : trace s4 = [Did launch]) by (subst s4; cbn; rewrite Tp; reflexivity).
    assert (B4 : var_browser s4 = true) by reflexivity.
    destruct (browser_code_frame _ _ _ _ Bc env s4) as (_ & _ & _ & n1 & T1 & O1).
    pose proof (Kb env s4) as K1.
    destruct (rest env s4) as [[[]|b|e] st]; cbn [fst snd] in *.
    + rewrite K1, B4, T1, T4. exists n1. auto.
    + rewrite K1, B4, T1, T4. exists n1. auto.
    + destruct (hgtv_catch_keeps e) as [Bc2 Kb2].
      destruct (browser_code_frame _ _ _ _ Bc2 env st) as (_ & _ & _ & n2 & T2 & O2).
      rewrite (Kb2 env st), K1, B4, T2, T1, T4. exists (n1 ++ n2)%list.
      split; [cbn; rewrite <- !app_assoc; reflexivity|].
      rewrite forallb_app, O1, O2. reflexivity.
  - left. exists e. split; [reflexivity|].
    unfold hgtv_catch, bind, log_failure, log_stack, log, get_browser, ret.
    cbn. rewrite Bp. cbn. rewrite Bp, Tp. reflexivity.
Qed.

(** The [try] block of [submitFoodNetworkEntry], split at the launch. *)
Lemma foodnetwork_try_at_launch dryRun :
  exists rest : M unit,
    (forall env sp,
        foodnetwork_try dryRun env sp =
        match page env unit (trace sp)
                (Launch (browser_headless config) (Some (browser_slowMo config))) with
        | Throws e =>
            (Throw e,
             with_action (Did (Launch (browser_headless config) (Some (browser_slowMo config))))
               (with_log (Line Info "Browser launch options configured")
                  (with_log (Line Info "Launching browser...") sp)))
        | Ok _ =>
            rest env
              (with_browser true
                 (with_action (Did (Launch (browser_headless config) (Some (browser_slowMo config))))
                    (with_log (Line Info "Browser launch options configured")
                       (with_log (Line Info "Launching browser...") sp))))
        end)
    /\ browser_code not_close true _ rest
    /\ keeps_browser rest.
Proof.
  unfold foodnetwork_try, foodnetwork_through_fill, foodnetwork_navigate.
  match goal with
  | |- context [bind (bind (bind (log _ _) (fun _ => bind (log _ _) (fun _ =>
                  bind (call _) (fun _ => bind (set_browser true) (fun _ => ?rn))))) ?k2) ?k3] =>
      exists (bind (bind rn k2) k3)
  end.
  split; [|split].
  - intros env sp.
    rewrite !bind_assoc_at. unfold bind at 1. unfold log at 1. cbv beta iota.
    rewrite !bind_assoc_at. unfold bind at 1. unfold log at 1. cbv beta iota.
    rewrite !bind_assoc_at. unfold bind at 1. unfold call at 1. cbn [trace with_log].
    destruct (page env unit (trace sp) (Launch (browser_headless config) (Some (browser_slowMo config)))) as [[]|e];
      [|reflexivity].
    cbv beta iota.
    rewrite !bind_assoc_at. unfold bind at 1. unfold set_browser at 1. cbv beta iota.
    rewrite ?bind_assoc_at. reflexivity.
  - unfold initialInteraction, foodnetwork_locate, foodnetwork_fill, foodnetwork_challenge, foodnetwork_submit,
      foodnetwork_click_and_read, foodnetwork_no_url, log_sweepstakes, log_success, log_failure,
      takeScreenshot, waitForIframe, fillFormField, clickButton, handleCaptcha.
    bc.
  - unfold initialInteraction, foodnetwork_locate, foodnetwork_fill, foodnetwork_challenge, foodnetwork_submit,
      foodnetwork_click_and_read, foodnetwork_no_url, log_sweepstakes, log_success, log_failure,
      takeScreenshot, waitForIframe, fillFormField, clickButton, handleCaptcha.
    kb.
Qed.

Lemma foodnetwork_catch_keeps e :
  browser_code not_close false _ (foodnetwork_catch e) /\ keeps_browser (foodnetwork_catch e).
Proof.
  split; unfold foodnetwork_catch, log_failure, takeScreenshot; [bc|kb].
Qed.

Lemma foodnetwork_browser_released dryRun env f :
  let out := run (submitFoodNetworkEntry dryRun) env f in
  let launch := Launch (browser_headless config) (Some (browser_slowMo config)) in
  (dryRun = false
   /\ fst (checkRateLimit "foodnetwork" env (announced "foodnetwork" f)) = Normal false
   /\ trace (snd out) = [])
  \/ (exists e, page env unit [] launch = Throws e /\ trace (snd out) = [Did launch])
  \/ (page env unit [] launch = Ok tt
      /\ exists middle,
          trace (snd out) = (Did launch :: middle ++ [Did Close])%list
          /\ forallb not_close middle = true).
Proof.
  intros out launch. subst out. rewrite submitFoodNetworkEntry_shape.
  destruct (entry_prologue_cases "foodnetwork" dryRun env f) as [(sp & P & Tp & Bp)|(-> & D & P)].
  2:{ left. split; [reflexivity|]. split; [exact D|].
      rewrite (run_denied _ _ _ _ D). cbn [snd].
      destruct (checkRateLimit_answers "foodnetwork" env (announced "foodnetwork" f))
        as (_ & _ & _ & (T & _) & _).
      exact T. }
  right. rewrite (run_trace _ _ _ _ _ _ P), closeBrowser_trace.
  destruct (foodnetwork_try_at_launch dryRun) as (rest & Eq & Bc & Kb).
  unfold try_catch. rewrite Eq. rewrite Tp. fold launch.
  destruct (page env unit [] launch) as [[]|e] eqn:L.
  - right. split; [reflexivity|].
    match goal with |- context [rest env ?st] => set (s4 := st) end.
    assert (T4 : trace s4 = [Did launch]) by (subst s4; cbn; rewrite Tp; reflexivity).
    assert (B4 : var_browser s4 = true) by reflexivity.
    destruct (browser_code_frame _ _ _ _ Bc env s4) as (_ & _ & _ & n1 & T1 & O1).
    pose proof (Kb env s4) as K1.
    destruct (rest env s4) as [[[]|b|e] st]; cbn [fst snd] in *.
    + rewrite K1, B4, T1, T4. exists n1. auto.
    + rewrite K1, B4, T1, T4. exists n1. auto.
    + destruct (foodnetwork_catch_keeps e) as [Bc2 Kb2].
      destruct (browser_code_frame _ _ _ _ Bc2 env st) as (_ & _ & _ & n2 & T2 & O2).
      rewrite (Kb2 env st), K1, B4, T2, T1, T4. exists (n1 ++ n2)%list.
      split; [cbn; rewrite <- !app_assoc; reflexivity|].
      rewrite forallb_app, O1, O2. reflexivity.
  - left. exists e. split; [reflexivity|].
    unfold foodnetwork_catch, bind, log_failure, log_stack, log, get_browser, ret.
    cbn. rewrite Bp. cbn. rewrite Bp, Tp. reflexivity.
Qed.

(** X18. The browser is released exactly when it was acquired.  A run of an
    entry function, dry or not, however it ends, leaves one of three
    traces: no browser action at all, when the rate check denied the run;
    the failed launch alone, when the launch threw, and then nothing is
    closed; or the launch first and [browser.close()] last, with no other
    close in between. *)
Theorem browser_released_when_acquired dryRun env f :
  (let out := run (submitHGTVEntry dryRun) env f in
   let launch := Launch (browser_headless config) None in
   (dryRun = false
    /\ fst (checkRateLimit "hgtv" env (announced "hgtv" f)) = Normal false
    /\ trace (snd out) = [])
   \/ (exists e, page env unit [] launch = Throws e /\ trace (snd out) = [Did launch])
   \/ (page env unit [] launch = Ok tt
       /\ exists middle,
           trace (snd out) = (Did launch :: middle ++ [Did Close])%list
           /\ forallb not_close middle = true))
  /\ (let out := run (submitFoodNetworkEntry dryRun) env f in
      let launch := Launch (browser_headless config) (Some (browser_slowMo config)) in
      (dryRun = false
       /\ fst (checkRateLimit "foodnetwork" env (announced "foodnetwork" f)) = Normal false
       /\ trace (snd out) = [])
      \/ (exists e, page env unit [] launch = Throws e /\ trace (snd out) = [Did launch])
      \/ (page env unit [] launch = Ok tt
          /\ exists middle,
              trace (snd out) = (Did launch :: middle ++ [Did Close])%list
              /\ forallb not_close middle = true)).
Proof.
  split; [apply hgtv_browser_released|apply foodnetwork_browser_released].
Qed.

(* ================================================================== *)
(** ** Runs that fail *)
(* ================================================================== *)

Lemma log_then_browser_code level text ok sets B (k : M B) env s :
  browser_code ok sets B k ->
  In (Line level text) (logs (snd ((log level text ;; k) env s))).
Proof.
  intros H. unfold bind, log. cbv iota beta.
  apply (browser_code_logs _ _ _ _ H). cbn. apply in_or_app. right. left. reflexivity.
Qed.

Lemma closeBrowser_thrown env s e :
  fst (closeBrowser env s) = Throw e ->
  page env unit (trace s) Close = Throws e
  /\ trace (snd (closeBrowser env s)) = (trace s ++ [Did Close])%list.
Proof.
  unfold closeBrowser, bind, get_browser, call, log.
  destruct (var_browser s); cbn; [|discriminate].
  destruct (page env unit (trace s) Close) as [[]|e']; cbn; [discriminate|].
  intros [= <-]. auto.
Qed.

Lemma nr_hgtv_through_fill : never_returns hgtv_through_fill.
Proof.
  unfold hgtv_through_fill, hgtv_navigate, initialInteraction, hgtv_locate, hgtv_no_url, hgtv_fill.
  nr_blocks.
Qed.

Lemma nr_hgtv_submit iframe : never_returns (hgtv_submit false iframe).
Proof. unfold hgtv_submit, hgtv_click_and_read. nr_blocks. Qed.

Lemma hgtv_catch_logs e env s :
  stage_error_logged "HGTV" e (snd (hgtv_catch e env s)).
Proof.
  unfold stage_error_logged, hgtv_catch, log_failure.
  apply (log_then_browser_code _ _ quiet false). unfold takeScreenshot. bc.
Qed.

Lemma hgtv_challenge_solved iframe env s1 :
  fst (handleCaptcha iframe env s1) = Normal true ->
  exists s2, hgtv_challenge false iframe env s1 = (Normal tt, s2).
Proof.
  intros H. unfold hgtv_challenge, bind.
  destruct (handleCaptcha iframe env s1) as [c s2]. cbn [fst] in H. subst c.
  eexists. reflexivity.
Qed.

Lemma hgtv_failed_run env f l r s :
  ledger_of f = Some l ->
  write_error env = None ->
  fst (checkRateLimit "hgtv" env (announced "hgtv" f)) = Normal true ->
  run (submitHGTVEntry false) env f = (r, s) ->
  r <> Resolved true ->
  let sp := entered "hgtv" (snd (checkRateLimit "hgtv" env (announced "hgtv" f))) in
  (exists e h,
      r = Rejected e /\ page env unit h Close = Throws e
      /\ trace s = (h ++ [Did Close])%list /\ file s = f)
  \/ ((exists dropped older,
         l = (dropped ++ older)%list
         /\ file s = Holds (Json (older ++ [Submission.mk "hgtv" false
                                              (Some "See logs for details")
                                              (now_record env)])))
      /\ ((exists e,
             fst (hgtv_try false env sp) = Throw e /\ stage_error_logged "HGTV" e s)
          \/ (exists iframe s1,
                hgtv_through_fill env sp = (Normal iframe, s1)
                /\ fst (handleCaptcha iframe env s1) = Normal false
                /\ In line_captcha_unsolved (logs s))
          \/ (exists iframe s1 s2 e,
                hgtv_through_fill env sp = (Normal iframe, s1)
                /\ hgtv_challenge false iframe env s1 = (Normal tt, s2)
                /\ (clickButton_error env (trace s2) iframe ".xSubmit" = Some e
                    \/ (clickButton_error env (trace s2) iframe ".xSubmit" = None
                        /\ page env string
                             (settled_history env (trace s2) iframe "hgtv-07-submitted")
                             BodyInnerText = Throws e))
                /\ In (line_submit_failed e) (logs s)))).
Proof.
  intros L W A R NT sp.
  destruct (checkRateLimit_answers "hgtv" env (announced "hgtv" f)) as (_ & _ & F0 & _).
  assert (Sp : var_success sp = false) by reflexivity.
  assert (Fp : file sp = f) by exact F0.
  destruct (try_catch (hgtv_try false) hgtv_catch env sp) as [c sa] eqn:At.
  rewrite submitHGTVEntry_shape, (run_allowed_anatomy _ _ _ _ _ _ A At) in R.
  destruct (browser_code_frame _ _ _ _ (bc_hgtv_attempt false) env sp) as (Fa & _).
  fold sp in At. rewrite At in Fa. cbn [snd] in Fa.
  destruct (browser_code_frame _ _ _ _ bc_closeBrowser env sa) as (F4 & _ & K4 & _).
  specialize (K4 eq_refl).
  pose proof (browser_code_logs _ _ _ _ bc_closeBrowser env sa) as G4.
  pose proof (closeBrowser_no_return env sa) as NR.
  pose proof (closeBrowser_thrown env sa) as Th.
  destruct (closeBrowser env sa) as [[[]|b|e] sb]; cbn [fst snd] in *;
    [|destruct (NR b eq_refl)|].
  2:{ injection R as <- <-. left. destruct (Th e eq_refl) as [P T].
      exists e, (trace sa). repeat split; auto. congruence. }
  injection R as <- <-. right.
  assert (Lg : forall x, In x (logs sa) ->
                         In x (logs (snd (saveSubmissionRecord "hgtv" (var_success sb)
                                            (if var_success sb then None
                                             else Some "See logs for details") env sb)))).
  { intros x I. apply saveSubmissionRecord_logs, G4, I. }
  assert (Rec : var_success sa = false ->
                exists dropped older,
                  l = (dropped ++ older)%list
                  /\ file (snd (saveSubmissionRecord "hgtv" (var_success sb)
                                  (if var_success sb then None
                                   else Some "See logs for details") env sb))
                     = Holds (Json (older ++ [Submission.mk "hgtv" false
                                                (Some "See logs for details")
                                                (now_record env)]))).
  { intros V. rewrite K4, V.
    apply (recorded_file "hgtv" false env sb l); [|exact W]. rewrite F4, Fa, Fp. exact L. }
  unfold try_catch in At.
  pose proof (late_hgtv_try false env sp) as Late.
  pose proof (browser_code_returns_false _ _ _ _ (bc_hgtv_try false) env sp) as RF.
  destruct (hgtv_try false env sp) as [[[]|b|e] st] eqn:Tr; cbn [fst snd] in Late, RF.
  - injection At as <- <-.
    assert (V : var_success st = false).
    { destruct (var_success st) eqn:V; [|reflexivity]. destruct NT. rewrite K4. reflexivity. }
    split; [apply Rec, V|]. right. right.
    unfold hgtv_try, bind in Tr.
    destruct (hgtv_through_fill env sp) as [[iframe|b|e] s1] eqn:H1; try discriminate Tr.
    destruct (hgtv_challenge false iframe env s1) as [[[]|b|e] s2] eqn:H2; try discriminate Tr.
    pose proof (hgtv_submit_classifies iframe env s2) as Cls.
    pose proof (nr_hgtv_click_and_read iframe env
                  (with_log (Line Info "[HGTV] Submitting entry...") s2)) as NRc.
    pose proof (click_and_read_runs "hgtv-07-submitted" iframe env
                  (with_log (Line Info "[HGTV] Submitting entry...") s2)) as Rd.
    cbv zeta in Rd. cbn [trace with_log] in Rd. fold (hgtv_click_and_read iframe) in Rd.
    destruct (hgtv_click_and_read iframe env _) as [[text|b|e] s3]; cbn [fst snd] in Rd.
    + rewrite Cls in Tr. injection Tr as <-. discriminate V.
    + destruct (NRc b eq_refl).
    + destruct Cls as (_ & _ & I). rewrite Tr in I. cbn [snd] in I.
      exists iframe, s1, s2, e. split; [reflexivity|]. split; [exact H2|].
      split; [|apply Lg, I].
      destruct (clickButton_error env (trace s2) iframe ".xSubmit") as [e'|].
      * left. congruence.
      * right. destruct Rd as [_ R3]. split; [reflexivity|].
        destruct (page env string _ BodyInnerText); congruence.
  - injection At as <- <-.
    split; [apply Rec; congruence|]. right. left.
    unfold hgtv_try, bind in Tr.
    pose proof (nr_hgtv_through_fill env sp) as NR1.
    destruct (hgtv_through_fill env sp) as [[iframe|b'|e] s1] eqn:H1;
      [|destruct (NR1 b' eq_refl)|discriminate Tr].
    destruct (handleCaptcha_returns iframe env s1) as [[|] Hc].
    + destruct (hgtv_challenge_solved iframe env s1 Hc) as [s2 H2]. rewrite H2 in Tr.
      pose proof (nr_hgtv_submit iframe env s2 b) as NR3. rewrite Tr in NR3.
      destruct (NR3 eq_refl).
    + destruct (hgtv_challenge_unsolved iframe env s1 Hc) as [Rc I].
      destruct (hgtv_challenge false iframe env s1) as [cc s2]. cbn [fst snd] in Rc, I.
      subst cc. injection Tr as <- <-.
      exists iframe, s1. split; [reflexivity|]. split; [exact Hc|apply Lg, I].
  - destruct (browser_code_frame _ _ _ _ (bc_hgtv_catch e) env st) as (_ & _ & K & _).
    pose proof (hgtv_catch_logs e env st) as I.
    rewrite At in K, I. cbn [snd] in K, I.
    split; [apply Rec; rewrite K, Late by reflexivity; exact Sp|]. left.
    exists e. split; [reflexivity|]. apply Lg, I.
Qed.

Lemma nr_foodnetwork_through_fill : never_returns foodnetwork_through_fill.
Proof.
  unfold foodnetwork_through_fill, foodnetwork_navigate, initialInteraction, foodnetwork_locate, foodnetwork_no_url, foodnetwork_fill.
  nr_blocks.
Qed.

Lemma nr_foodnetwork_submit iframe : never_returns (foodnetwork_submit false iframe).
Proof. unfold foodnetwork_submit, foodnetwork_click_and_read. nr_blocks. Qed.

Lemma foodnetwork_catch_logs e env s :
  stage_error_logged "Food Network" e (snd (foodnetwork_catch e env s)).
Proof.
  unfold stage_error_logged, foodnetwork_catch, log_failure.
  apply (log_then_browser_code _ _ quiet false). unfold takeScreenshot. bc.
Qed.

Lemma foodnetwork_challenge_solved iframe env s1 :
  fst (handleCaptcha iframe env s1) = Normal true ->
  exists s2, foodnetwork_challenge false iframe env s1 = (Normal tt, s2).
Proof.
  intros H. unfold foodnetwork_challenge, bind.
  destruct (handleCaptcha iframe env s1) as [c s2]. cbn [fst] in H. subst c.
  eexists. reflexivity.
Qed.

Lemma foodnetwork_failed_run env f l r s :
  ledger_of f = Some l ->
  write_error env = None ->
  fst (checkRateLimit "foodnetwork" env (announced "foodnetwork" f)) = Normal true ->
  run (submitFoodNetworkEntry false) env f = (r, s) ->
  r <> Resolved true ->
  let sp := entered "foodnetwork" (snd (checkRateLimit "foodnetwork" env (announced "foodnetwork" f))) in
  (exists e h,
      r = Rejected e /\ page env unit h Close = Throws e
      /\ trace s = (h ++ [Did Close])%list /\ file s = f)
  \/ ((exists dropped older,
         l = (dropped ++ older)%list
         /\ file s = Holds (Json (older ++ [Submission.mk "foodnetwork" false
                                              (Some "See logs for details")
                                              (now_record env)])))
      /\ ((exists e,
             fst (foodnetwork_try false env sp) = Throw e /\ stage_error_logged "Food Network" e s)
          \/ (exists iframe s1,
                foodnetwork_through_fill env sp = (Normal iframe, s1)
                /\ fst (handleCaptcha iframe env s1) = Normal false
                /\ In line_captcha_unsolved (logs s))
          \/ (exists iframe s1 s2 e,
                foodnetwork_through_fill env sp = (Normal iframe, s1)
                /\ foodnetwork_challenge false iframe env s1 = (Normal tt, s2)
                /\ (clickButton_error env (trace s2) iframe ".xSubmit" = Some e
                    \/ (clickButton_error env (trace s2) iframe ".xSubmit" = None
                        /\ page env string
                             (settled_history env (trace s2) iframe "foodnetwork-07-submitted")
                             BodyInnerText = Throws e))
                /\ In (line_submit_failed e) (logs s)))).
Proof.
  intros L W A R NT sp.
  destruct (checkRateLimit_answers "foodnetwork" env (announced "foodnetwork" f)) as (_ & _ & F0 & _).
  assert (Sp : var_success sp = false) by reflexivity.
  assert (Fp : file sp = f) by exact F0.
  destruct (try_catch (foodnetwork_try false) foodnetwork_catch env sp) as [c sa] eqn:At.
  rewrite submitFoodNetworkEntry_shape, (run_allowed_anatomy _ _ _ _ _ _ A At) in R.
  destruct (browser_code_frame _ _ _ _ (bc_foodnetwork_attempt false) env sp) as (Fa & _).
  fold sp in At. rewrite At in Fa. cbn [snd] in Fa.
  destruct (browser_code_frame _ _ _ _ bc_closeBrowser env sa) as (F4 & _ & K4 & _).
  specialize (K4 eq_refl).
  pose proof (browser_code_logs _ _ _ _ bc_closeBrowser env sa) as G4.
  pose proof (closeBrowser_no_return env sa) as NR.
  pose proof (closeBrowser_thrown env sa) as Th.
  destruct (closeBrowser env sa) as [[[]|b|e] sb]; cbn [fst snd] in *;
    [|destruct (NR b eq_refl)|].
  2:{ injection R as <- <-. left. destruct (Th e eq_refl) as [P T].
      exists e, (trace sa). repeat split; auto. congruence. }
  injection R as <- <-. right.
  assert (Lg : forall x, In x (logs sa) ->
                         In x (logs (snd (saveSubmissionRecord "foodnetwork" (var_success sb)
                                            (if var_success sb then None
                                             else Some "See logs for details") env sb)))).
  { intros x I. apply saveSubmissionRecord_logs, G4, I. }
  assert (Rec : var_success sa = false ->
                exists dropped older,
                  l = (dropped ++ older)%list
                  /\ file (snd (saveSubmissionRecord "foodnetwork" (var_success sb)
                                  (if var_success sb then None
                                   else Some "See logs for details") env sb))
                     = Holds (Json (older ++ [Submission.mk "foodnetwork" false
                                                (Some "See logs for details")
                                                (now_record env)]))).
  { intros V. rewrite K4, V.
    apply (recorded_file "foodnetwork" false env sb l); [|exact W]. rewrite F4, Fa, Fp. exact L. }
  unfold try_catch in At.
  pose proof (late_foodnetwork_try false env sp) as Late.
  pose proof (browser_code_returns_false _ _ _ _ (bc_foodnetwork_try false) env sp) as RF.
  destruct (foodnetwork_try false env sp) as [[[]|b|e] st] eqn:Tr; cbn [fst snd] in Late, RF.
  - injection At as <- <-.
    assert (V : var_success st = false).
    { destruct (var_success st) eqn:V; [|reflexivity]. destruct NT. rewrite K4. reflexivity. }
    split; [apply Rec, V|]. right. right.
    unfold foodnetwork_try, bind in Tr.
    destruct (foodnetwork_through_fill env sp) as [[iframe|b|e] s1] eqn:H1; try discriminate Tr.
    destruct (foodnetwork_challenge false iframe env s1) as [[[]|b|e] s2] eqn:H2; try discriminate Tr.
    pose proof (foodnetwork_submit_classifies iframe env s2) as Cls.
    pose proof (nr_foodnetwork_click_and_read iframe env
                  (with_log (Line Info "[FOODNETWORK] Submitting entry...") s2)) as NRc.
    pose proof (click_and_read_runs "foodnetwork-07-submitted" iframe env
                  (with_log (Line Info "[FOODNETWORK] Submitting entry...") s2)) as Rd.
    cbv zeta in Rd. cbn [trace with_log] in Rd. fold (foodnetwork_click_and_read iframe) in Rd.
    destruct (foodnetwork_click_and_read iframe env _) as [[text|b|e] s3]; cbn [fst snd] in Rd.
    + rewrite Cls in Tr. injection Tr as <-. discriminate V.
    + destruct (NRc b eq_refl).
    + destruct Cls as (_ & _ & I). rewrite Tr in I. cbn [snd] in I.
      exists iframe, s1, s2, e. split; [reflexivity|]. split; [exact H2|].
      split; [|apply Lg, I].
      destruct (clickButton_error env (trace s2) iframe ".xSubmit") as [e'|].
      * left. congruence.
      * right. destruct Rd as [_ R3]. split; [reflexivity|].
        destruct (page env string _ BodyInnerText); congruence.
  - injection At as <- <-.
    split; [apply Rec; congruence|]. right. left.
    unfold foodnetwork_try, bind in Tr.
    pose proof (nr_foodnetwork_through_fill env sp) as NR1.
    destruct (foodnetwork_through_fill env sp) as [[iframe|b'|e] s1] eqn:H1;
      [|destruct (NR1 b' eq_refl)|discriminate Tr].
    destruct (handleCaptcha_returns iframe env s1) as [[|] Hc].
    + destruct (foodnetwork_challenge_solved iframe env s1 Hc) as [s2 H2]. rewrite H2 in Tr.
      pose proof (nr_foodnetwork_submit iframe env s2 b) as NR3. rewrite Tr in NR3.
      destruct (NR3 eq_refl).
    + destruct (foodnetwork_challenge_unsolved iframe env s1 Hc) as [Rc I].
      destruct (foodnetwork_challenge false iframe env s1) as [cc s2]. cbn [fst snd] in Rc, I.
      subst cc. injection Tr as <- <-.
      exists iframe, s1. split; [reflexivity|]. split; [exact Hc|apply Lg, I].
  - destruct (browser_code_frame _ _ _ _ (bc_foodnetwork_catch e) env st) as (_ & _ & K & _).
    pose proof (foodnetwork_catch_logs e env st) as I.
    rewrite At in K, I. cbn [snd] in K, I.
    split; [apply Rec; rewrite K, Late by reflexivity; exact Sp|]. left.
    exists e. split; [reflexivity|]. apply Lg, I.
Qed.

(** C4, amended. A run that is not dry, passes the rate check and does
    not return true ends in one of two ways.  Either [browser.close()]
    threw in the [finally] block: the function rejects with that error and
    no record is appended.  Or a record is appended to the readable
    ledger, behind what the truncation keeps of the old records, with
    [success = false] and the fixed text See logs for details as its
    [error] field, also when the function rejects because
    [browser.pages()] threw in the [catch] block; and the log holds what
    went wrong: the message of the error that the [try] block threw, in
    the line of the [catch] block, or the line of the unsolved challenge,
    or the message of the error of the click on the submit control or of
    the reading of the page text, in the line of the inner [catch]
    block. *)
Theorem failed_run_records_fixed_error env f l r s :
  ledger_of f = Some l ->
  write_error env = None ->
  r <> Resolved true ->
  (fst (checkRateLimit "hgtv" env (announced "hgtv" f)) = Normal true ->
   run (submitHGTVEntry false) env f = (r, s) ->
   let sp := entered "hgtv" (snd (checkRateLimit "hgtv" env (announced "hgtv" f))) in
   (exists e h,
       r = Rejected e /\ page env unit h Close = Throws e
       /\ trace s = (h ++ [Did Close])%list /\ file s = f)
   \/ ((exists dropped older,
          l = (dropped ++ older)%list
          /\ file s = Holds (Json (older ++ [Submission.mk "hgtv" false
                                               (Some "See logs for details")
                                               (now_record env)])))
       /\ ((exists e,
              fst (hgtv_try false env sp) = Throw e /\ stage_error_logged "HGTV" e s)
           \/ (exists iframe s1,
                 hgtv_through_fill env sp = (Normal iframe, s1)
                 /\ fst (handleCaptcha iframe env s1) = Normal false
                 /\ In line_captcha_unsolved (logs s))
           \/ (exists iframe s1 s2 e,
                 hgtv_through_fill env sp = (Normal iframe, s1)
                 /\ hgtv_challenge false iframe env s1 = (Normal tt, s2)
                 /\ (clickButton_error env (trace s2) iframe ".xSubmit" = Some e
                     \/ (clickButton_error env (trace s2) iframe ".xSubmit" = None
                         /\ page env string
                              (settled_history env (trace s2) iframe "hgtv-07-submitted")
                              BodyInnerText = Throws e))
                 /\ In (line_submit_failed e) (logs s)))))
  /\ (fst (checkRateLimit "foodnetwork" env (announced "foodnetwork" f)) = Normal true ->
      run (submitFoodNetworkEntry false) env f = (r, s) ->
      let sp :=
        entered "foodnetwork"
          (snd (checkRateLimit "foodnetwork" env (announced "foodnetwork" f))) in
      (exists e h,
          r = Rejected e /\ page env unit h Close = Throws e
          /\ trace s = (h ++ [Did Close])%list /\ file s = f)
      \/ ((exists dropped older,
             l = (dropped ++ older)%list
             /\ file s = Holds (Json (older ++ [Submission.mk "foodnetwork" false
                                                  (Some "See logs for details")
                                                  (now_record env)])))
          /\ ((exists e,
                 fst (foodnetwork_try false env sp) = Throw e
                 /\ stage_error_logged "Food Network" e s)
              \/ (exists iframe s1,
                    foodnetwork_through_fill env sp = (Normal iframe, s1)
                    /\ fst (handleCaptcha iframe env s1) = Normal false
                    /\ In line_captcha_unsolved (logs s))
              \/ (exists iframe s1 s2 e,
                    foodnetwork_through_fill env sp = (Normal iframe, s1)
                    /\ foodnetwork_challenge false iframe env s1 = (Normal tt, s2)
                    /\ (clickButton_error env (trace s2) iframe ".xSubmit" = Some e
                        \/ (clickButton_error env (trace s2) iframe ".xSubmit" = None
                            /\ page env string
                                 (settled_history env (trace s2) iframe
                                    "foodnetwork-07-submitted")
                                 BodyInnerText = Throws e))
                    /\ In (line_submit_failed e) (logs s))))).
Proof.
  intros L W NT. split; intros A R.
  - exact (hgtv_failed_run env f l r s L W A R NT).
  - exact (foodnetwork_failed_run env f l r s L W A R NT).
Qed.

(* ================================================================== *)
(** ** The form steps *)
(* ================================================================== *)

Lemma fillFormField_returns frame selector value isSelect env s :
  fst (fillFormField frame selector value isSelect env s) = Normal tt.
Proof.
  unfold fillFormField, try_catch, bind, call, sleep, log. cbv zeta.
  destruct (page env unit (trace s) _) as [[]|e]; cbn [fst snd trace with_action]; [|reflexivity].
  destruct isSelect;
    match goal with
    | |- context [page env unit ?h ?c] => destruct (page env unit h c) as [[]|e']
    end; reflexivity.
Qed.

Lemma ac_fillFormField frame selector value isSelect :
  always_completes (fillFormField frame selector value isSelect).
Proof. intros env s. exists tt. apply fillFormField_returns. Qed.

Ltac ac :=
  cbv zeta;
  repeat first
    [ apply ac_ret | apply ac_log | apply ac_takeScreenshot | apply ac_fillFormField
    | apply ac_bind; [ | intros ]
    | apply ac_try_catch; [ nr_blocks | intros ]
    | match goal with
      | |- always_completes (if ?b then _ else _) => destruct b
      end ].

Lemma hgtv_fill_at_check_user iframe :
  exists rest : M unit,
    always_completes rest
    /\ forall env s,
        hgtv_fill iframe env s =
        bind (clickButton iframe "#xCheckUser" 3000) (fun _ => rest) env
          (snd (fillFormField iframe "xReturningUserEmail" (email (personalInfo config)) false
                  env (with_log (Line Info "[HGTV] Entering email address...") s))).
Proof.
  unfold hgtv_fill. cbv zeta.
  match goal with
  | |- context [bind (clickButton _ _ _) (fun _ => ?r)] => exists r
  end.
  split.
  - unfold log_sweepstakes, log_success. ac.
  - intros env s. unfold bind at 1.
    change (log_sweepstakes "hgtv" "Entering email address..." env s)
      with (Normal tt, with_log (Line Info "[HGTV] Entering email address...") s).
    cbv beta iota. unfold bind at 1.
    pose proof (fillFormField_returns iframe "xReturningUserEmail" (email (personalInfo config))
                  false env (with_log (Line Info "[HGTV] Entering email address...") s)) as R.
    destruct (fillFormField iframe "xReturningUserEmail" _ false env _) as [c s1].
    cbn [fst snd] in *. subst c. reflexivity.
Qed.

Lemma hgtv_fill_throws_with_check_user iframe env s :
  let s1 := snd (fillFormField iframe "xReturningUserEmail" (email (personalInfo config)) false
                   env (with_log (Line Info "[HGTV] Entering email address...") s)) in
  fst (hgtv_fill iframe env s) =
  match fst (clickButton iframe "#xCheckUser" 3000 env s1) with
  | Throw e => Throw e
  | _ => Normal tt
  end.
Proof.
  intros s1. destruct (hgtv_fill_at_check_user iframe) as (rest & Ac & Eq).
  rewrite Eq. fold s1. unfold bind.
  pose proof (nr_clickButton iframe "#xCheckUser" 3000 env s1) as NR.
  destruct (clickButton iframe "#xCheckUser" 3000 env s1) as [[[]|b|e] s2]; cbn [fst] in *.
  - destruct (Ac env s2) as [[] R]. exact R.
  - destruct (NR b eq_refl).
  - reflexivity.
Qed.

Lemma foodnetwork_fill_at_check_user iframe :
  exists rest : M unit,
    always_completes rest
    /\ forall env s,
        foodnetwork_fill iframe env s =
        bind (clickButton iframe "#xCheckUser" 3000) (fun _ => rest) env
          (snd (fillFormField iframe "xReturningUserEmail" (email (personalInfo config)) false
                  env (with_log (Line Info "[FOODNETWORK] Entering email address...") s))).
Proof.
  unfold foodnetwork_fill. cbv zeta.
  match goal with
  | |- context [bind (clickButton _ _ _) (fun _ => ?r)] => exists r
  end.
  split.
  - unfold log_sweepstakes, log_success. ac.
  - intros env s. unfold bind at 1.
    change (log_sweepstakes "foodnetwork" "Entering email address..." env s)
      with (Normal tt, with_log (Line Info "[FOODNETWORK] Entering email address...") s).
    cbv beta iota. unfold bind at 1.
    pose proof (fillFormField_returns iframe "xReturningUserEmail" (email (personalInfo config))
                  false env (with_log (Line Info "[FOODNETWORK] Entering email address...") s)) as R.
    destruct (fillFormField iframe "xReturningUserEmail" _ false env _) as [c s1].
    cbn [fst snd] in *. subst c. reflexivity.
Qed.

Lemma foodnetwork_fill_throws_with_check_user iframe env s :
  let s1 := snd (fillFormField iframe "xReturningUserEmail" (email (personalInfo config)) false
                   env (with_log (Line Info "[FOODNETWORK] Entering email address...") s)) in
  fst (foodnetwork_fill iframe env s) =
  match fst (clickButton iframe "#xCheckUser" 3000 env s1) with
  | Throw e => Throw e
  | _ => Normal tt
  end.
Proof.
  intros s1. destruct (foodnetwork_fill_at_check_user iframe) as (rest & Ac & Eq).
  rewrite Eq. fold s1. unfold bind.
  pose proof (nr_clickButton iframe "#xCheckUser" 3000 env s1) as NR.
  destruct (clickButton iframe "#xCheckUser" 3000 env s1) as [[[]|b|e] s2]; cbn [fst] in *.
  - destruct (Ac env s2) as [[] R]. exact R.
  - destruct (NR b eq_refl).
  - reflexivity.
Qed.

(** X19. Among the form steps only the click on the check-user control is
    load-bearing: the form steps of either entry function throw exactly
    when that click throws, with its error, and complete normally
    otherwise.  A field that cannot be filled, a Next button or a trivia
    question that is not there, address fields that never show, a
    screenshot that fails: none of them stops the run. *)
Theorem only_check_user_click_is_load_bearing iframe env s :
  (let s1 := snd (fillFormField iframe "xReturningUserEmail" (email (personalInfo config)) false
                    env (with_log (Line Info "[HGTV] Entering email address...") s)) in
   fst (hgtv_fill iframe env s) =
   match fst (clickButton iframe "#xCheckUser" 3000 env s1) with
   | Throw e => Throw e
   | _ => Normal tt
   end)
  /\ (let s1 := snd (fillFormField iframe "xReturningUserEmail" (email (personalInfo config))
                       false env
                       (with_log (Line Info "[FOODNETWORK] Entering email address...") s)) in
      fst (foodnetwork_fill iframe env s) =
      match fst (clickButton iframe "#xCheckUser" 3000 env s1) with
      | Throw e => Throw e
      | _ => Normal tt
      end).
Proof.
  split; [apply hgtv_fill_throws_with_check_user|apply foodnetwork_fill_throws_with_check_user].
Qed.

(* ================================================================== *)
(** ** The two locators *)
(* ================================================================== *)

(** X20. The two entry functions look for the form in the same way: on the
    same page, [submitFoodNetworkEntry] finds the form exactly when
    [submitHGTVEntry] does, with the same form session and after the same
    actions; and when one of them gives up, so does the other.  They
    differ only in what they do before giving up: the HGTV function reads
    the markup again and saves it, the Food Network function does not. *)
Theorem locators_agree env s :
  (forall session s',
      hgtv_locate env s = (Normal session, s') <->
      foodnetwork_locate env s = (Normal session, s'))
  /\ ((exists e, fst (hgtv_locate env s) = Throw e) <->
      (exists e, fst (foodnetwork_locate env s) = Throw e))
  /\ (forall html,
        In (Did (WritePageDump html)) (trace (snd (foodnetwork_locate env s))) ->
        In (Did (WritePageDump html)) (trace s)).
Proof.
  assert (Same : forall x : Completion Frame * Store,
             (forall session s', x = (Normal session, s') <-> x = (Normal session, s'))
             /\ ((exists e, fst x = Throw e) <-> (exists e, fst x = Throw e)))
    by (intros x; split; [intros; reflexivity|reflexivity]).
  assert (Both : forall (x y : Completion Frame * Store) e1 e2,
             fst x = Throw e1 -> fst y = Throw e2 ->
             (forall session s', x = (Normal session, s') <-> y = (Normal session, s'))
             /\ ((exists e, fst x = Throw e) <-> (exists e, fst y = Throw e))).
  { intros [cx sx] [cy sy] e1 e2 Hx Hy. cbn [fst] in *. subst cx cy. split.
    - intros session s'. split; intros H; discriminate H.
    - split; intros _; eauto. }
  rewrite <- and_assoc. split.
  - unfold hgtv_locate, foodnetwork_locate, try_catch.
    destruct (waitForIframe env s) as [[fr|b|e] s1]; try apply Same.
    unfold bind, log, call. cbn [trace with_log with_action fst snd].
    destruct (page env _ (trace s1) DataSrcAttribute) as [[u|]|e1];
      cbn [negb truthy_opt fst snd]; try apply Same.
    + destruct (truthy u) eqn:Tu; cbn [negb ret fst snd].
      * rewrite Tu. apply Same.
      * destruct (page env _ _ Content) as [html|e2]; cbn [fst snd]; try apply Same.
        destruct (match_data_src html) as [g|]; cbn [ret fst snd].
        -- destruct (truthy g); [apply Same|].
           unfold hgtv_no_url, foodnetwork_no_url, bind, call, log, throw.
           cbn [trace with_log with_action fst snd].
           repeat (match goal with
                   | |- context [page env ?T ?h ?c] => destruct (page env T h c)
                   end; cbn [fst snd]); eapply Both; reflexivity.
        -- rewrite Tu.
           unfold hgtv_no_url, foodnetwork_no_url, bind, call, log, throw.
           cbn [trace with_log with_action fst snd].
           repeat (match goal with
                   | |- context [page env ?T ?h ?c] => destruct (page env T h c)
                   end; cbn [fst snd]); eapply Both; reflexivity.
    + destruct (page env _ _ Content) as [html|e2]; cbn [fst snd]; try apply Same.
      destruct (match_data_src html) as [g|]; cbn [ret fst snd].
      * destruct (truthy g); [apply Same|].
        unfold hgtv_no_url, foodnetwork_no_url, bind, call, log, throw.
        cbn [trace with_log with_action fst snd].
        repeat (match goal with
                | |- context [page env ?T ?h ?c] => destruct (page env T h c)
                end; cbn [fst snd]); eapply Both; reflexivity.
      * unfold hgtv_no_url, foodnetwork_no_url, bind, call, log, throw.
        cbn [trace with_log with_action fst snd].
        repeat (match goal with
                | |- context [page env ?T ?h ?c] => destruct (page env T h c)
                end; cbn [fst snd]); eapply Both; reflexivity.
  - intros html I.
    assert (B : browser_code
                  (fun a => match a with
                            | Did c => match c with WritePageDump _ => false | _ => true end
                            | Slept _ => true
                            end) false _ foodnetwork_locate)
      by (unfold foodnetwork_locate, foodnetwork_no_url, waitForIframe; bc).
    destruct (browser_code_frame _ _ _ _ B env s) as (_ & _ & _ & new & T & O).
    rewrite T in I. apply in_app_or in I. destruct I as [I|I]; [exact I|].
    rewrite forallb_forall in O. specialize (O _ I). discriminate O.
Qed.


(* ================================================================== *)
(** ** [submitFoodNetworkEntry], like [submitHGTVEntry] *)
(* ================================================================== *)

Lemma foodnetwork_challenge_dry iframe env s :
  fst (foodnetwork_challenge true iframe env s) = Normal tt
  /\ snd (foodnetwork_challenge true iframe env s) = snd (handleCaptcha iframe env s).
Proof.
  unfold foodnetwork_challenge, bind.
  destruct (handleCaptcha_returns iframe env s) as [solved R].
  destruct (handleCaptcha iframe env s) as [c s']. cbn in R. subst c.
  rewrite andb_false_r. auto.
Qed.

Lemma foodnetwork_submit_dry iframe env s :
  fst (foodnetwork_submit true iframe env s) = Normal tt
  /\ var_success (snd (foodnetwork_submit true iframe env s)) = true.
Proof.
  unfold foodnetwork_submit, bind, log, set_success.
  pose proof (takeScreenshot_returns ThePage "foodnetwork-06-dry-run-complete" env
                (with_log (Line Warn "ðŸ§ª DRY RUN MODE - Not submitting entry") s)) as R.
  destruct (takeScreenshot ThePage "foodnetwork-06-dry-run-complete" env _) as [c s'].
  cbn in R. subst c. auto.
Qed.

(** X21. A dry run of [submitFoodNetworkEntry] skips the rate check: it never
    consults the submissions file.  It never clicks the submit control.
    When the stages from the launch to the last form step complete and
    the browser closes, it has looked for the CAPTCHA on the form session
    and it returns true, whatever the challenge handler answered. *)
Theorem foodnetwork_dry_run_skips_rate_check_and_submit env f :
  let out := run (submitFoodNetworkEntry true) env f in
  ~ rate_check_executed (snd out)
  /\ forallb not_submit_click (trace (snd out)) = true
  /\ (forall iframe s1,
        foodnetwork_through_fill env (entered "foodnetwork" (announced "foodnetwork" f))
        = (Normal iframe, s1) ->
        (forall h, page env unit h Close = Ok tt) ->
        fst out = Resolved true
        /\ In (Did (QuerySelector iframe sel_recaptcha)) (trace (snd out))).
Proof.
  cbv zeta. rewrite submitFoodNetworkEntry_shape.
  destruct (run_frame_dry "foodnetwork" _ env f bc_foodnetwork_attempt_dry) as (_ & D & T).
  split; [|split]; auto.
  - unfold rate_check_executed. rewrite D. intros [].
  - intros iframe s1 H C. clear D T.
    unfold run, entry_function, bind.
    rewrite entry_prologue_dry, entry_after_prologue_run.
    unfold try_catch, foodnetwork_try, bind. rewrite H.
    destruct (foodnetwork_challenge_dry iframe env s1) as [R2 S2].
    destruct (handleCaptcha_asks iframe env s1) as [more A].
    destruct (foodnetwork_challenge true iframe env s1) as [c2 s2]. cbn [fst snd] in R2, S2. subst c2.
    rewrite <- S2 in A. clear S2.
    destruct (foodnetwork_submit_dry iframe env s2) as [R3 S3].
    pose proof (trace_grows _ _ _ _ env s2 (Did (QuerySelector iframe sel_recaptcha))
                  (bc_foodnetwork_submit true iframe)) as G3.
    destruct (foodnetwork_submit true iframe env s2) as [c3 s3]. cbn [fst snd] in R3, S3, G3. subst c3.
    pose proof (closeBrowser_closes env s3 C) as R4.
    destruct (browser_code_frame _ _ _ _ bc_closeBrowser env s3) as (_ & _ & S4 & _).
    pose proof (trace_grows _ _ _ _ env s3 (Did (QuerySelector iframe sel_recaptcha))
                  bc_closeBrowser) as G4.
    destruct (closeBrowser env s3) as [c4 s4]. cbn [fst snd] in R4, S4, G4. subst c4.
    cbn. rewrite S4, S3 by reflexivity. split; [reflexivity|].
    apply G4, G3. rewrite A. apply in_or_app. right. left. reflexivity.
Qed.


(** X23. What [submitFoodNetworkEntry] returns does not depend on the
    recording: it is the same whether the write of the submissions file
    goes through or throws, whatever the clock reads at record time, and
    with a ledger that cannot be read or parsed it is the same as with no
    ledger at all. *)
Theorem foodnetwork_outcome_ignores_recording :
  (forall dryRun env f w t,
      fst (run (submitFoodNetworkEntry dryRun) (with_recording w t env) f)
      = fst (run (submitFoodNetworkEntry dryRun) env f))
  /\ (forall env f e,
        f = Unreadable e \/ f = Holds (Garbage e) ->
        fst (run (submitFoodNetworkEntry false) env f)
        = fst (run (submitFoodNetworkEntry false) env Absent)).
Proof.
  split.
  - intros. rewrite !submitFoodNetworkEntry_shape.
    apply run_ignores_recording, bc_foodnetwork_attempt.
  - intros env f e H. rewrite !submitFoodNetworkEntry_shape.
    apply run_allowed_outcome; [apply bc_foodnetwork_attempt| |].
    + apply (checkRateLimit_on_unreadable "foodnetwork" env (announced "foodnetwork" f) e).
      destruct H as [->| ->]; auto.
    + rewrite checkRateLimit_on_absent; reflexivity.
Qed.

(* ================================================================== *)
(** ** The command line *)
(* ================================================================== *)

Lemma split_nonempty sep s : exists piece pieces, split sep s = piece :: pieces.
Proof.
  induction s as [|c s IH]; cbn [split]; [eauto|].
  destruct (Ascii.eqb c sep); [eauto|]. destruct IH as (piece & pieces & ->). eauto.
Qed.

Lemma includes_char_cons c sep s :
  includes (String c s) (String sep "") = Ascii.eqb c sep || includes s (String sep "").
Proof.
  cbn [includes String.prefix].
  destruct (ascii_dec sep c) as [<-|N].
  - rewrite Ascii.eqb_refl. destruct s; reflexivity.
  - destruct (Ascii.eqb_spec c sep) as [->|_]; [congruence|]. reflexivity.
Qed.

(** No piece of a split holds the separator. *)
Lemma split_pieces sep s :
  Forall (fun piece => includes piece (String sep "") = false) (split sep s).
Proof.
  induction s as [|c s IH]; cbn [split].
  - constructor; [reflexivity|constructor].
  - destruct (Ascii.eqb c sep) eqn:E.
    + constructor; [reflexivity|exact IH].
    + destruct (split sep s) as [|piece pieces]; [constructor; [|constructor]|].
      * rewrite includes_char_cons, E. reflexivity.
      * inversion IH as [|? ? Hp Hps]; subst. constructor; [|exact Hps].
        rewrite includes_char_cons, E, Hp. reflexivity.
Qed.

Lemma split_site_argument value :
  nth_error (split "=" ("--site=" ++ value)) 1 = Some (hd "" (split "=" value)).
Proof.
  destruct (split_nonempty "=" value) as (piece & pieces & E).
  cbn. rewrite E. reflexivity.
Qed.

Lemma find_first_match {A} (p : A -> bool) pre x post :
  (forall y, In y pre -> p y = false) -> p x = true -> find p (pre ++ x :: post) = Some x.
Proof.
  intros No Yes. induction pre as [|y pre IH]; cbn.
  - rewrite Yes. reflexivity.
  - rewrite (No y (or_introl eq_refl)). apply IH. intros z I. apply No. right. exact I.
Qed.

Lemma find_no_match {A} (p : A -> bool) l :
  (forall y, In y l -> p y = false) -> find p l = None.
Proof.
  intros No. induction l as [|y l IH]; cbn; [reflexivity|].
  rewrite (No y (or_introl eq_refl)). apply IH. intros z I. apply No. right. exact I.
Qed.

Lemma flags_site_of args pre value post :
  args = (pre ++ ("--site=" ++ value)%string :: post)%list ->
  (forall arg, In arg pre -> startsWith arg "--site=" = false) ->
  Flags.site (flags args) =
  (if truthy (hd "" (split "=" value)) then hd "" (split "=" value) else "both").
Proof.
  intros -> No. unfold flags. cbn [Flags.site].
  rewrite (find_first_match _ pre ("--site=" ++ value) post No) by apply prefix_append.
  rewrite split_site_argument. reflexivity.
Qed.

(** X24. The site that the command line names.  It is never empty and never
    holds an equals sign.  It is both when no argument begins with
    --site=.  Otherwise the first such argument decides: the site is what
    stands between its first equals sign and the next one, or the end,
    and both when nothing stands there. *)
Theorem flags_site_parsed args :
  (truthy (Flags.site (flags args)) = true
   /\ includes (Flags.site (flags args)) "=" = false)
  /\ ((forall arg, In arg args -> startsWith arg "--site=" = false) ->
      Flags.site (flags args) = "both")
  /\ (forall pre value post,
        args = (pre ++ ("--site=" ++ value)%string :: post)%list ->
        (forall arg, In arg pre -> startsWith arg "--site=" = false) ->
        Flags.site (flags args) =
        (if truthy (hd "" (split "=" value)) then hd "" (split "=" value) else "both")
        /\ (truthy value = true -> includes value "=" = false ->
            Flags.site (flags args) = value)).
Proof.
  split; [|split].
  - unfold flags. cbn [Flags.site].
    destruct (find _ args) as [arg|]; [|split; reflexivity].
    pose proof (split_pieces "=" arg) as P.
    destruct (nth_error (split "=" arg) 1) as [value|] eqn:N; [|split; reflexivity].
    destruct (truthy value) eqn:T; [|split; reflexivity].
    split; [exact T|]. apply nth_error_In in N. rewrite Forall_forall in P. apply (P _ N).
  - intros No. unfold flags. cbn [Flags.site]. rewrite (find_no_match _ args No). reflexivity.
  - intros pre value post E No. rewrite (flags_site_of args pre value post E No).
    split; [reflexivity|]. intros T N.
    assert (Whole : split "=" value = [value]).
    { clear - N. induction value as [|c value IH]; [reflexivity|].
      rewrite includes_char_cons in N. apply orb_false_iff in N. destruct N as [E N].
      cbn [split]. rewrite E, (IH N). reflexivity. }
    rewrite Whole. cbn [hd]. rewrite T. reflexivity.
Qed.

(* ================================================================== *)
(** ** The main entry point *)
(* ================================================================== *)

Lemma args_include_In args flag : args_include args flag = true <-> In flag args.
Proof.
  unfold args_include. rewrite existsb_exists. split.
  - intros (x & I & E). apply String.eqb_eq in E. subst. exact I.
  - intros I. exists flag. split; [exact I|apply String.eqb_refl].
Qed.

Lemma manual_entry_run label entry env f logged done :
  exists logged',
    manual_entry label entry env f logged done =
    (match fst (run entry env f) with Rejected e => Some e | Resolved _ => None end,
     file (snd (run entry env f)), logged', (done ++ trace (snd (run entry env f)))%list).
Proof.
  unfold manual_entry. destruct (run entry env f) as [[[|]|e] s]; cbn [fst snd]; eauto.
Qed.

(** The manual mode, by what the two entry functions do. *)
Lemma main_manual args sweepstakes cron env_hgtv env_foodnetwork f :
  Flags.testSchedule (flags args) = false ->
  Flags.manual (flags args) || Flags.dryRun (flags args) = true ->
  let isDryRun := Flags.dryRun (flags args) in
  let site := Flags.site (flags args) in
  let r := main args sweepstakes cron env_hgtv env_foodnetwork f in
  let first := run (submitHGTVEntry isDryRun) env_hgtv f in
  let f1 := if (site =? "hgtv") || (site =? "both") then file (snd first) else f in
  let t1 := if (site =? "hgtv") || (site =? "both") then trace (snd first) else [] in
  let second := run (submitFoodNetworkEntry isDryRun) env_foodnetwork f1 in
  match (if (site =? "hgtv") || (site =? "both") then fst first else Resolved true) with
  | Rejected e => main_ended r = Exit 1 /\ main_file r = f1 /\ main_trace r = t1
  | Resolved _ =>
      if (site =? "foodnetwork") || (site =? "both") then
        main_file r = file (snd second)
        /\ main_trace r = (t1 ++ trace (snd second))%list
        /\ main_ended r = match fst second with Rejected _ => Exit 1 | Resolved _ => Exit 0 end
      else main_ended r = Exit 0 /\ main_file r = f1 /\ main_trace r = t1
  end.
Proof.
  intros T Mode isDryRun site r first f1 t1 second. subst r. unfold main.
  rewrite T, Mode. cbv zeta. fold isDryRun site.
  set (logged0 := (banner ++ _)%list).
  subst f1 t1 second.
  destruct ((site =? "hgtv") || (site =? "both")).
  - destruct (manual_entry_run "HGTV" (submitHGTVEntry isDryRun) env_hgtv f logged0 [])
      as [logged1 ->].
    fold first. cbn [app].
    destruct (fst first) as [b|e]; [|cbn; auto].
    destruct ((site =? "foodnetwork") || (site =? "both")); [|cbn; auto].
    destruct (manual_entry_run "Food Network" (submitFoodNetworkEntry isDryRun) env_foodnetwork
                (file (snd first)) logged1 (trace (snd first))) as [logged2 ->].
    destruct (fst (run (submitFoodNetworkEntry isDryRun) env_foodnetwork (file (snd first))));
      cbn; auto.
  - destruct ((site =? "foodnetwork") || (site =? "both")); [|cbn; auto].
    destruct (manual_entry_run "Food Network" (submitFoodNetworkEntry isDryRun) env_foodnetwork
                f logged0 []) as [logged2 ->].
    destruct (fst (run (submitFoodNetworkEntry isDryRun) env_foodnetwork f)); cbn; auto.
Qed.

Lemma run_dry_quiet env f :
  (file (snd (run (submitHGTVEntry true) env f)) = f
   /\ forallb not_submit_click (trace (snd (run (submitHGTVEntry true) env f))) = true)
  /\ (file (snd (run (submitFoodNetworkEntry true) env f)) = f
      /\ forallb not_submit_click (trace (snd (run (submitFoodNetworkEntry true) env f))) = true).
Proof.
  rewrite submitHGTVEntry_shape, submitFoodNetworkEntry_shape.
  destruct (run_frame_dry "hgtv" _ env f bc_hgtv_attempt_dry) as (F1 & _ & T1).
  destruct (run_frame_dry "foodnetwork" _ env f bc_foodnetwork_attempt_dry) as (F2 & _ & T2).
  auto.
Qed.

(** X25. With --dry-run on the command line, whatever else is there, the
    process leaves the submissions file as it found it and never clicks a
    submit control, and it ends by [process.exit]. *)
Theorem main_dry_run_keeps_ledger args sweepstakes cron env_hgtv env_foodnetwork f :
  In "--dry-run" args ->
  let r := main args sweepstakes cron env_hgtv env_foodnetwork f in
  main_file r = f
  /\ forallb not_submit_click (main_trace r) = true
  /\ (main_ended r = Exit 0 \/ main_ended r = Exit 1).
Proof.
  intros D r.
  assert (Dr : Flags.dryRun (flags args) = true) by (apply args_include_In, D).
  destruct (Flags.testSchedule (flags args)) eqn:T.
  { subst r. unfold main. rewrite T. cbn. auto. }
  pose proof (main_manual args sweepstakes cron env_hgtv env_foodnetwork f T) as M.
  rewrite Dr, orb_true_r in M. specialize (M eq_refl). cbv zeta in M. fold r in M.
  destruct (run_dry_quiet env_hgtv f) as [[F1 T1] _].
  destruct ((Flags.site (flags args) =? "hgtv") || (Flags.site (flags args) =? "both")).
  - destruct (run_dry_quiet env_foodnetwork (file (snd (run (submitHGTVEntry true) env_hgtv f))))
      as [_ [F2 T2]].
    destruct (fst (run (submitHGTVEntry true) env_hgtv f)) as [b|e].
    + destruct ((Flags.site (flags args) =? "foodnetwork")
                || (Flags.site (flags args) =? "both")).
      * destruct M as (Mf & Mt & Me).
        split; [rewrite Mf, F2, F1; reflexivity|].
        split; [rewrite Mt, forallb_app, T1, T2; reflexivity|].
        rewrite Me.
        destruct (fst (run (submitFoodNetworkEntry true) env_foodnetwork _)); auto.
      * destruct M as (Me & Mf & Mt). rewrite Mf, Mt, Me, F1, T1. auto.
    + destruct M as (Me & Mf & Mt). rewrite Mf, Mt, Me, F1, T1. auto.
  - destruct (run_dry_quiet env_foodnetwork f) as [_ [F2 T2]].
    destruct ((Flags.site (flags args) =? "foodnetwork")
              || (Flags.site (flags args) =? "both")).
    + destruct M as (Mf & Mt & Me).
      split; [rewrite Mf, F2; reflexivity|].
      split; [rewrite Mt; cbn [app]; rewrite T2; reflexivity|].
      rewrite Me.
      destruct (fst (run (submitFoodNetworkEntry true) env_foodnetwork f)); auto.
    + destruct M as (Me & Mf & Mt). rewrite Mf, Mt, Me. auto.
Qed.

(** X26. In the manual mode the site named on the command line decides which
    entry functions run.  With --site=hgtv only the HGTV function runs,
    with --site=foodnetwork only the Food Network function; and with any
    other name than these two and both, neither runs: the process touches
    neither the browser nor the submissions file, and still exits with
    code 0. *)
Theorem main_runs_the_named_site args sweepstakes cron env_hgtv env_foodnetwork f
    pre value post :
  ~ In "--test-schedule" args ->
  In "--manual" args \/ In "--dry-run" args ->
  args = (pre ++ ("--site=" ++ value)%string :: post)%list ->
  (forall arg, In arg pre -> startsWith arg "--site=" = false) ->
  truthy value = true ->
  includes value "=" = false ->
  let r := main args sweepstakes cron env_hgtv env_foodnetwork f in
  let isDryRun := Flags.dryRun (flags args) in
  (value = "hgtv" ->
   main_file r = file (snd (run (submitHGTVEntry isDryRun) env_hgtv f))
   /\ main_trace r = trace (snd (run (submitHGTVEntry isDryRun) env_hgtv f)))
  /\ (value = "foodnetwork" ->
      main_file r = file (snd (run (submitFoodNetworkEntry isDryRun) env_foodnetwork f))
      /\ main_trace r = trace (snd (run (submitFoodNetworkEntry isDryRun) env_foodnetwork f)))
  /\ (value <> "hgtv" -> value <> "foodnetwork" -> value <> "both" ->
      main_ended r = Exit 0 /\ main_file r = f /\ main_trace r = []).
Proof.
  intros NoTest Mode E No Tv Nv r isDryRun.
  assert (T : Flags.testSchedule (flags args) = false).
  { destruct (Flags.testSchedule (flags args)) eqn:T; [|reflexivity].
    destruct NoTest. apply args_include_In, T. }
  assert (Md : Flags.manual (flags args) || Flags.dryRun (flags args) = true).
  { apply orb_true_iff. destruct Mode as [I|I]; [left|right]; apply args_include_In, I. }
  assert (Site : Flags.site (flags args) = value).
  { rewrite (flags_site_of args pre value post E No).
    assert (Whole : split "=" value = [value]).
    { clear - Nv. induction value as [|c value IH]; [reflexivity|].
      rewrite includes_char_cons in Nv. apply orb_false_iff in Nv. destruct Nv as [Ec Nv].
      cbn [split]. rewrite Ec, (IH Nv). reflexivity. }
    rewrite Whole. cbn [hd]. rewrite Tv. reflexivity. }
  pose proof (main_manual args sweepstakes cron env_hgtv env_foodnetwork f T Md) as M.
  cbv zeta in M. fold r isDryRun in M. rewrite Site in M.
  split; [|split].
  - intros ->. cbn [String.eqb Ascii.eqb Bool.eqb orb andb] in M.
    change (("hgtv" =? "hgtv") || ("hgtv" =? "both")) with true in M.
    change (("hgtv" =? "foodnetwork") || ("hgtv" =? "both")) with false in M.
    cbv iota in M.
    destruct (fst (run (submitHGTVEntry isDryRun) env_hgtv f)); destruct M as (_ & Mf & Mt); auto.
  - intros ->.
    change (("foodnetwork" =? "hgtv") || ("foodnetwork" =? "both")) with false in M.
    change (("foodnetwork" =? "foodnetwork") || ("foodnetwork" =? "both")) with true in M.
    cbv iota in M. destruct M as (Mf & Mt & _). auto.
  - intros N1 N2 N3.
    apply String.eqb_neq in N1, N2, N3. rewrite N1, N2, N3 in M. exact M.
Qed.



(** X28. With none of the three mode flags on the command line the process
    runs no entry function: it touches neither the browser nor the
    submissions file.  When [cron.schedule] accepts the expression of
    every enabled site, the scheduler stays up with one task for each
    enabled site and none for a disabled one, HGTV first, each under its
    configured expression and in the timezone America/New_York; when it
    throws on the expression of an enabled site, the process logs that
    error as fatal and exits with code 1.  The task of a site, when it
    fires, runs the entry function of that site with [dryRun = false]. *)
Theorem main_scheduled_mode args sweepstakes cron env_hgtv env_foodnetwork f :
  ~ In "--test-schedule" args ->
  ~ In "--manual" args ->
  ~ In "--dry-run" args ->
  let r := main args sweepstakes cron env_hgtv env_foodnetwork f in
  let hgtv := Sweepstakes.hgtv sweepstakes in
  let foodNetwork := Sweepstakes.foodNetwork sweepstakes in
  let refusal (s : Sweepstakes.site) :=
    if Sweepstakes.enabled s then cron_schedule_error cron (Sweepstakes.schedule s)
    else None in
  let task (entry : Entry) (s : Sweepstakes.site) :=
    {| job_expression := Sweepstakes.schedule s;
       job_timezone := "America/New_York"; job_entry := entry |} in
  main_file r = f
  /\ main_trace r = []
  /\ match refusal hgtv, refusal foodNetwork with
     | None, None =>
         main_ended r =
         KeepsRunning
           ((if Sweepstakes.enabled hgtv then [task HGTVEntry hgtv] else [])
            ++ (if Sweepstakes.enabled foodNetwork
                then [task FoodNetworkEntry foodNetwork] else []))
     | Some e, _ => main_ended r = Exit 1 /\ In (Stack Error e) (main_logs r)
     | None, Some e => main_ended r = Exit 1 /\ In (Stack Error e) (main_logs r)
     end
  /\ (forall env f',
        fire (task HGTVEntry hgtv) env f'
        = (Line Info "⏰ HGTV scheduled entry triggered",
           run (submitHGTVEntry false) env f')
        /\ fire (task FoodNetworkEntry foodNetwork) env f'
           = (Line Info "⏰ Food Network scheduled entry triggered",
              run (submitFoodNetworkEntry false) env f')).
Proof.
  intros NT NM ND r hgtv foodNetwork refusal task.
  assert (F : forall flag, ~ In flag args -> args_include args flag = false).
  { intros flag N. destruct (args_include args flag) eqn:E; [|reflexivity].
    destruct N. apply args_include_In, E. }
  assert (Ft : Flags.testSchedule (flags args) = false) by apply (F _ NT).
  assert (Fm : Flags.manual (flags args) = false) by apply (F _ NM).
  assert (Fd : Flags.dryRun (flags args) = false) by apply (F _ ND).
  subst r refusal. unfold main. rewrite Ft, Fm, Fd. cbn [orb]. cbv beta.
  unfold startScheduler, schedule_site. fold hgtv foodNetwork.
  destruct (Sweepstakes.enabled hgtv);
    [destruct (cron_schedule_error cron (Sweepstakes.schedule hgtv)) as [e1|]|];
    (destruct (Sweepstakes.enabled foodNetwork);
     [destruct (cron_schedule_error cron (Sweepstakes.schedule foodNetwork)) as [e2|]|]);
    cbn [main_file main_trace main_ended main_logs app];
    (split; [reflexivity|]); (split; [reflexivity|]);
    (split; [|intros env f'; split; reflexivity]);
    try reflexivity;
    (split; [reflexivity|]);
    unfold fatal; rewrite ?in_app_iff; cbn [In]; auto 10.
Qed.

End Pipeline.

(* ================================================================== *)
(** ** The configuration module *)
(* ================================================================== *)

Lemma filter_nil_iff {A} (p : A -> bool) l :
  filter p l = [] <-> forall x, In x l -> p x = false.
Proof.
  induction l as [|y l IH]; cbn.
  - split; [intros _ x []|reflexivity].
  - destruct (p y) eqn:E.
    + split; [intros H; discriminate H|].
      intros H. rewrite (H y (or_introl eq_refl)) in E. discriminate E.
    + rewrite IH. split.
      * intros H x [<-|I]; auto.
      * intros H x I. apply H. right. exact I.
Qed.

Lemma missingFields_none env :
  (0 <? List.length (missingFields env))%nat = false <->
  forall field, In field requiredFields -> truthy_opt (env field) = true.
Proof.
  unfold missingFields. rewrite Nat.ltb_ge.
  split.
  - intros H field I.
    assert (E : filter (fun field => negb (truthy_opt (env field))) requiredFields = []).
    { destruct (filter _ requiredFields); [reflexivity|cbn in H; lia]. }
    rewrite filter_nil_iff in E. specialize (E field I). apply negb_false_iff, E.
  - intros H.
    assert (E : filter (fun field => negb (truthy_opt (env field))) requiredFields = []).
    { apply filter_nil_iff. intros field I. rewrite (H field I). reflexivity. }
    rewrite E. cbn. lia.
Qed.

(** X29. The configuration module exports a configuration exactly when every
    required variable of the process environment is set to a string that
    is not empty and the year of birth, subtracted from the current year,
    leaves at least 21; a year of birth that does not parse as a number
    passes the age check.  In every other case the process exits, with
    code 1. *)
Theorem load_config_validates parseInt join_root env currentYear :
  ((exists c, load_config parseInt join_root env currentYear = Exports c)
   <-> ((forall field, In field requiredFields -> truthy_opt (env field) = true)
        /\ match parseInt_env parseInt (env "DOB_YEAR") with
           | Some birthYear => (21 <= currentYear - birthYear)%Z
           | None => True
           end))
  /\ (forall code stderr,
        load_config parseInt join_root env currentYear = ProcessExit code stderr ->
        code = 1%Z).
Proof.
  unfold load_config, underage. cbv zeta.
  pose proof (missingFields_none env) as Mi.
  destruct (0 <? List.length (missingFields env))%nat.
  - split.
    + split; [intros [c H]; discriminate H|].
      intros [All _]. apply Mi in All. discriminate All.
    + intros code stderr [= <- _]. reflexivity.
  - destruct (parseInt_env parseInt (env "DOB_YEAR")) as [birthYear|].
    + destruct (Z.ltb_spec (currentYear - birthYear) 21) as [Young|Old].
      * split.
        -- split; [intros [c H]; discriminate H|]. intros [_ Age]. lia.
        -- intros code stderr [= <- _]. reflexivity.
      * split.
        -- split; [intros _|eauto]. split; [apply Mi; reflexivity|lia].
        -- intros code stderr H. discriminate H.
    + split.
      * split; [intros _|eauto]. split; [apply Mi; reflexivity|exact I].
      * intros code stderr H. discriminate H.
Qed.

Lemma set_value_truthy (env : ProcessEnv) field :
  truthy_opt (env field) = true -> truthy (set_value (env field)) = true.
Proof. destruct (env field); cbn; [auto|intros H; discriminate H]. Qed.

Lemma or_else_truthy o fallback : truthy fallback = true -> truthy (or_else o fallback) = true.
Proof.
  intros F. unfold or_else. destruct o as [s|]; [|exact F].
  destruct (truthy s) eqn:T; [exact T|exact F].
Qed.

Lemma is_text_iff o text : is_text o text = true <-> o = Some text.
Proof.
  unfold is_text. destruct o as [s|].
  - rewrite String.eqb_eq. split; [intros ->; reflexivity|intros [= ->]; reflexivity].
  - split; intros H; discriminate H.
Qed.

(** X30. What the entry functions and the scheduler can rely on in an exported
    configuration.  Every required personal field is a string that is not
    empty.  The solver key is never the empty string, so that testing its
    truth is testing its presence.  The slow-motion delay is never zero: a
    setting of zero, like one that does not parse, gives 100.  A site is
    disabled only by the exact text false, and the browser is headless
    only by the exact text true.  The two cron expressions are never
    empty. *)
Theorem exported_config_is_usable parseInt join_root env currentYear c :
  load_config parseInt join_root env currentYear = Exports c ->
  let info := personalInfo (exported_config c) in
  Forall (fun value => truthy value = true)
    [ firstName info; lastName info; email info; addressLine1 info; city info; state info;
      zipCode info; phone info; dobMonth info; dobDay info; dobYear info ]
  /\ captcha_solverApiKey (exported_config c) <> Some ""
  /\ (truthy_opt (captcha_solverApiKey (exported_config c)) = true
      <-> captcha_solverApiKey (exported_config c) <> None)
  /\ browser_slowMo (exported_config c) <> 0%Z
  /\ (browser_headless (exported_config c) = true <-> env "HEADLESS" = Some "true")
  /\ (Sweepstakes.enabled (Sweepstakes.hgtv (exported_sweepstakes c)) = false
      <-> env "HGTV_ENABLED" = Some "false")
  /\ (Sweepstakes.enabled (Sweepstakes.foodNetwork (exported_sweepstakes c)) = false
      <-> env "FOODNETWORK_ENABLED" = Some "false")
  /\ truthy (Sweepstakes.schedule (Sweepstakes.hgtv (exported_sweepstakes c))) = true
  /\ truthy (Sweepstakes.schedule (Sweepstakes.foodNetwork (exported_sweepstakes c))) = true.
Proof.
  unfold load_config. cbv zeta.
  pose proof (missingFields_none env) as Mi.
  destruct (0 <? List.length (missingFields env))%nat; [intros H; discriminate H|].
  destruct (underage parseInt env currentYear); [intros H; discriminate H|].
  intros [= <-]. cbn [exported_config exported_sweepstakes personalInfo firstName lastName email
                        addressLine1 city state zipCode phone dobMonth dobDay dobYear
                        captcha_solverApiKey browser_slowMo browser_headless
                        Sweepstakes.enabled Sweepstakes.schedule Sweepstakes.hgtv
                        Sweepstakes.foodNetwork].
  assert (All : forall field, In field requiredFields -> truthy (set_value (env field)) = true).
  { intros field I. apply set_value_truthy. apply Mi; [reflexivity|exact I]. }
  split.
  { repeat constructor; apply All; cbn; tauto. }
  split.
  { unfold or_null. destruct (env "CAPTCHA_SOLVER_API_KEY") as [s|]; [|discriminate].
    destruct (truthy s) eqn:T; [|discriminate]. intros [= ->]. discriminate T. }
  split.
  { unfold or_null. destruct (env "CAPTCHA_SOLVER_API_KEY") as [s|].
    - destruct (truthy s) eqn:T; cbn [truthy_opt].
      + rewrite T. split; [discriminate|reflexivity].
      + split; [intros H; discriminate H|intros H; destruct H; reflexivity].
    - cbn. split; [intros H; discriminate H|intros H; destruct H; reflexivity]. }
  split.
  { unfold slowMo_of. destruct (parseInt_env parseInt (env "SLOW_MO")) as [n|]; [|discriminate].
    destruct (Z.eqb_spec n 0); [discriminate|assumption]. }
  split; [apply is_text_iff|].
  split; [rewrite negb_false_iff; apply is_text_iff|].
  split; [rewrite negb_false_iff; apply is_text_iff|].
  split; apply or_else_truthy; reflexivity.
Qed.



(* ================================================================== *)
(** ** The theorems at work on a concrete platform *)
(* ================================================================== *)







(** Last night's success, 22:00 in New York, does not stop this morning's
    run, although both instants fall on January 15 in UTC. *)
Lemma last_night_allows_this_morning :
  fst (checkRateLimit newYork_date "hgtv" env_morning (initial_store ledger_last_night))
  = Normal true.
Proof.
  destruct (checkRateLimit_decision newYork_date "hgtv" env_morning
              (initial_store ledger_last_night) records_last_night eq_refl) as (_ & _ & _ & H).
  apply (H success_last_night).
  - split.
    + vm_compute. auto.
    + intros r' I. vm_compute in I. destruct I as [<-|[<-|[]]]; vm_compute; discriminate.
  - vm_compute. discriminate.
Defined.

(** A dry run goes ahead and returns true on a ledger that would deny a
    real run. *)
Lemma dry_run_goes_ahead :
  fst (run (submitHGTVEntry sample_config newYork_date toLowerCase_ascii true) env_morning Absent)
  = Resolved true.
Proof.
  pose proof (dry_run_skips_rate_check_and_submit sample_config newYork_date toLowerCase_ascii
      env_morning Absent)
    as H.
  cbv zeta in H. destruct H as (_ & _ & H).
  destruct (H (EmbeddedFrame wayin_frame)
              (snd (hgtv_through_fill sample_config env_morning
                      (entered "hgtv" (announced "hgtv" Absent))))) as [R _].
  - vm_compute. reflexivity.
  - intros h. reflexivity.
  - exact R.
Defined.

(** C3 as stated fails: a dry run never executes the rate check. *)
Lemma dry_run_never_checks_rate :
  ~ (forall env f,
        let out := run (submitHGTVEntry sample_config newYork_date toLowerCase_ascii true) env f in
        rate_check_executed (snd out)
        /\ fst out = Resolved true
        /\ forallb not_submit_click (trace (snd out)) = true).
Proof.
  intros H. specialize (H env_morning ledger_last_night). cbv zeta in H.
  destruct H as [R _]. vm_compute in R. exact R.
Qed.

(** The check-user control never appears: the run fails, it records the
    fixed text and the log holds the message of the timeout. *)
Lemma check_user_failure_recorded :
  file (snd (run (submitHGTVEntry sample_config newYork_date toLowerCase_ascii false)
               env_check_user_fails Absent))
  = Holds (Json [Submission.mk "hgtv" false (Some "See logs for details")
                   (now_record env_check_user_fails)])
  /\ stage_error_logged "HGTV" check_user_timeout
       (snd (run (submitHGTVEntry sample_config newYork_date toLowerCase_ascii false)
               env_check_user_fails Absent)).
Proof.
  pose (out := run (submitHGTVEntry sample_config newYork_date toLowerCase_ascii false)
                 env_check_user_fails Absent).
  assert (Failed : fst out <> Resolved true) by (vm_compute; discriminate).
  assert (Allowed : fst (checkRateLimit newYork_date "hgtv" env_check_user_fails
                           (announced "hgtv" Absent)) = Normal true)
    by (vm_compute; reflexivity).
  destruct (proj1 (failed_run_records_fixed_error sample_config newYork_date
                     toLowerCase_ascii env_check_user_fails Absent [] (fst out) (snd out)
                     eq_refl eq_refl Failed) Allowed (surjective_pairing out))
    as [(e & h & Rejects & _)|[(dropped & older & Kept & Recorded) Logged]].
  - vm_compute in Rejects. discriminate Rejects.
  - symmetry in Kept. apply app_eq_nil in Kept. destruct Kept as [_ ->].
    split; [exact Recorded|].
    destruct Logged as [(e & Thrown & Line)|[(iframe & s1 & Filled & _)
                                            |(iframe & s1 & s2 & e & Filled & _)]].
    + vm_compute in Thrown. injection Thrown as <-. exact Line.
    + vm_compute in Filled. discriminate Filled.
    + vm_compute in Filled. discriminate Filled.
Defined.

(** C4 as stated fails: the error field of the record is not the message
    of the error that the [catch] block caught and logged. *)
Lemma recorded_error_is_not_the_message :
  ~ (forall env f s e older r,
        run (submitHGTVEntry sample_config newYork_date toLowerCase_ascii false) env f = (Resolved
            false, s) ->
        stage_error_logged "HGTV" e s ->
        file s = Holds (Json (older ++ [r])) ->
        Submission.success r = false /\ Submission.error r = Some e).
Proof.
  intros H.
  specialize (H env_check_user_fails Absent
                (snd (run (submitHGTVEntry sample_config newYork_date toLowerCase_ascii false)
                        env_check_user_fails Absent))
                check_user_timeout []
                (Submission.mk "hgtv" false (Some "See logs for details")
                   (now_record env_check_user_fails))).
  destruct H as [_ E].
  - vm_compute. reflexivity.
  - vm_compute. do 16 right. left. reflexivity.
  - vm_compute. reflexivity.
  - vm_compute in E. discriminate E.
Qed.

Lemma unreadable_ledger_allows :
  fst (checkRateLimit newYork_date "hgtv" env_morning
         (initial_store (Unreadable "EACCES: permission denied")))
  = Normal true.
Proof.
  apply (checkRateLimit_fails_open newYork_date "hgtv" env_morning
           (initial_store (Unreadable "EACCES: permission denied"))
           "EACCES: permission denied").
  left. reflexivity.
Defined.

(** The hundred-and-first record makes the ledger drop its oldest one. *)
Lemma full_ledger_stays_at_hundred :
  exists kept,
    file (snd (saveSubmissionRecord "hgtv" true None env_morning (initial_store ledger_full)))
    = Holds (Json kept)
    /\ List.length kept = 100%nat.
Proof.
  pose proof (saveSubmissionRecord_appends_and_truncates "hgtv" true None env_morning
                (initial_store ledger_full) (map old_failure (seq 0 100)) eq_refl eq_refl) as H.
  cbv zeta in H. destruct H as (kept & dropped & _ & F & _ & _ & _ & Len & _).
  exists kept. split; [exact F|]. apply Len.
  rewrite length_app, length_map, length_seq. cbn. lia.
Defined.

(** The iframe element never appears, the attribute is absent, and the
    markup yields the URL: the page navigates to it under https. *)
Lemma deferred_source_is_followed :
  fst (hgtv_locate sample_config env_deferred (initial_store Absent)) = Normal MainFrame
  /\ In (Did (Goto "https://xd.wayin.com/display/container/dc/5e1b?mode=responsive" None))
        (trace (snd (hgtv_locate sample_config env_deferred (initial_store Absent)))).
Proof.
  destruct (form_locator_fallback sample_config newYork_date toLowerCase_ascii env_deferred
      (initial_store Absent))
    as (_ & H & _).
  destruct (H "Waiting failed: 10000ms exceeded"
              (snd (waitForIframe env_deferred (initial_store Absent)))) as (_ & B & _).
  { vm_compute. reflexivity. }
  destruct (B deferred_markup "//xd.wayin.com/display/container/dc/5e1b?mode=responsive")
    as (_ & T & G).
  - reflexivity.
  - reflexivity.
  - vm_compute. reflexivity.
  - split.
    + apply G. reflexivity.
    + rewrite T. apply in_or_app. right. right. right. left. reflexivity.
Defined.


(** A ledger that cannot be read changes nothing in what the run returns. *)
Lemma unreadable_ledger_same_outcome :
  fst (run (submitHGTVEntry sample_config newYork_date toLowerCase_ascii false) env_morning
         (Unreadable "EACCES: permission denied"))
  = fst (run (submitHGTVEntry sample_config newYork_date toLowerCase_ascii false) env_morning
      Absent)
  /\ logs (snd (saveSubmissionRecord "hgtv" true None env_morning
                  (initial_store (Unreadable "EACCES: permission denied"))))
     = [Line Error "Failed to save submission record: EACCES: permission denied"].
Proof.
  destruct (recording_cannot_change_outcome sample_config newYork_date toLowerCase_ascii) as (_ &
      S & _ & U).
  split.
  - apply (U env_morning (Unreadable "EACCES: permission denied") "EACCES: permission denied").
    left. reflexivity.
  - destruct (S "hgtv" true None env_morning
                (initial_store (Unreadable "EACCES: permission denied"))
                "EACCES: permission denied") as [_ L].
    + left. reflexivity.
    + exact L.
Defined.

(* ================================================================== *)
(** ** More of the code on a concrete platform *)
(* ================================================================== *)

(** The form frame never shows: after three looks, and one more for the
    log, the primary path gives up. *)
Lemma blank_page_times_out :
  fst (waitForIframe env_blank (initial_store Absent))
  = Throw "Wayin iframe content did not load"
  /\ List.length (trace (snd (waitForIframe env_blank (initial_store Absent)))) = 8%nat.
Proof.
  destruct (waitForIframe_gives_up env_blank (initial_store Absent) eq_refl
              (fun h => eq_refl)) as (R & T & _).
  split; [exact R|]. rewrite T. reflexivity.
Defined.

(** The form frame shows at the third look. *)
Lemma late_frame_is_found :
  fst (waitForIframe env_late (initial_store Absent)) = Normal (EmbeddedFrame wayin_frame).
Proof.
  destruct (waitForIframe_stops_at_first_sighting env_late (initial_store Absent) 2
              ["https://www.hgtv.com/sweepstakes"; wayin_frame] wayin_frame) as [R _].
  - reflexivity.
  - vm_compute. lia.
  - intros j J. destruct j as [|[|j]]; [reflexivity|reflexivity|lia].
  - reflexivity.
  - vm_compute. reflexivity.
  - exact R.
Defined.

(** The failure of this morning does not count. *)
Lemma morning_failure_does_not_count :
  fst (checkRateLimit newYork_date "hgtv" env_morning (initial_store ledger_last_night))
  = fst (checkRateLimit newYork_date "hgtv" env_morning
           (initial_store (Holds (Json (firstn 3 records_last_night))))).
Proof.
  apply (checkRateLimit_counts_only_own_successes newYork_date "hgtv" env_morning
           (initial_store ledger_last_night)
           (initial_store (Holds (Json (firstn 3 records_last_night))))
           (firstn 3 records_last_night)
           (Submission.mk "hgtv" false (Some "See logs for details") (utc 2024 1 15 13 0)) []).
  - reflexivity.
  - cbn. reflexivity.
  - reflexivity.
Defined.

(** A failure recorded this morning leaves the evening open or closed as
    it was. *)
Lemma failed_morning_changes_nothing :
  fst (checkRateLimit newYork_date "hgtv" env_evening
         (snd (saveSubmissionRecord "hgtv" false (Some "See logs for details") env_morning
                 (initial_store ledger_last_night))))
  = fst (checkRateLimit newYork_date "hgtv" env_evening (initial_store ledger_last_night)).
Proof.
  apply (failure_keeps_the_day_open newYork_date "hgtv" "hgtv" false
           (Some "See logs for details") env_morning env_evening
           (initial_store ledger_last_night) records_last_night).
  - reflexivity.
  - reflexivity.
  - cbn. lia.
  - reflexivity.
Defined.

(** The success of this morning denies a run of this morning; ninety-nine
    failures of the other site and one more later, it is forgotten. *)
Lemma crowded_ledger_forgets_this_morning :
  fst (checkRateLimit newYork_date "hgtv" env_morning (initial_store ledger_crowded))
  = Normal false
  /\ fst (checkRateLimit newYork_date "hgtv" env_morning
            (snd (saveSubmissionRecord "foodnetwork" false (Some "See logs for details")
                    env_morning (initial_store ledger_crowded))))
     = Normal true.
Proof.
  split; [vm_compute; reflexivity|].
  apply (full_ledger_forgets_oldest newYork_date "hgtv" "foodnetwork" false
           (Some "See logs for details") env_morning env_morning
           (initial_store ledger_crowded) success_this_morning (map later_failure (seq 0 99))).
  - reflexivity.
  - rewrite length_map, length_seq. reflexivity.
  - reflexivity.
  - vm_compute. reflexivity.
  - reflexivity.
Defined.

(** The ledger after the first run of the day. *)
Lemma first_ledger_is_in_order :
  exists l,
    ledger_of (file (snd (run (submitHGTVEntry sample_config newYork_date toLowerCase_ascii false)
                            env_morning Absent))) = Some l
    /\ (List.length l <= 100)%nat.
Proof.
  destruct (kept_ledger_in_order sample_config newYork_date toLowerCase_ascii
              (file (snd (run (submitHGTVEntry sample_config newYork_date toLowerCase_ascii false)
                            env_morning Absent)))
              (now_record env_morning)) as (l & L & Len & _).
  - apply (kept_after_hgtv sample_config newYork_date toLowerCase_ascii Absent (utc 2024 1 15 0 0)
      false
             env_morning
             (fst (run (submitHGTVEntry sample_config newYork_date toLowerCase_ascii false)
                 env_morning Absent))).
    + apply kept_fresh.
    + vm_compute. split; discriminate.
    + apply surjective_pairing.
  - exists l. split; [exact L|exact Len].
Defined.

(** The deferred source in the sample markup. *)
Lemma deferred_source_is_in_the_markup :
  exists pre tail post,
    deferred_markup
    = pre ++ "data-src=" ++ quoted "//xd.wayin.com/display/container/dc/5e1b?mode=responsive"
          ++ post
    /\ "//xd.wayin.com/display/container/dc/5e1b?mode=responsive" = "//xd.wayin.com/" ++ tail
    /\ tail <> ""
    /\ includes tail (String dquote "") = false.
Proof.
  apply (match_data_src_sound deferred_markup
           "//xd.wayin.com/display/container/dc/5e1b?mode=responsive").
  vm_compute. reflexivity.
Defined.

Lemma source_after_other_markup_is_found :
  match_data_src ("data-src=" ++ quoted ("//xd.wayin.com/" ++ "display") ++ "></iframe>")
  = Some ("//xd.wayin.com/" ++ "display")
  /\ exists u,
      match_data_src ("<iframe id=" ++ quoted "ngxFrame1" ++ " "
                      ++ "data-src=" ++ quoted ("//xd.wayin.com/" ++ "display") ++ "></iframe>")
      = Some u.
Proof.
  apply (match_data_src_complete ("<iframe id=" ++ quoted "ngxFrame1" ++ " ") "display"
           "></iframe>").
  - discriminate.
  - reflexivity.
Defined.

(** A second run of the morning is denied in silence. *)
Lemma second_morning_run_is_silent :
  fst (run (submitHGTVEntry sample_config newYork_date toLowerCase_ascii false) env_morning
      ledger_this_morning)
  = Resolved false
  /\ trace (snd (run (submitHGTVEntry sample_config newYork_date toLowerCase_ascii false)
      env_morning
                   ledger_this_morning)) = [].
Proof.
  destruct (proj1 (denied_run_is_silent sample_config newYork_date toLowerCase_ascii env_morning
                     ledger_this_morning)) as (R & T & _).
  - vm_compute. reflexivity.
  - split; [exact R|exact T].
Defined.

(** A browser that cannot be closed makes the entry function reject. *)
Lemma unclosable_browser_rejects :
  (exists h, page env_close_fails unit h Close = Throws target_closed)
  \/ (exists h, page env_close_fails nat h Pages = Throws target_closed).
Proof.
  apply (entry_rejects_only_on_browser_release sample_config newYork_date toLowerCase_ascii true
      env_close_fails
           Absent target_closed).
  left. vm_compute. reflexivity.
Defined.

(** A CAPTCHA with a solver key configured: the run stops before the
    submit step. *)
Lemma captcha_with_solver_key_aborts :
  fst (run (submitHGTVEntry config_with_solver newYork_date toLowerCase_ascii false) env_captcha
      Absent)
  = Resolved false
  /\ forallb not_submit_click
       (trace (snd (run (submitHGTVEntry config_with_solver newYork_date toLowerCase_ascii false)
           env_captcha
                      Absent))) = true.
Proof.
  pose (sp := entered "hgtv"
                (snd (checkRateLimit newYork_date "hgtv" env_captcha (announced "hgtv" Absent)))).
  pose (s1 := snd (hgtv_through_fill config_with_solver env_captcha sp)).
  assert (C : forall h, page env_captcha unit h Close = Ok tt) by (intros h; reflexivity).
  assert (A : fst (checkRateLimit newYork_date "hgtv" env_captcha (announced "hgtv" Absent))
              = Normal true) by (vm_compute; reflexivity).
  assert (H1 : hgtv_through_fill config_with_solver env_captcha sp
               = (Normal (EmbeddedFrame wayin_frame), s1)) by (vm_compute; reflexivity).
  assert (Hc : fst (handleCaptcha config_with_solver (EmbeddedFrame wayin_frame) env_captcha s1)
               = Normal false) by (vm_compute; reflexivity).
  destruct (proj1 (unsolved_challenge_aborts config_with_solver newYork_date toLowerCase_ascii
      env_captcha Absent C)
              (EmbeddedFrame wayin_frame) s1 A H1 Hc) as (R & T & _).
  split; [exact R|exact T].
Defined.

(** The run of this morning returned true after a click on the submit
    control of the form session, which went through, and the reading of
    the page text. *)
Lemma morning_run_clicked_submit :
  exists iframe s2 closing,
    clickButton_error env_morning (trace s2) iframe ".xSubmit" = None
    /\ trace (snd (run (submitHGTVEntry sample_config newYork_date toLowerCase_ascii false)
                     env_morning Absent))
       = (settled_history env_morning (trace s2) iframe "hgtv-07-submitted"
          ++ Did BodyInnerText :: closing)%list.
Proof.
  destruct (proj1 (true_only_after_submit_click sample_config newYork_date toLowerCase_ascii
                     env_morning Absent))
    as (iframe & s1 & s2 & text & closing & _ & _ & Clicked & _ & T & _).
  - vm_compute. reflexivity.
  - exists iframe, s2, closing. split; [exact Clicked|exact T].
Defined.

(** A dry run of the Food Network function goes ahead and returns true. *)
Lemma foodnetwork_dry_run_goes_ahead :
  fst (run (submitFoodNetworkEntry sample_config newYork_date toLowerCase_ascii true) env_morning
      Absent)
  = Resolved true.
Proof.
  pose proof (foodnetwork_dry_run_skips_rate_check_and_submit sample_config newYork_date
      toLowerCase_ascii
                env_morning Absent) as H.
  cbv zeta in H. destruct H as (_ & _ & H).
  destruct (H (EmbeddedFrame wayin_frame)
              (snd (foodnetwork_through_fill sample_config env_morning
                      (entered "foodnetwork" (announced "foodnetwork" Absent))))) as [R _].
  - vm_compute. reflexivity.
  - intros h. reflexivity.
  - exact R.
Defined.


(** A ledger that cannot be read changes nothing to what the Food Network
    function returns. *)
Lemma foodnetwork_unreadable_ledger_same_outcome :
  fst (run (submitFoodNetworkEntry sample_config newYork_date toLowerCase_ascii false) env_morning
         (Unreadable "EACCES: permission denied"))
  = fst (run (submitFoodNetworkEntry sample_config newYork_date toLowerCase_ascii false)
      env_morning Absent).
Proof.
  apply (proj2 (foodnetwork_outcome_ignores_recording sample_config newYork_date toLowerCase_ascii)
           env_morning (Unreadable "EACCES: permission denied") "EACCES: permission denied").
  left. reflexivity.
Defined.

(** The site of a command line. *)
Lemma manual_hgtv_command_line :
  Flags.site (flags ["--manual"; "--site=hgtv"]) = "hgtv".
Proof.
  destruct (proj2 (proj2 (flags_site_parsed ["--manual"; "--site=hgtv"]))
              ["--manual"] "hgtv" []) as [_ V].
  - reflexivity.
  - intros arg [<-|[]]. reflexivity.
  - apply V; reflexivity.
Defined.

(** A dry run from the command line leaves the ledger of last night as it
    is. *)
Lemma dry_command_keeps_last_night :
  main_file (main sample_config newYork_date toLowerCase_ascii ["--dry-run"; "--site=hgtv"]
      sample_sweepstakes
               five_fields env_morning env_morning ledger_last_night)
  = ledger_last_night.
Proof.
  destruct (main_dry_run_keeps_ledger sample_config newYork_date toLowerCase_ascii ["--dry-run";
      "--site=hgtv"]
              sample_sweepstakes five_fields env_morning env_morning ledger_last_night)
    as (F & _).
  - left. reflexivity.
  - exact F.
Defined.

(** A misspelt site: nothing runs, and the exit code is 0. *)
Lemma misspelt_site_does_nothing :
  main_ended (main sample_config newYork_date toLowerCase_ascii ["--manual"; "--site=hgvt"]
      sample_sweepstakes
                five_fields env_morning env_morning Absent) = Exit 0
  /\ main_trace (main sample_config newYork_date toLowerCase_ascii ["--manual"; "--site=hgvt"]
      sample_sweepstakes
                   five_fields env_morning env_morning Absent) = [].
Proof.
  destruct (main_runs_the_named_site sample_config newYork_date toLowerCase_ascii ["--manual";
      "--site=hgvt"]
              sample_sweepstakes five_fields env_morning env_morning Absent
              ["--manual"] "hgvt" []) as (_ & _ & U).
  - intros [H|[H|[]]]; discriminate H.
  - left. left. reflexivity.
  - reflexivity.
  - intros arg [<-|[]]. reflexivity.
  - reflexivity.
  - reflexivity.
  - destruct U as (E & _ & T); [discriminate|discriminate|discriminate|].
    split; [exact E|exact T].
Defined.


(** Without a flag, and with the Food Network entries disabled, the
    scheduler stays up with the one task of HGTV. *)
Lemma no_flag_schedules_hgtv :
  main_ended (main sample_config newYork_date toLowerCase_ascii [] sample_sweepstakes five_fields
                env_morning env_morning Absent)
  = KeepsRunning [ {| job_expression := "0 9 * * *"; job_timezone := "America/New_York";
                      job_entry := HGTVEntry |} ]
  /\ main_file (main sample_config newYork_date toLowerCase_ascii [] sample_sweepstakes five_fields
                  env_morning env_morning Absent) = Absent.
Proof.
  destruct (main_scheduled_mode sample_config newYork_date toLowerCase_ascii [] sample_sweepstakes
              five_fields env_morning env_morning Absent) as (F & _ & E & _).
  - intros [].
  - intros [].
  - intros [].
  - split; [exact E|exact F].
Defined.

(** The sample environment loads: the slow-motion delay that it sets to
    zero is not zero in the configuration, and the Food Network site,
    set to the text false, is disabled. *)
Lemma sample_environment_loads :
  exists c,
    load_config parseInt_decimal join_app sample_env 2026 = Exports c
    /\ browser_slowMo (exported_config c) <> 0%Z
    /\ Sweepstakes.enabled (Sweepstakes.foodNetwork (exported_sweepstakes c)) = false.
Proof.
  destruct (load_config parseInt_decimal join_app sample_env 2026) as [code stderr|c] eqn:L.
  - vm_compute in L. discriminate L.
  - exists c. split; [reflexivity|].
    destruct (exported_config_is_usable parseInt_decimal join_app sample_env 2026 c L)
      as (_ & _ & _ & S & _ & _ & Fn & _).
    split; [exact S|]. apply Fn. reflexivity.
Defined.
